(** * The gateway's adapter manager, Z-Wave adapter and smart-plug widget

    A shallow embedding of [src/adapter-manager.js],
    [src/adapters/zwave/zwave-adapter.js] and the smart-plug widget
    ([src/unnamed/part_001]), with the properties the specification
    states about them and further properties of the code.

    Conventions of the embedding.
    - A JavaScript object used as a dictionary is an association list in
      creation order ([JsObject]); [obj_keys] gives the order in which
      [for ... in] visits the keys.  [obj_get] reads own properties,
      which is what [o[k]] gives for the ids that adapters assign;
      the lookups by an id that a caller supplies ([Lookups]) also find
      the members inherited from [Object.prototype].
    - Objects compared with [!==] carry an explicit reference
      ([adapter_ref]); the comparison is on references.  An [Adapter] or
      [Device] value shows the fields of the object as they are when it is
      handed over; where the Z-Wave adapter assigns to a field of an
      object the registry already holds, the registry's entries for that
      object follow ([ZWaveAdapter.alias]).
    - The fields of a Z-Wave node that the driver's callbacks write are
      kept by the identity of the node ([ZWaveNodes.fields]), so that
      every holder of the node sees an assignment.
    - Numbers are integers: ids of Z-Wave homes and nodes are
      non-negative, the power the widget shows is a whole number.  The
      text of a whole number is its decimal digits, which is what JS
      prints for the whole numbers that a number holds exactly
      ([safe_integer]); fractions, larger numbers and [NaN] are outside
      the model.
    - Every observable effect (an event emitted, a method called on an
      adapter, a console line, a deferred being settled) is appended to a
      chronological [trace].  The callees are opaque: they do not call
      back into the manager during the call. *)

From Stdlib Require Import ZArith NArith Ascii String List HexString.
From stdpp Require Import base option list strings numbers sorting pretty.

Local Open Scope string_scope.
Local Open Scope list_scope.

(** ** JavaScript objects used as dictionaries *)

Module Js.

Definition JsObject (V : Type) : Type := list (string * V).

Definition digit_of (c : ascii) : option N :=
  let n := N_of_ascii c in
  if ((48 <=? n) && (n <=? 57))%N then Some (n - 48)%N else None.

Fixpoint digits_value (acc : N) (s : string) : option N :=
  match s with
  | EmptyString => Some acc
  | String c s' =>
      match digit_of c with
      | Some d => digits_value (10 * acc + d)%N s'
      | None => None
      end
  end.

(** A key is an array index when it is the canonical decimal form of an
    integer below 2^32 - 1; [for ... in] visits those first, in
    ascending numeric order, then the other keys in creation order. *)
Definition array_index (k : string) : option N :=
  match k with
  | EmptyString => None
  | String "0"%char EmptyString => Some 0%N
  | String "0"%char _ => None
  | _ =>
      match digits_value 0 k with
      | Some n => if (n <? 4294967295)%N then Some n else None
      | None => None
      end
  end.

Definition index_le (a b : N * string) : Prop := (a.1 ≤ b.1)%N.

#[global] Instance index_le_dec a b : Decision (index_le a b) :=
  decide ((a.1 ≤ b.1)%N).

Definition indexed_keys (ks : list string) : list (N * string) :=
  omap (λ k, (λ n, (n, k)) <$> array_index k) ks.

Definition named_keys (ks : list string) : list string :=
  List.filter (λ k, match array_index k with None => true | Some _ => false end) ks.

Definition obj_keys {V} (o : JsObject V) : list string :=
  (merge_sort index_le (indexed_keys (o.*1))).*2 ++ named_keys (o.*1).

(** [o[k]] for a key the object owns, [undefined] otherwise: what
    [o[k]] gives when [k] is not the name of a member that the object
    inherits.  [PlainObject.get] is [o[k]] for every key. *)
Fixpoint obj_get {V} (k : string) (o : JsObject V) : option V :=
  match o with
  | [] => None
  | (k', v) :: o' => if decide (k' = k) then Some v else obj_get k o'
  end.

(** [o[k] = v] *)
Fixpoint obj_set {V} (k : string) (v : V) (o : JsObject V) : JsObject V :=
  match o with
  | [] => [(k, v)]
  | (k', v') :: o' =>
      if decide (k' = k) then (k, v) :: o' else (k', v') :: obj_set k v o'
  end.

(** [delete o[k]] *)
Fixpoint obj_delete {V} (k : string) (o : JsObject V) : JsObject V :=
  match o with
  | [] => []
  | (k', v') :: o' =>
      if decide (k' = k) then obj_delete k o' else (k', v') :: obj_delete k o'
  end.

(** [for (var k in o) { var v = o[k]; ... }]: the pairs the loop body
    sees, in visiting order. *)
Definition obj_entries {V} (o : JsObject V) : list (string * V) :=
  omap (λ k, (λ v, (k, v)) <$> obj_get k o) (obj_keys o).

(** [k in o] *)
Definition obj_has {V} (k : string) (o : JsObject V) : bool :=
  match obj_get k o with Some _ => true | None => false end.

End Js.
Import Js.

(** ** Objects made by [{}] and what they inherit *)

Module PlainObject.

(** The names of the members of [Object.prototype], which every object
    made by [{}] inherits: eleven functions and the accessor
    [__proto__]. *)
Definition Object_prototype : list string :=
  ["constructor"; "__defineGetter__"; "__defineSetter__"; "hasOwnProperty";
   "__lookupGetter__"; "__lookupSetter__"; "isPrototypeOf"; "propertyIsEnumerable";
   "toString"; "valueOf"; "__proto__"; "toLocaleString"].

(** What [o[k]] gives: the value of an own property, else the member
    inherited under that name (a function, or for [__proto__] the
    prototype object), else [undefined]. *)
Inductive Read (V : Type) :=
| Own (v : V)
| Inherited (member : string)
| Undefined.

Arguments Own {V} v.
Arguments Inherited {V} member.
Arguments Undefined {V}.

(** [o[k]] on an object made by [{}]. *)
Definition get {V} (k : string) (o : JsObject V) : Read V :=
  match obj_get k o with
  | Some v => Own v
  | None => if decide (k ∈ Object_prototype) then Inherited k else Undefined
  end.

End PlainObject.


(** ** The objects the manager is handed *)

(** Object identity, what [===] and [!==] compare. *)
Definition ObjRef := nat.

(** [if (x)] on a field that holds [null] or an object. *)
Definition truthy {A} (x : option A) : bool :=
  match x with Some _ => true | None => false end.

Inductive JsValue :=
| JsNull
| JsBool (b : bool)
| JsNumber (n : Z)
| JsString (s : string).

(** The fields of an adapter the manager reads or writes: [adapter.id],
    [adapter.name] and [adapter.constructor.name]. *)
Record Adapter := {
  adapter_ref : ObjRef;
  adapter_id : string;
  adapter_name : string;
  adapter_constructor_name : string
}.

(** Modelled from the spec: device.js is not among the sources.  A Thing
    is the uniform representation a device hands out through
    [getThing()]. *)
Record Thing := { thing_id : string; thing_name : string }.

(** Modelled from the spec: device.js is not among the sources.  A
    Device has a string id, a back-reference to its one owning adapter
    and a mapping from property names to values; [getThing()] returns
    its Thing. *)
Record Device := {
  device_id : string;
  device_adapter : ObjRef;
  device_thing : Thing;
  device_properties : JsObject JsValue
}.

Definition Device_getThing (device : Device) : Thing := device_thing device.

Definition Device_getProperty (device : Device) (propertyName : string)
  : option JsValue :=
  obj_get propertyName (device_properties device).

(** Modelled from the spec: deferred.js is not among the sources.  A
    Deferred owns one promise with "a single resolution slot
    (not-yet-resolved / resolved-with-device / rejected-with-reason)";
    the promise is named by its index in the store of promises. *)
Record Deferred := { promise : nat }.

Inductive Settlement :=
| Pending
| Resolved (value : Thing)
| Rejected (reason : string).

Inductive AdapterMethod :=
| startPairing
| cancelPairing
| startUnpairing
| cancelUnpairing
| unload.

Inductive EventArg :=
| OfAdapter (adapter : Adapter)
| OfThing (thing : Thing).

Inductive Effect :=
| Emit (event : string) (arg : EventArg)
| AdapterCall (adapter : Adapter) (method : AdapterMethod)
| DeviceSetProperty (device : Device) (propertyName : string) (value : JsValue)
| ConsoleLog (args : list string)
| DeferredResolve (d : Deferred) (value : Thing)
| DeferredReject (d : Deferred) (reason : string)
| ZWaveDriverCall (method : string) (args : list string)
| ClassifierCall (device : Device).

#[global] Instance Deferred_eq_dec : EqDecision Deferred.
Proof. solve_decision. Defined.

(** ** src/adapter-manager.js *)

Module AdapterManager.

(** The four fields the constructor sets. *)
Record t := {
  adapters : JsObject Adapter;
  devices : JsObject Device;
  deferredAdd : option Deferred;
  deferredRemove : option Deferred
}.

(** The singleton manager, the promises created so far and what the
    outside has observed. *)
Record World := {
  this : t;
  promises : list Settlement;
  trace : list Effect
}.

Definition constructor : t :=
  {| adapters := []; devices := []; deferredAdd := None; deferredRemove := None |}.

Definition initial : World :=
  {| this := constructor; promises := []; trace := [] |}.

(** Methods are state transformers over the world. *)
Definition M (A : Type) : Type := World → A * World.

#[global] Instance M_ret : MRet M := λ A a w, (a, w).
#[global] Instance M_bind : MBind M :=
  λ A B f m w, let '(a, w') := m w in f a w'.

Definition read {A} (f : t → A) : M A := λ w, (f (this w), w).

Definition write (f : t → t) : M unit :=
  λ w, (tt, {| this := f (this w); promises := promises w; trace := trace w |}).

(** Appends observable effects to the trace. *)
Definition tell (es : list Effect) : M unit :=
  λ w, (tt, {| this := this w; promises := promises w; trace := trace w ++ es |}).

Definition set_adapters (o : JsObject Adapter) (m : t) : t :=
  {| adapters := o; devices := devices m;
     deferredAdd := deferredAdd m; deferredRemove := deferredRemove m |}.
Definition set_devices (o : JsObject Device) (m : t) : t :=
  {| adapters := adapters m; devices := o;
     deferredAdd := deferredAdd m; deferredRemove := deferredRemove m |}.
Definition set_deferredAdd (d : option Deferred) (m : t) : t :=
  {| adapters := adapters m; devices := devices m;
     deferredAdd := d; deferredRemove := deferredRemove m |}.
Definition set_deferredRemove (d : option Deferred) (m : t) : t :=
  {| adapters := adapters m; devices := devices m;
     deferredAdd := deferredAdd m; deferredRemove := d |}.

Fixpoint for_each {A} (l : list A) (body : A → M unit) : M unit :=
  match l with
  | [] => mret tt
  | x :: l' => body x ;; for_each l' body
  end.

(** [for (var adapterId in this.adapters) { var adapter =
    this.adapters[adapterId]; body }] *)
Definition for_in_adapters (body : string → Adapter → M unit) : M unit :=
  o ← read adapters;
  for_each (obj_entries o) (λ kv, body kv.1 kv.2).

Definition emit (event : string) (arg : EventArg) : M unit :=
  tell [Emit event arg].

Definition console_log (args : list string) : M unit :=
  tell [ConsoleLog args].

Definition call (adapter : Adapter) (method : AdapterMethod) : M unit :=
  tell [AdapterCall adapter method].

(** [new Deferred()] *)
Definition new_Deferred : M Deferred :=
  λ w, ({| promise := List.length (promises w) |},
        {| this := this w; promises := promises w ++ [Pending]; trace := trace w |}).

(** A promise is settled by the first resolve or reject only. *)
Definition settle (p : nat) (s : Settlement) (ps : list Settlement)
  : list Settlement :=
  match ps !! p with
  | Some Pending => <[p := s]> ps
  | _ => ps
  end.

Definition Deferred_resolve (d : Deferred) (value : Thing) : M unit :=
  λ w, (tt, {| this := this w;
               promises := settle (promise d) (Resolved value) (promises w);
               trace := trace w ++ [DeferredResolve d value] |}).

Definition Deferred_reject (d : Deferred) (reason : string) : M unit :=
  λ w, (tt, {| this := this w;
               promises := settle (promise d) (Rejected reason) (promises w);
               trace := trace w ++ [DeferredReject d reason] |}).

Definition with_name (adapter : Adapter) (name : string) : Adapter :=
  {| adapter_ref := adapter_ref adapter; adapter_id := adapter_id adapter;
     adapter_name := name;
     adapter_constructor_name := adapter_constructor_name adapter |}.

Definition addAdapter (adapter : Adapter) : M unit :=
  let adapter := with_name adapter (adapter_constructor_name adapter) in
  write (λ m, set_adapters (obj_set (adapter_id adapter) adapter (adapters m)) m) ;;
  emit "adapter-added" (OfAdapter adapter).

Definition addNewThing : M nat :=
  deferredAdd' ← new_Deferred;
  m ← read id;
  (if truthy (deferredAdd m) then
     Deferred_reject deferredAdd' "Add already in progress"
   else if truthy (deferredRemove m) then
     Deferred_reject deferredAdd' "Remove already in progress"
   else
     write (set_deferredAdd (Some deferredAdd')) ;;
     for_in_adapters (λ adapterId adapter,
       console_log ["About to call startPairing on"; adapter_name adapter] ;;
       call adapter startPairing)) ;;
  mret (promise deferredAdd').

Definition cancelAddNewThing : M unit :=
  deferredAdd' ← read deferredAdd;
  match deferredAdd' with
  | Some deferredAdd' =>
      for_in_adapters (λ adapterId adapter, call adapter cancelPairing) ;;
      write (set_deferredAdd None) ;;
      Deferred_reject deferredAdd' "addNewThing cancelled"
  | None => mret tt
  end.

Definition cancelRemoveSomeThing : M unit :=
  deferredRemove' ← read deferredRemove;
  match deferredRemove' with
  | Some deferredRemove' =>
      for_in_adapters (λ adapterId adapter, call adapter cancelUnpairing) ;;
      write (set_deferredRemove None) ;;
      Deferred_reject deferredRemove' "removeSomeThing cancelled"
  | None => mret tt
  end.

Definition getAdapter (id : string) : M (option Adapter) :=
  read (λ m, obj_get id (adapters m)).

Definition getAdapters : M (JsObject Adapter) := read adapters.

Definition getDevice (id : string) : M (option Device) :=
  read (λ m, obj_get id (devices m)).

Definition getDevices : M (JsObject Device) := read devices.

Definition getThing (thingId : string) : M (option Thing) :=
  device ← getDevice thingId;
  match device with
  | Some device => mret (Some (Device_getThing device))
  | None => mret None
  end.

Definition getThings : M (list (option Thing)) :=
  o ← read devices;
  mapM (λ kv : string * Device, getThing kv.1) (obj_entries o).

Definition getProperty (thingId propertyName : string) : M (option JsValue) :=
  device ← getDevice thingId;
  match device with
  | Some device => mret (Device_getProperty device propertyName)
  | None => mret None
  end.

Definition setProperty (thingId propertyName : string) (value : JsValue)
  : M unit :=
  device ← getDevice thingId;
  match device with
  | Some device => tell [DeviceSetProperty device propertyName value]
  | None => mret tt
  end.

Definition handleDeviceAdded (device : Device) : M unit :=
  write (λ m, set_devices (obj_set (device_id device) device (devices m)) m) ;;
  let thing := Device_getThing device in
  emit "thing-added" (OfThing thing) ;;
  deferredAdd' ← read deferredAdd;
  match deferredAdd' with
  | Some deferredAdd' =>
      write (set_deferredAdd None) ;;
      for_in_adapters (λ adapterId adapter,
        if decide (adapter_ref adapter ≠ device_adapter device)
        then call adapter cancelPairing
        else mret tt) ;;
      console_log ["AdapterManager: About to resolve deferredAdd"] ;;
      Deferred_resolve deferredAdd' thing
  | None => mret tt
  end.

Definition handleDeviceRemoved (device : Device) : M unit :=
  write (λ m, set_devices (obj_delete (device_id device) (devices m)) m) ;;
  let thing := Device_getThing device in
  emit "thing-removed" (OfThing thing) ;;
  console_log ["AdapterManager: handleDeviceRemoved"] ;;
  deferredRemove' ← read deferredRemove;
  match deferredRemove' with
  | Some deferredRemove' =>
      write (set_deferredRemove None) ;;
      for_in_adapters (λ adapterId adapter,
        if decide (adapter_ref adapter ≠ device_adapter device)
        then call adapter cancelUnpairing
        else mret tt) ;;
      console_log ["AdapterManager: About to resolve deferredRemove"] ;;
      Deferred_resolve deferredRemove' thing
  | None => mret tt
  end.

Definition removeSomeThing : M nat :=
  deferredRemove' ← new_Deferred;
  m ← read id;
  (if truthy (deferredAdd m) then
     Deferred_reject deferredRemove' "Add already in progress"
   else if truthy (deferredRemove m) then
     Deferred_reject deferredRemove' "Remove already in progress"
   else
     write (set_deferredRemove (Some deferredRemove')) ;;
     for_in_adapters (λ adapterId adapter, call adapter startUnpairing)) ;;
  mret (promise deferredRemove').

Definition unloadAdapters : M unit :=
  for_in_adapters (λ adapterId adapter,
    console_log ["Unloading"; adapter_name adapter] ;;
    call adapter unload).

End AdapterManager.

(** ** src/adapter-manager.js: the lookups by an id the caller supplies *)

(** [this.adapters] and [this.devices] are made by [{}], so that a
    lookup by an id that names a member of [Object.prototype] finds that
    member.  These are the lookups of the manager for every id; for an id
    that names no such member they are those of [AdapterManager]. *)
Module Lookups.

(** How a call ends: it returns a value, or a TypeError is thrown. *)
Inductive Outcome (A : Type) :=
| Returns (a : A)
| Throws (error : string).

Arguments Returns {A} a.
Arguments Throws {A} error.

Definition getAdapter (id : string) : AdapterManager.M (PlainObject.Read Adapter) :=
  AdapterManager.read (λ m, PlainObject.get id (AdapterManager.adapters m)).

Definition getDevice (id : string) : AdapterManager.M (PlainObject.Read Device) :=
  AdapterManager.read (λ m, PlainObject.get id (AdapterManager.devices m)).

(** An inherited member is truthy and has no method [getThing],
    [getProperty] or [setProperty]: the call of the method throws. *)
Definition getThing (thingId : string) : AdapterManager.M (Outcome (option Thing)) :=
  device ← getDevice thingId;
  match device with
  | PlainObject.Own device => mret (Returns (Some (Device_getThing device)))
  | PlainObject.Inherited _ =>
      mret (Throws "TypeError: device.getThing is not a function")
  | PlainObject.Undefined => mret (Returns None)
  end.

Definition getProperty (thingId propertyName : string)
  : AdapterManager.M (Outcome (option JsValue)) :=
  device ← getDevice thingId;
  match device with
  | PlainObject.Own device => mret (Returns (Device_getProperty device propertyName))
  | PlainObject.Inherited _ =>
      mret (Throws "TypeError: device.getProperty is not a function")
  | PlainObject.Undefined => mret (Returns None)
  end.

Definition setProperty (thingId propertyName : string) (value : JsValue)
  : AdapterManager.M (Outcome unit) :=
  device ← getDevice thingId;
  match device with
  | PlainObject.Own device =>
      AdapterManager.tell [DeviceSetProperty device propertyName value] ;;
      mret (Returns tt)
  | PlainObject.Inherited _ =>
      mret (Throws "TypeError: device.setProperty is not a function")
  | PlainObject.Undefined => mret (Returns tt)
  end.

End Lookups.

(** ** src/adapters/zwave/zwave-adapter.js *)

Module ZWaveAdapter.

(** [Number.prototype.toString(16)] on a non-negative integer. *)
Definition toString16 (n : N) : string :=
  match n with
  | N0 => "0"
  | Npos p => HexString.Raw.of_pos p ""
  end.

(** zwave-node.js is not among the sources.  The fields of a node that
    the modelled methods read: the node as a Device, [node.nodeId] and
    [node.zwInfo.nodeId]; [node_ref] is the identity of the object. *)
Record ZWaveNode := {
  node_ref : ObjRef;
  node_device : Device;
  nodeId : N;
  zwInfo_nodeId : N
}.

(** The adapter object: the fields of the base class ([base],
    [adapter_devices]) and those the subclass constructor sets. *)
Record t := {
  base : Adapter;
  adapter_devices : JsObject Device;
  ready : bool;
  named : bool;
  port_comName : string;
  nodes : JsObject ZWaveNode;
  nodesBeingAdded : JsObject ZWaveNode
}.

Record World := {
  self : t;
  manager : AdapterManager.World
}.

Definition M (A : Type) : Type := World → A * World.

#[global] Instance M_ret : MRet M := λ A a w, (a, w).
#[global] Instance M_bind : MBind M :=
  λ A B f m w, let '(a, w') := m w in f a w'.

Definition read {A} (f : t → A) : M A := λ w, (f (self w), w).

Definition write (f : t → t) : M unit :=
  λ w, (tt, {| self := f (self w); manager := manager w |}).

(** A call on [this.manager]. *)
Definition on_manager {A} (m : AdapterManager.M A) : M A :=
  λ w, let '(a, mw) := m (manager w) in (a, {| self := self w; manager := mw |}).

Definition tell (es : list Effect) : M unit :=
  on_manager (AdapterManager.tell es).

Definition set_base (a : Adapter) (z : t) : t :=
  {| base := a; adapter_devices := adapter_devices z; ready := ready z;
     named := named z; port_comName := port_comName z; nodes := nodes z;
     nodesBeingAdded := nodesBeingAdded z |}.
Definition set_adapter_devices (o : JsObject Device) (z : t) : t :=
  {| base := base z; adapter_devices := o; ready := ready z;
     named := named z; port_comName := port_comName z; nodes := nodes z;
     nodesBeingAdded := nodesBeingAdded z |}.
Definition set_nodes (o : JsObject ZWaveNode) (z : t) : t :=
  {| base := base z; adapter_devices := adapter_devices z; ready := ready z;
     named := named z; port_comName := port_comName z; nodes := o;
     nodesBeingAdded := nodesBeingAdded z |}.
Definition set_nodesBeingAdded (o : JsObject ZWaveNode) (z : t) : t :=
  {| base := base z; adapter_devices := adapter_devices z; ready := ready z;
     named := named z; port_comName := port_comName z; nodes := nodes z;
     nodesBeingAdded := o |}.

Definition with_id (a : Adapter) (id : string) : Adapter :=
  {| adapter_ref := adapter_ref a; adapter_id := id;
     adapter_name := adapter_name a;
     adapter_constructor_name := adapter_constructor_name a |}.

(** Modelled from the spec: adapter.js is not among the sources.  The
    base class keeps the adapter's id and its own mapping from device
    id to Device, and its discovery callbacks invoke the registry's
    [handleDeviceAdded] and [handleDeviceRemoved].  The display name is
    left empty until [addAdapter] assigns it. *)
Definition Adapter_constructor (ref : ObjRef) (id className : string) : Adapter :=
  {| adapter_ref := ref; adapter_id := id; adapter_name := "";
     adapter_constructor_name := className |}.

Definition Adapter_handleDeviceAdded (device : Device) : M unit :=
  write (λ z, set_adapter_devices
                (obj_set (device_id device) device (adapter_devices z)) z) ;;
  on_manager (AdapterManager.handleDeviceAdded device).

Definition Adapter_handleDeviceRemoved (device : Device) : M unit :=
  write (λ z, set_adapter_devices
                (obj_delete (device_id device) (adapter_devices z)) z) ;;
  on_manager (AdapterManager.handleDeviceRemoved device).

(** [new ZWaveAdapter(adapterManager, port)]: the object it builds,
    [ref] being the identity of the new object, and the one driver call
    it makes. *)
Definition constructor (ref : ObjRef) (comName : string) : t :=
  {| base := Adapter_constructor ref "???" "ZWaveAdapter";
     adapter_devices := [];
     ready := false; named := false; port_comName := comName;
     nodes := []; nodesBeingAdded := [] |}.

Definition construct (ref : ObjRef) (comName : string)
    (mw : AdapterManager.World) : World :=
  (tell [ZWaveDriverCall "connect" [comName]]
     {| self := constructor ref comName; manager := mw |}).2.

(** The adapter object is shared with the registry: an entry of
    [this.manager.adapters] that holds this object sees every assignment
    to its fields.  [alias a o] is [o] with the entries that hold the
    object of [a] showing the fields of [a]. *)
Definition alias (a : Adapter) (o : JsObject Adapter) : JsObject Adapter :=
  (λ kv : string * Adapter,
     if decide (adapter_ref kv.2 = adapter_ref a) then (kv.1, a) else kv) <$> o.

(** An assignment to a field of [this] that the base class declares. *)
Definition assign (f : Adapter → Adapter) : M unit :=
  write (λ z, set_base (f (base z)) z) ;;
  this ← read base;
  on_manager (AdapterManager.write
                (λ m, AdapterManager.set_adapters
                        (alias this (AdapterManager.adapters m)) m)).

Definition driverReady (homeId : N) : M unit :=
  tell [ConsoleLog ["ZWave: Driver Ready: HomeId:"; toString16 homeId]] ;;
  assign (λ this, with_id this ("zwave-" +:+ toString16 homeId)) ;;
  this ← read base;
  on_manager (AdapterManager.addAdapter this) ;;
  (* [addAdapter] has assigned [adapter.name] on this very object *)
  assign (λ this, AdapterManager.with_name this (adapter_constructor_name this)).

Definition driverFailed : M unit :=
  tell [ConsoleLog ["ZWave: failed to start driver"]] ;;
  comName ← read port_comName;
  tell [ZWaveDriverCall "disconnect" [comName]].

Section Classifier.

(** zwave-classifier.js is not among the sources: what [classify]
    does to a node is a parameter. *)
Variable classify : ZWaveNode → ZWaveNode.

(** The node is shared with [this.nodes] and [this.nodesBeingAdded]:
    entries that hold it see what the classifier has made of it. *)
Definition alias_node (node : ZWaveNode) (o : JsObject ZWaveNode)
  : JsObject ZWaveNode :=
  (λ kv : string * ZWaveNode,
     if decide (node_ref kv.2 = node_ref node) then (kv.1, node) else kv) <$> o.

Definition handleDeviceAdded (node : ZWaveNode) : M unit :=
  write (λ z, set_nodesBeingAdded
                (obj_delete (pretty (zwInfo_nodeId node)) (nodesBeingAdded z)) z) ;;
  if (1 <? nodeId node)%N then
    tell [ClassifierCall (node_device node)] ;;
    let node := classify node in
    write (λ z, set_nodes (alias_node node (nodes z))
                  (set_nodesBeingAdded (alias_node node (nodesBeingAdded z)) z)) ;;
    Adapter_handleDeviceAdded (node_device node)
  else mret tt.

End Classifier.

Definition handleDeviceRemoved (node : ZWaveNode) : M unit :=
  write (λ z, set_nodes (obj_delete (pretty (zwInfo_nodeId node)) (nodes z)) z) ;;
  write (λ z, set_nodesBeingAdded
                (obj_delete (pretty (zwInfo_nodeId node)) (nodesBeingAdded z)) z) ;;
  Adapter_handleDeviceRemoved (node_device node).

Definition startPairing : M unit :=
  tell [ConsoleLog ["ZWave: ==============================================="];
        ConsoleLog ["ZWave: Press the Inclusion button on the device to add"];
        ConsoleLog ["ZWave: ==============================================="];
        ZWaveDriverCall "addNode" []].

Definition cancelPairing : M unit :=
  tell [ConsoleLog ["ZWave: Cancelling pairing mode"];
        ZWaveDriverCall "cancelControllerCommand" []].

Definition startUnpairing : M unit :=
  tell [ConsoleLog ["ZWave: =================================================="];
        ConsoleLog ["ZWave: Press the Exclusion button on the device to remove"];
        ConsoleLog ["ZWave: =================================================="];
        ZWaveDriverCall "removeNode" []].

Definition cancelUnpairing : M unit :=
  tell [ConsoleLog ["ZWave: Cancelling unpairing mode"];
        ZWaveDriverCall "cancelControllerCommand" []].

(** The callbacks through which the adapter reaches the manager.
    [DeviceAdded node] and [DeviceRemoved node] stand for the calls of
    [handleDeviceAdded] and [handleDeviceRemoved] that the driver's
    node-ready, scan-complete and node-removed callbacks make on a node of
    theirs; the remaining driver callbacks keep the books of the nodes,
    write to the console and call the driver. *)
Inductive Callback :=
| DriverReady (homeId : N)
| DriverFailed
| DeviceAdded (node : ZWaveNode)
| DeviceRemoved (node : ZWaveNode)
| StartPairing
| CancelPairing
| StartUnpairing
| CancelUnpairing.

Definition dispatch (classify : ZWaveNode → ZWaveNode) (c : Callback) : M unit :=
  match c with
  | DriverReady homeId => driverReady homeId
  | DriverFailed => driverFailed
  | DeviceAdded node => handleDeviceAdded classify node
  | DeviceRemoved node => handleDeviceRemoved node
  | StartPairing => startPairing
  | CancelPairing => cancelPairing
  | StartUnpairing => startUnpairing
  | CancelUnpairing => cancelUnpairing
  end.

Definition run (classify : ZWaveNode → ZWaveNode) (cs : list Callback) (w : World)
  : World :=
  fold_left (λ w c, (dispatch classify c w).2) cs w.

End ZWaveAdapter.

(** ** The smart-plug widget (src/unnamed/part_001) *)

Module SmartPlug.

(** [this.properties.on]: not yet set, [null], or a boolean. *)
Inductive OnValue :=
| OnUndefined
| OnNull
| OnBool (b : bool).

(** The fields of the widget that [turnOn], [turnOff] and the functions
    they call read or write.  Numbers are integers in this model. *)
Record t := {
  classList : list string;
  properties_on : OnValue;
  properties_power : option Z;
  powerLabel_innerText : string;
  onPropertyUrl : string
}.

Inductive PlugEffect :=
| Fetch (url method : string) (body : list (string * JsValue))
        (authorization : string)
| Log (line : string)
| Error (line : string).

(** What becomes of the promise [fetch] returns. *)
Inductive FetchOutcome :=
| Response (status : N)
| NetworkError (error : string).

Definition classList_remove (c : string) (l : list string) : list string :=
  List.filter (λ c', if decide (c' = c) then false else true) l.

Definition classList_add (c : string) (l : list string) : list string :=
  if decide (c ∈ l) then l else l ++ [c].

Definition set_classList (l : list string) (p : t) : t :=
  {| classList := l; properties_on := properties_on p;
     properties_power := properties_power p;
     powerLabel_innerText := powerLabel_innerText p;
     onPropertyUrl := onPropertyUrl p |}.
Definition set_on (v : OnValue) (p : t) : t :=
  {| classList := classList p; properties_on := v;
     properties_power := properties_power p;
     powerLabel_innerText := powerLabel_innerText p;
     onPropertyUrl := onPropertyUrl p |}.
Definition set_innerText (s : string) (p : t) : t :=
  {| classList := classList p; properties_on := properties_on p;
     properties_power := properties_power p;
     powerLabel_innerText := s;
     onPropertyUrl := onPropertyUrl p |}.

(** ['' + power], for a power that is [undefined] or a whole number
    that a JS number holds exactly (at most [2^53 - 1] in absolute
    value): JS prints such a number digit by digit.  The text of a larger
    number, which JS rounds and from [10^21] on prints with an exponent,
    is not what [pretty] gives. *)
Definition show_number (power : option Z) : string :=
  match power with
  | Some n => pretty n
  | None => "undefined"
  end.

Definition number_truthy (power : option Z) : bool :=
  match power with
  | Some n => negb (n =? 0)%Z
  | None => false
  end.

Definition showPower (power : option Z) (p : t) : t * list PlugEffect :=
  (if number_truthy (properties_power p)
   then set_innerText (show_number power +:+ "W") p
   else set_innerText "0W" p,
   [Log ("Power " +:+ show_number power)]).

Definition showOn (p : t) : t * list PlugEffect :=
  let p := set_classList (classList_remove "off" (classList p)) p in
  let p := set_classList (classList_add "on" (classList p)) p in
  showPower (properties_power p) p.

Definition showOff (p : t) : t * list PlugEffect :=
  let p := set_classList (classList_remove "on" (classList p)) p in
  let p := set_classList (classList_add "off" (classList p)) p in
  (set_innerText "OFF" p, []).

Definition showTransition (p : t) : t :=
  let p := set_classList (classList_remove "on" (classList p)) p in
  set_classList (classList_remove "off" (classList p)) p.

Definition put (jwt : string) (value : bool) (p : t) : PlugEffect :=
  Fetch (onPropertyUrl p) "PUT" [("on", JsBool value)] ("Bearer " +:+ jwt).

(** The part of [turnOn] that runs before it returns. *)
Definition turnOn_send (jwt : string) (p : t) : t * list PlugEffect :=
  let p := showTransition p in
  let p := set_on OnNull p in
  (p, [put jwt true p]).

(** The [then] and [catch] callbacks of [turnOn]. *)
Definition turnOn_settled (outcome : FetchOutcome) (p : t) : t * list PlugEffect :=
  match outcome with
  | Response status =>
      if (status =? 200)%N then
        let '(p, es) := showOn p in
        (set_on (OnBool true) p, es)
      else
        (p, [Error ("Status " +:+ pretty status +:+ " trying to turn on plug")])
  | NetworkError error =>
      (p, [Error ("Error trying to turn on plug: " +:+ error)])
  end.

Definition turnOff_send (jwt : string) (p : t) : t * list PlugEffect :=
  let p := showTransition p in
  let p := set_on OnNull p in
  (p, [put jwt false p]).

Definition turnOff_settled (outcome : FetchOutcome) (p : t) : t * list PlugEffect :=
  match outcome with
  | Response status =>
      if (status =? 200)%N then
        let '(p, es) := showOff p in
        (set_on (OnBool false) p, es)
      else
        (p, [Error ("Status " +:+ pretty status +:+ " trying to turn off switch")])
  | NetworkError error =>
      (p, [Error ("Error trying to turn off switch: " +:+ error)])
  end.

(** A whole write: the request, then its outcome. *)
Definition turnOn (jwt : string) (outcome : FetchOutcome) (p : t)
  : t * list PlugEffect :=
  let '(p, es) := turnOn_send jwt p in
  let '(p, es') := turnOn_settled outcome p in
  (p, es ++ es').

Definition turnOff (jwt : string) (outcome : FetchOutcome) (p : t)
  : t * list PlugEffect :=
  let '(p, es) := turnOff_send jwt p in
  let '(p, es') := turnOff_settled outcome p in
  (p, es ++ es').

(** The widget shows the plug as on, as off, or as in transition. *)
Definition shows_on (p : t) : Prop :=
  ("on" ∈ classList p) ∧ ("off" ∉ classList p).
Definition shows_off (p : t) : Prop :=
  ("off" ∈ classList p) ∧ ("on" ∉ classList p).
Definition in_flight (p : t) : Prop :=
  properties_on p = OnNull ∧ ("on" ∉ classList p) ∧ ("off" ∉ classList p).

End SmartPlug.

(** ** Loading the Z-Wave adapter (zwave-adapter.js, the loader) *)

Module ZWaveLoader.

(** A port as [SerialPort.list] reports it: [vendorId] and [productId]
    are strings or [undefined]. *)
Record Port := {
  comName : string;
  vendorId : option string;
  productId : option string
}.

(** [x == s] for [x] a string or [undefined] and [s] a string. *)
Definition loose_eq (x : option string) (s : string) : bool :=
  match x with
  | Some x => bool_decide (x = s)
  | None => false
  end.

Definition isZWavePort (port : Port) : bool :=
  (loose_eq (vendorId port) "0x0658" && loose_eq (productId port) "0x0200")
  || (loose_eq (vendorId port) "0x0658" && loose_eq (productId port) "0x0280")
  || (loose_eq (vendorId port) "0x10c4" && loose_eq (productId port) "0xea60").

(** The value passed as [error]: the error [SerialPort.list] reports, or
    a text of the loader's own.  Both are truthy. *)
Inductive ErrorValue :=
| SerialPortError (message : string)
| Text (text : string).

(** The arguments of a call of the callback: [callback(error)] or
    [callback(null, port)]. *)
Inductive CallbackArgs :=
| WithError (error : ErrorValue)
| WithPort (port : Port).

(** How a function ends: it returns, or a TypeError is thrown. *)
Inductive Completion :=
| Returned
| Threw (error : string).

Section FindPort.

Variable S : Type.
Variable callback : CallbackArgs → S → S.

(** [for (var port of ports) { if (isZWavePort(port)) { callback(null,
    port); return; } }]: whether the function has returned, and the
    state. *)
Fixpoint scan (ports : list Port) (s : S) : bool * S :=
  match ports with
  | [] => (false, s)
  | port :: ports =>
      if isZWavePort port then (true, callback (WithPort port) s)
      else scan ports s
  end.

(** The function [findZWavePort] hands to [SerialPort.list], called with
    what the listing gives: an error or [null], and the array of ports or
    [undefined]. *)
Definition listPortsCallback (error : option string) (ports : option (list Port))
    (s : S) : Completion * S :=
  let s := match error with
           | Some message => callback (WithError (SerialPortError message)) s
           | None => s
           end in
  match ports with
  | None => (Threw "TypeError: ports is not iterable", s)
  | Some ports =>
      let '(returned, s) := scan ports s in
      if returned then (Returned, s)
      else (Returned, callback (WithError (Text "No ZWave port found")) s)
  end.

End FindPort.

Inductive ConsoleLine :=
| ConsoleError (args : list string)
| ConsoleInfo (args : list string).

(** What loading acts on: the manager's world, the console, and the
    adapter objects built so far. *)
Record State := {
  manager : AdapterManager.World;
  console : list ConsoleLine;
  built : list ZWaveAdapter.t
}.

(** The callback [loadZWaveAdapters] passes to [findZWavePort]; [ref] is
    the identity the next new object gets. *)
Definition onPortFound (ref : ObjRef) (args : CallbackArgs) (s : State) : State :=
  match args with
  | WithError _ =>
      {| manager := manager s;
         console := console s ++ [ConsoleError ["Unable to find ZWave adapter"]];
         built := built s |}
  | WithPort port =>
      let zw := ZWaveAdapter.construct (ref + List.length (built s)) (comName port)
                  (manager s) in
      {| manager := ZWaveAdapter.manager zw;
         console := console s ++ [ConsoleInfo ["Found ZWave port @"; comName port]];
         built := built s ++ [ZWaveAdapter.self zw] |}
  end.

(** [loadZWaveAdapters(adapterManager)], once [SerialPort.list] has
    answered. *)
Definition loadZWaveAdapters (ref : ObjRef) (error : option string)
    (ports : option (list Port)) (s : State) : Completion * State :=
  listPortsCallback State (onPortFound ref) error ports s.

End ZWaveLoader.

(** ** The smart-plug widget: status updates (src/unnamed/part_001) *)

Module SmartPlugStatus.

(** The body of a property response: [on] is absent or a boolean,
    [instantaneousPower] absent or a whole number. *)
Record Data := {
  data_on : option bool;
  data_instantaneousPower : option Z
}.

Definition set_power (power : option Z) (p : SmartPlug.t) : SmartPlug.t :=
  {| SmartPlug.classList := SmartPlug.classList p;
     SmartPlug.properties_on := SmartPlug.properties_on p;
     SmartPlug.properties_power := power;
     SmartPlug.powerLabel_innerText := SmartPlug.powerLabel_innerText p;
     SmartPlug.onPropertyUrl := SmartPlug.onPropertyUrl p |}.

(** [if (this.properties.on)] *)
Definition on_truthy (v : SmartPlug.OnValue) : bool :=
  match v with
  | SmartPlug.OnBool b => b
  | _ => false
  end.

Definition onPropertyStatus (data : Data) (p : SmartPlug.t)
  : SmartPlug.t * list SmartPlug.PlugEffect :=
  let '(p, es) :=
    match data_on data with
    | Some on =>
        let p := SmartPlug.set_on (SmartPlug.OnBool on) p in
        if on then SmartPlug.showOn p else SmartPlug.showOff p
    | None => (p, [])
    end in
  let '(p, es') :=
    match data_instantaneousPower data with
    | Some power =>
        let p := set_power (Some power) p in
        if on_truthy (SmartPlug.properties_on p)
           && SmartPlug.number_truthy (SmartPlug.properties_power p)
        then SmartPlug.showPower (Some power) p
        else (p, [])
    | None => (p, [])
    end in
  (p, es ++ es').

(** What becomes of a [fetch] of a property: the parsed body, or a
    failure of the request or of the parsing. *)
Inductive StatusOutcome :=
| Body (data : Data)
| Failure (error : string).

(** The synchronous part of [updateStatus]; [powerPropertyUrl] is a URL
    or [undefined].  The widget's [onPropertyUrl] is set in this model,
    so the first request is always made. *)
Definition updateStatus_send (jwt : string) (powerPropertyUrl : option string)
    (p : SmartPlug.t) : list SmartPlug.PlugEffect :=
  [SmartPlug.Log "updating status";
   SmartPlug.Fetch (SmartPlug.onPropertyUrl p) "GET" [] ("Bearer " +:+ jwt)]
  ++ match powerPropertyUrl with
     | Some url => [SmartPlug.Log "updating power status";
                    SmartPlug.Fetch url "GET" [] ("Bearer " +:+ jwt)]
     | None => []
     end.

(** The [then] and [catch] callbacks of the two requests. *)
Definition onStatus_settled (outcome : StatusOutcome) (p : SmartPlug.t)
  : SmartPlug.t * list SmartPlug.PlugEffect :=
  match outcome with
  | Body data => onPropertyStatus data p
  | Failure error =>
      (p, [SmartPlug.Error ("Error fetching on/off switch status " +:+ error)])
  end.

Definition powerStatus_settled (outcome : StatusOutcome) (p : SmartPlug.t)
  : SmartPlug.t * list SmartPlug.PlugEffect :=
  match outcome with
  | Body data => onPropertyStatus data p
  | Failure error =>
      (p, [SmartPlug.Error ("Error fetching instantaneous power " +:+ error)])
  end.

(** What can happen to the widget, one step at a time. *)
Inductive Step :=
| TurnOn (jwt : string)
| TurnOnSettled (outcome : SmartPlug.FetchOutcome)
| TurnOff (jwt : string)
| TurnOffSettled (outcome : SmartPlug.FetchOutcome)
| OnStatus (outcome : StatusOutcome)
| PowerStatus (outcome : StatusOutcome).

Definition step (s : Step) (p : SmartPlug.t) : SmartPlug.t :=
  match s with
  | TurnOn jwt => (SmartPlug.turnOn_send jwt p).1
  | TurnOnSettled outcome => (SmartPlug.turnOn_settled outcome p).1
  | TurnOff jwt => (SmartPlug.turnOff_send jwt p).1
  | TurnOffSettled outcome => (SmartPlug.turnOff_settled outcome p).1
  | OnStatus outcome => (onStatus_settled outcome p).1
  | PowerStatus outcome => (powerStatus_settled outcome p).1
  end.

Definition steps (l : list Step) (p : SmartPlug.t) : SmartPlug.t :=
  fold_left (λ p s, step s p) l p.

End SmartPlugStatus.

(** ** The Z-Wave adapter: what the driver reports about nodes and
    values (zwave-adapter.js) *)

Module ZWaveNodes.

Definition DEBUG : bool := false.

(** A value of a node as the driver hands it over.  The callbacks store
    the object and never assign to it. *)
Record Value := {
  value_id : string;
  value_genre : string;
  value_label : string;
  value_type : string;
  value_value : JsValue;
  value_index : N
}.

(** An entry of [node.properties]. *)
Record Property := {
  property_id : string;
  property_name : string;
  property_type : string;
  property_value : JsValue;
  property_zwValue : Value
}.

(** The texts of [node.zwInfo]; [undefined] until a text is assigned. *)
Record ZwInfo := {
  zwInfo_location : option string;
  zwInfo_manufacturer : option string;
  zwInfo_manufacturerId : option string;
  zwInfo_product : option string;
  zwInfo_productType : option string;
  zwInfo_productId : option string;
  zwInfo_type : option string
}.

(** What the driver knows of a node when it names it: all texts. *)
Record NodeInfo := {
  nodeInfo_name : string;
  nodeInfo_loc : string;
  nodeInfo_manufacturer : string;
  nodeInfo_manufacturerid : string;
  nodeInfo_product : string;
  nodeInfo_producttype : string;
  nodeInfo_productid : string;
  nodeInfo_type : string
}.

(** The fields of a node that the callbacks read or write, besides those
    of [ZWaveAdapter.ZWaveNode].  They are kept by the identity of the
    node, so that every holder of the node sees them.  [ready] and [named]
    are what [if (node.ready)] and [if (!node.named)] see. *)
Record NodeFields := {
  lastStatus : option string;
  ready : bool;
  named : bool;
  name : string;
  defaultName : option string;
  classes : JsObject (JsObject Value);
  values : JsObject Value;
  properties : JsObject Property;
  zwInfo : ZwInfo
}.

Definition set_lastStatus (s : string) (f : NodeFields) : NodeFields :=
  {| lastStatus := Some s; ready := ready f; named := named f; name := name f;
     defaultName := defaultName f; classes := classes f; values := values f;
     properties := properties f; zwInfo := zwInfo f |}.
Definition set_ready (b : bool) (f : NodeFields) : NodeFields :=
  {| lastStatus := lastStatus f; ready := b; named := named f; name := name f;
     defaultName := defaultName f; classes := classes f; values := values f;
     properties := properties f; zwInfo := zwInfo f |}.
Definition set_named (b : bool) (f : NodeFields) : NodeFields :=
  {| lastStatus := lastStatus f; ready := ready f; named := b; name := name f;
     defaultName := defaultName f; classes := classes f; values := values f;
     properties := properties f; zwInfo := zwInfo f |}.
Definition set_name (s : string) (f : NodeFields) : NodeFields :=
  {| lastStatus := lastStatus f; ready := ready f; named := named f; name := s;
     defaultName := defaultName f; classes := classes f; values := values f;
     properties := properties f; zwInfo := zwInfo f |}.
Definition set_defaultName (s : string) (f : NodeFields) : NodeFields :=
  {| lastStatus := lastStatus f; ready := ready f; named := named f; name := name f;
     defaultName := Some s; classes := classes f; values := values f;
     properties := properties f; zwInfo := zwInfo f |}.
Definition set_classes (o : JsObject (JsObject Value)) (f : NodeFields) : NodeFields :=
  {| lastStatus := lastStatus f; ready := ready f; named := named f; name := name f;
     defaultName := defaultName f; classes := o; values := values f;
     properties := properties f; zwInfo := zwInfo f |}.
Definition set_values (o : JsObject Value) (f : NodeFields) : NodeFields :=
  {| lastStatus := lastStatus f; ready := ready f; named := named f; name := name f;
     defaultName := defaultName f; classes := classes f; values := o;
     properties := properties f; zwInfo := zwInfo f |}.
Definition set_properties (o : JsObject Property) (f : NodeFields) : NodeFields :=
  {| lastStatus := lastStatus f; ready := ready f; named := named f; name := name f;
     defaultName := defaultName f; classes := classes f; values := values f;
     properties := o; zwInfo := zwInfo f |}.
Definition set_zwInfo (i : ZwInfo) (f : NodeFields) : NodeFields :=
  {| lastStatus := lastStatus f; ready := ready f; named := named f; name := name f;
     defaultName := defaultName f; classes := classes f; values := values f;
     properties := properties f; zwInfo := i |}.

(** The adapter with the manager behind it, the further fields of every
    node object, and the identity the next new node gets. *)
Record World := {
  adapter : ZWaveAdapter.World;
  fields : ObjRef → NodeFields;
  next_ref : ObjRef
}.

Definition M (A : Type) : Type := World → A * World.

#[global] Instance M_ret : MRet M := λ A a w, (a, w).
#[global] Instance M_bind : MBind M :=
  λ A B f m w, let '(a, w') := m w in f a w'.

Definition with_adapter (zw : ZWaveAdapter.World) (w : World) : World :=
  {| adapter := zw; fields := fields w; next_ref := next_ref w |}.

(** The world after an assignment to fields of the node. *)
Definition with_fields (node : ZWaveAdapter.ZWaveNode) (g : NodeFields → NodeFields)
    (w : World) : World :=
  {| adapter := adapter w;
     fields := λ r, if decide (r = ZWaveAdapter.node_ref node)
                    then g (fields w r) else fields w r;
     next_ref := next_ref w |}.

(** A method of the adapter that [ZWaveAdapter] models. *)
Definition on_adapter {A} (m : ZWaveAdapter.M A) : M A :=
  λ w, let '(a, zw) := m (adapter w) in (a, with_adapter zw w).

Definition read {A} (f : ZWaveAdapter.t → A) : M A :=
  λ w, (f (ZWaveAdapter.self (adapter w)), w).

Definition write (f : ZWaveAdapter.t → ZWaveAdapter.t) : M unit :=
  on_adapter (ZWaveAdapter.write f).

Definition tell (es : list Effect) : M unit :=
  on_adapter (ZWaveAdapter.tell es).

Definition console_log (args : list string) : M unit :=
  tell [ConsoleLog args].

Definition get (node : ZWaveAdapter.ZWaveNode) : M NodeFields :=
  λ w, (fields w (ZWaveAdapter.node_ref node), w).

Definition update (node : ZWaveAdapter.ZWaveNode) (g : NodeFields → NodeFields)
  : M unit :=
  λ w, (tt, with_fields node g w).

Fixpoint for_each {A} (l : list A) (body : A → M unit) : M unit :=
  match l with
  | [] => mret tt
  | x :: l' => body x ;; for_each l' body
  end.

Definition set_ready_of_adapter (b : bool) (z : ZWaveAdapter.t) : ZWaveAdapter.t :=
  {| ZWaveAdapter.base := ZWaveAdapter.base z;
     ZWaveAdapter.adapter_devices := ZWaveAdapter.adapter_devices z;
     ZWaveAdapter.ready := b;
     ZWaveAdapter.named := ZWaveAdapter.named z;
     ZWaveAdapter.port_comName := ZWaveAdapter.port_comName z;
     ZWaveAdapter.nodes := ZWaveAdapter.nodes z;
     ZWaveAdapter.nodesBeingAdded := ZWaveAdapter.nodesBeingAdded z |}.

Definition with_ref (r : ObjRef) (node : ZWaveAdapter.ZWaveNode)
  : ZWaveAdapter.ZWaveNode :=
  {| ZWaveAdapter.node_ref := r;
     ZWaveAdapter.node_device := ZWaveAdapter.node_device node;
     ZWaveAdapter.nodeId := ZWaveAdapter.nodeId node;
     ZWaveAdapter.zwInfo_nodeId := ZWaveAdapter.zwInfo_nodeId node |}.

(** [if (s)] on a text, and on a text that may be [undefined]. *)
Definition text_truthy (s : string) : bool :=
  if decide (s = "") then false else true.

Definition opt_truthy (s : option string) : bool :=
  match s with Some s => text_truthy s | None => false end.

(** [a === b] *)
Definition strict_eq (a b : JsValue) : bool :=
  match a, b with
  | JsNull, JsNull => true
  | JsBool x, JsBool y => bool_decide (x = y)
  | JsNumber x, JsNumber y => (x =? y)%Z
  | JsString x, JsString y => bool_decide (x = y)
  | _, _ => false
  end.

(** A value as [console.log] prints it for [%s], and a text that may
    be [undefined] in a concatenation. *)
Definition show_value (v : JsValue) : string :=
  match v with
  | JsNull => "null"
  | JsBool true => "true"
  | JsBool false => "false"
  | JsNumber n => pretty n
  | JsString s => s
  end.

Definition show_text (s : option string) : string :=
  match s with Some s => s | None => "undefined" end.

(** The double quote, for the texts written to the console. *)
Definition dquote : string := String (ascii_of_N 34) EmptyString.

Section Callbacks.

(** zwave-classifier.js and zwave-node.js are not among the sources.
    What the classifier makes of a node and of its further fields, what
    [new ZWaveNode(adapter, nodeId, '')] builds, and the texts of
    [ZWaveNode.oneLineHeader] and [node.oneLineSummary()] are
    parameters. *)
Variable classify : ZWaveAdapter.ZWaveNode → NodeFields
                    → ZWaveAdapter.ZWaveNode * NodeFields.
Variable new_ZWaveNode : Adapter → N → ZWaveAdapter.ZWaveNode * NodeFields.
Variable oneLineHeader : N → string.
Variable node_oneLineSummary : ZWaveAdapter.ZWaveNode → NodeFields → string.

(** The classifier works on the node it is given: the node keeps its
    identity. *)
Definition classified (f : NodeFields) (node : ZWaveAdapter.ZWaveNode)
  : ZWaveAdapter.ZWaveNode :=
  with_ref (ZWaveAdapter.node_ref node) (classify node f).1.

(** [handleDeviceAdded], with the further fields of the node shown to
    the classifier and left as the classifier leaves them. *)
Definition handleDeviceAdded (node : ZWaveAdapter.ZWaveNode) : M unit :=
  f ← get node;
  on_adapter (ZWaveAdapter.handleDeviceAdded (classified f) node) ;;
  if (1 <? ZWaveAdapter.nodeId node)%N
  then update node (λ _, (classify node f).2)
  else mret tt.

Definition oneLineSummary : M string :=
  id ← read (λ z, adapter_id (ZWaveAdapter.base z));
  comName ← read ZWaveAdapter.port_comName;
  mret ("Controller: " +:+ id +:+ " Path: " +:+ comName).

Definition dump : M unit :=
  summary ← oneLineSummary;
  console_log ["ZWave:"; summary] ;;
  console_log ["ZWave:"; oneLineHeader 0] ;;
  console_log ["ZWave:"; oneLineHeader 1] ;;
  nodes ← read ZWaveAdapter.nodes;
  for_each (obj_entries nodes)
    (λ kv, f ← get kv.2;
           console_log ["ZWave:"; node_oneLineSummary kv.2 f]) ;;
  console_log ["ZWave:"; "----"].

Definition controllerCommand (nodeId retVal state : N) (msg : string) : M unit :=
  console_log ["ZWave: Controller Command feedback: %s node%d retVal:%d state:%d";
               msg; pretty nodeId; pretty retVal; pretty state].

(** [for (var nodeId in this.nodesBeingAdded)] goes through the keys
    the object has when the loop starts and passes over a key that has
    been deleted by the time its turn comes. *)
Definition scanComplete : M unit :=
  pending ← read ZWaveAdapter.nodesBeingAdded;
  for_each (obj_keys pending)
    (λ nodeId,
       now ← read ZWaveAdapter.nodesBeingAdded;
       match obj_get nodeId now with
       | Some node => handleDeviceAdded node
       | None => mret tt
       end) ;;
  console_log ["ZWave: Scan complete"] ;;
  write (set_ready_of_adapter true) ;;
  tell [ZWaveDriverCall "requestAllConfigParams" ["3"]] ;;
  dump.

(** [new ZWaveNode(this, nodeId, '')]: a new object. *)
Definition new_node (nodeId : N) : M ZWaveAdapter.ZWaveNode :=
  λ w, let this := ZWaveAdapter.base (ZWaveAdapter.self (adapter w)) in
       let '(node, f) := new_ZWaveNode this nodeId in
       let r := next_ref w in
       (with_ref r node,
        {| adapter := adapter w;
           fields := λ r', if decide (r' = r) then f else fields w r';
           next_ref := S r |}).

Definition nodeAdded (nodeId : N) : M unit :=
  (if DEBUG then console_log ["ZWave: node%d added"; pretty nodeId] else mret tt) ;;
  node ← new_node nodeId;
  write (λ z, ZWaveAdapter.set_nodes
                (obj_set (pretty nodeId) node (ZWaveAdapter.nodes z)) z) ;;
  write (λ z, ZWaveAdapter.set_nodesBeingAdded
                (obj_set (pretty nodeId) node (ZWaveAdapter.nodesBeingAdded z)) z) ;;
  update node (set_lastStatus "added").

Definition named_zwInfo (nodeInfo : NodeInfo) : ZwInfo :=
  {| zwInfo_location := Some (nodeInfo_loc nodeInfo);
     zwInfo_manufacturer := Some (nodeInfo_manufacturer nodeInfo);
     zwInfo_manufacturerId := Some (nodeInfo_manufacturerid nodeInfo);
     zwInfo_product :=
       Some (if String.prefix "Unknown: " (nodeInfo_product nodeInfo)
             then nodeInfo_manufacturer nodeInfo +:+ " " +:+ nodeInfo_product nodeInfo
             else nodeInfo_product nodeInfo);
     zwInfo_productType := Some (nodeInfo_producttype nodeInfo);
     zwInfo_productId := Some (nodeInfo_productid nodeInfo);
     zwInfo_type := Some (nodeInfo_type nodeInfo) |}.

Definition nodeNaming (nodeId : N) (nodeInfo : NodeInfo) : M unit :=
  nodes ← read ZWaveAdapter.nodes;
  match obj_get (pretty nodeId) nodes with
  | Some node =>
      update node (set_lastStatus "named") ;;
      update node (set_zwInfo (named_zwInfo nodeInfo)) ;;
      update node (λ f,
        if text_truthy (nodeInfo_name nodeInfo) then set_name (nodeInfo_name nodeInfo) f
        else if opt_truthy (defaultName f) then set_name (show_text (defaultName f)) f
        else if (1 <? nodeId)%N
             then set_name (device_id (ZWaveAdapter.node_device node)) f
        else f) ;;
      f ← get node;
      (if DEBUG || negb (named f) then
         console_log
           ["ZWave: node%d: Named"; pretty nodeId;
            if opt_truthy (zwInfo_manufacturer (zwInfo f))
            then show_text (zwInfo_manufacturer (zwInfo f))
            else "id=" +:+ show_text (zwInfo_manufacturerId (zwInfo f));
            if opt_truthy (zwInfo_product (zwInfo f))
            then show_text (zwInfo_product (zwInfo f))
            else "product=" +:+ show_text (zwInfo_productId (zwInfo f))
                 +:+ ", type=" +:+ show_text (zwInfo_productType (zwInfo f))] ;;
         console_log
           ["ZWave: node%d: name=" +:+ dquote +:+ "%s" +:+ dquote +:+ ", type="
              +:+ dquote +:+ "%s" +:+ dquote +:+ ", location="
              +:+ dquote +:+ "%s" +:+ dquote;
            pretty (ZWaveAdapter.zwInfo_nodeId node); name f;
            show_text (zwInfo_type (zwInfo f));
            show_text (zwInfo_location (zwInfo f))]
       else mret tt) ;;
      update node (set_named true) ;;
      if DEBUG then
        for_each (obj_entries (classes f))
          (λ kv,
             console_log ["ZWave: node%d: class %d"; pretty nodeId; kv.1] ;;
             for_each (obj_entries kv.2)
               (λ iv, console_log ["ZWave: node%d:   %s=%s"; pretty nodeId;
                                   value_label iv.2; show_value (value_value iv.2)]))
      else mret tt
  | None => mret tt
  end.

Definition nodeRemoved (nodeId : N) : M unit :=
  (if DEBUG then console_log ["ZWave: node%d removed"; pretty nodeId] else mret tt) ;;
  nodes ← read ZWaveAdapter.nodes;
  match obj_get (pretty nodeId) nodes with
  | Some node =>
      update node (set_lastStatus "removed") ;;
      on_adapter (ZWaveAdapter.handleDeviceRemoved node)
  | None => mret tt
  end.

Definition nodeEvent (nodeId data : N) : M unit :=
  console_log ["ZWave: node%d event: Basic set %d"; pretty nodeId; pretty data].

(** In [switch (comClass)] the key of [node.classes] is compared with
    [===] to the numbers 0x25 and 0x26. *)
Definition nodeReady (nodeId : N) : M unit :=
  nodes ← read ZWaveAdapter.nodes;
  match obj_get (pretty nodeId) nodes with
  | Some node =>
      update node (set_lastStatus "ready") ;;
      update node (set_ready true) ;;
      f ← get node;
      for_each (obj_keys (classes f))
        (λ comClass,
           if strict_eq (JsString comClass) (JsNumber 37)
              || strict_eq (JsString comClass) (JsNumber 38)
           then tell [ZWaveDriverCall "enablePoll" [pretty nodeId; comClass]]
           else mret tt) ;;
      pending ← read ZWaveAdapter.nodesBeingAdded;
      if obj_has (pretty nodeId) pending then handleDeviceAdded node else mret tt
  | None => mret tt
  end.

Definition nodeNotification (nodeId notif : N) : M unit :=
  nodes ← read ZWaveAdapter.nodes;
  lastStatus ←
    match notif with
    | 0%N => console_log ["ZWave: node%d: message complete"; pretty nodeId] ;;
             mret (Some "msgCmplt")
    | 1%N => console_log ["ZWave: node%d: timeout"; pretty nodeId] ;;
             mret (Some "timeout")
    | 2%N => (if DEBUG then console_log ["ZWave: node%d: nop"; pretty nodeId]
              else mret tt) ;;
             mret (Some "nop")
    | 3%N => console_log ["ZWave: node%d: node awake"; pretty nodeId] ;;
             mret (Some "awake")
    | 4%N => console_log ["ZWave: node%d: node sleep"; pretty nodeId] ;;
             mret (Some "sleeping")
    | 5%N => console_log ["ZWave: node%d: node dead"; pretty nodeId] ;;
             mret (Some "dead")
    | 6%N => console_log ["ZWave: node%d: node alive"; pretty nodeId] ;;
             mret (Some "alive")
    | _ => mret None
    end;
  match obj_get (pretty nodeId) nodes, lastStatus with
  | Some node, Some lastStatus => update node (set_lastStatus lastStatus)
  | _, _ => mret tt
  end.

Definition property_of (v : Value) : Property :=
  {| property_id := value_id v; property_name := value_label v;
     property_type := value_type v; property_value := value_value v;
     property_zwValue := v |}.

(** [node.classes[comClass][index] = value] on a class that is there. *)
Definition set_class_value (comClass : string) (v : Value) (f : NodeFields)
  : NodeFields :=
  match obj_get comClass (classes f) with
  | Some vs =>
      set_classes (obj_set comClass (obj_set (pretty (value_index v)) v vs)
                     (classes f)) f
  | None => f
  end.

Definition valueAdded (nodeId comClass : N) (v : Value) : M unit :=
  (if bool_decide (value_genre v = "user") || DEBUG then
     console_log ["ZWave: node%d valueAdded: %d:%s -> %s"; pretty nodeId;
                  pretty comClass; value_label v; show_value (value_value v)]
   else mret tt) ;;
  nodes ← read ZWaveAdapter.nodes;
  match obj_get (pretty nodeId) nodes with
  | Some node =>
      update node (set_lastStatus "added") ;;
      update node (λ f, if obj_has (pretty comClass) (classes f) then f
                        else set_classes (obj_set (pretty comClass) [] (classes f)) f) ;;
      update node (set_class_value (pretty comClass) v) ;;
      update node (λ f, set_values (obj_set (value_id v) v (values f)) f) ;;
      if bool_decide (value_genre v = "user") then
        update node
          (λ f, set_properties (obj_set (value_id v) (property_of v) (properties f)) f) ;;
        id ← read (λ z, adapter_id (ZWaveAdapter.base z));
        update node
          (λ f, if opt_truthy (defaultName f) then f
                else set_defaultName
                       (id +:+ "-" +:+ pretty nodeId +:+ "-" +:+ value_label v) f)
      else mret tt
  | None => mret tt
  end.

(** [valueChanged] throws when the node has no values of the class. *)
Definition valueChanged (nodeId comClass : N) (v : Value)
  : M ZWaveLoader.Completion :=
  nodes ← read ZWaveAdapter.nodes;
  match obj_get (pretty nodeId) nodes with
  | Some node =>
      f ← get node;
      if ready f then
        console_log ["ZWave: node%d valueChanged: %d:%s -> %s"; pretty nodeId;
                     pretty comClass; value_label v; show_value (value_value v)] ;;
        if obj_has (pretty comClass) (classes f) then
          update node (set_class_value (pretty comClass) v) ;;
          update node
            (λ f, match obj_get (value_id v) (properties f) with
                  | Some p =>
                      set_properties
                        (obj_set (value_id v)
                           {| property_id := property_id p;
                              property_name := property_name p;
                              property_type := property_type p;
                              property_value := value_value v;
                              property_zwValue := v |}
                           (properties f)) f
                  | None => f
                  end) ;;
          mret ZWaveLoader.Returned
        else
          mret (ZWaveLoader.Threw "TypeError: cannot set a property of undefined")
      else mret ZWaveLoader.Returned
  | None => mret ZWaveLoader.Returned
  end.

Definition valueRemoved (nodeId comClass value_index : N) : M unit :=
  console_log ["ZWave: node%d valueRemoved: %d"; pretty nodeId; pretty comClass] ;;
  nodes ← read ZWaveAdapter.nodes;
  match obj_get (pretty nodeId) nodes with
  | Some node =>
      f ← get node;
      match obj_get (pretty comClass) (classes f) with
      | Some vs =>
          match obj_get (pretty value_index) vs with
          | Some v =>
              let valueId := value_id v in
              update node
                (λ f, set_classes
                        (obj_set (pretty comClass)
                           (obj_delete (pretty value_index) vs) (classes f)) f) ;;
              update node (λ f, set_values (obj_delete valueId (values f)) f) ;;
              update node (λ f, set_properties (obj_delete valueId (properties f)) f)
          | None => mret tt
          end
      | None => mret tt
      end
  | None => mret tt
  end.

(** What the driver and the manager call on the adapter: the callbacks
    the constructor registers with the driver, and the four pairing
    methods. *)
Inductive Callback :=
| ControllerCommand (nodeId retVal state : N) (msg : string)
| DriverReady (homeId : N)
| DriverFailed
| ScanComplete
| NodeAdded (nodeId : N)
| NodeNaming (nodeId : N) (nodeInfo : NodeInfo)
| NodeRemoved (nodeId : N)
| NodeEvent (nodeId data : N)
| NodeReady (nodeId : N)
| Notification (nodeId notif : N)
| ValueAdded (nodeId comClass : N) (v : Value)
| ValueChanged (nodeId comClass : N) (v : Value)
| ValueRemoved (nodeId comClass value_index : N)
| StartPairing
| CancelPairing
| StartUnpairing
| CancelUnpairing.

Definition dispatch (c : Callback) : M unit :=
  match c with
  | ControllerCommand nodeId retVal state msg =>
      controllerCommand nodeId retVal state msg
  | DriverReady homeId => on_adapter (ZWaveAdapter.driverReady homeId)
  | DriverFailed => on_adapter ZWaveAdapter.driverFailed
  | ScanComplete => scanComplete
  | NodeAdded nodeId => nodeAdded nodeId
  | NodeNaming nodeId nodeInfo => nodeNaming nodeId nodeInfo
  | NodeRemoved nodeId => nodeRemoved nodeId
  | NodeEvent nodeId data => nodeEvent nodeId data
  | NodeReady nodeId => nodeReady nodeId
  | Notification nodeId notif => nodeNotification nodeId notif
  | ValueAdded nodeId comClass v => valueAdded nodeId comClass v
  | ValueChanged nodeId comClass v => valueChanged nodeId comClass v ;; mret tt
  | ValueRemoved nodeId comClass value_index =>
      valueRemoved nodeId comClass value_index
  | StartPairing => on_adapter ZWaveAdapter.startPairing
  | CancelPairing => on_adapter ZWaveAdapter.cancelPairing
  | StartUnpairing => on_adapter ZWaveAdapter.startUnpairing
  | CancelUnpairing => on_adapter ZWaveAdapter.cancelUnpairing
  end.

Definition run (cs : list Callback) (w : World) : World :=
  fold_left (λ w c, (dispatch c w).2) cs w.

End Callbacks.

(** A newly built adapter, with no node yet. *)
Definition construct (ref : ObjRef) (comName : string) (mw : AdapterManager.World)
    (fields0 : ObjRef → NodeFields) (next : ObjRef) : World :=
  {| adapter := ZWaveAdapter.construct ref comName mw;
     fields := fields0; next_ref := next |}.

End ZWaveNodes.

(** ** Vocabulary of the statements *)

Import AdapterManager.

#[local] Arguments for_in_adapters : simpl never.

(** An adapter is registered when a key of [this.adapters] holds it. *)
Definition registered (a : Adapter) (w : World) : Prop :=
  ∃ k, obj_get k (adapters (this w)) = Some a.

(** A key the object does not own. *)
Definition absent {V} (k : string) (o : JsObject V) : Prop := k ∉ o.*1.

(** What a loop over the registered adapters leaves in the trace when its
    body leaves [f adapter]. *)
Definition fan_out (f : Adapter → list Effect) (w : World) : list Effect :=
  flat_map (λ kv, f kv.2) (obj_entries (adapters (this w))).

(** The calls to [method] that reach every registered adapter but the one
    that owns [device]. *)
Definition to_others (method : AdapterMethod) (device : Device) (w : World)
  : list Effect :=
  fan_out (λ a, if decide (adapter_ref a ≠ device_adapter device)
                then [AdapterCall a method] else []) w.

Definition session_active (w : World) : Prop :=
  deferredAdd (this w) ≠ None ∨ deferredRemove (this w) ≠ None.

Definition at_most_one_session (w : World) : Prop :=
  deferredAdd (this w) = None ∨ deferredRemove (this w) = None.

(** The reasons with which a request is turned down because an operation
    is in progress. *)
Definition OperationInProgress (reason : string) : Prop :=
  reason = "Add already in progress" ∨ reason = "Remove already in progress".

(** The reason [addNewThing] and [removeSomeThing] give when turned down. *)
Definition busy_reason (w : World) : string :=
  if truthy (deferredAdd (this w)) then "Add already in progress"
  else "Remove already in progress".

(** The calls the outside makes on the manager. *)
Inductive Call :=
| AddAdapter (adapter : Adapter)
| AddNewThing
| CancelAddNewThing
| CancelRemoveSomeThing
| SetProperty (thingId propertyName : string) (value : JsValue)
| HandleDeviceAdded (device : Device)
| HandleDeviceRemoved (device : Device)
| RemoveSomeThing
| UnloadAdapters.

Definition exec (c : Call) : M unit :=
  match c with
  | AddAdapter adapter => addAdapter adapter
  | AddNewThing => addNewThing ;; mret tt
  | CancelAddNewThing => cancelAddNewThing
  | CancelRemoveSomeThing => cancelRemoveSomeThing
  | SetProperty thingId propertyName value => setProperty thingId propertyName value
  | HandleDeviceAdded device => handleDeviceAdded device
  | HandleDeviceRemoved device => handleDeviceRemoved device
  | RemoveSomeThing => removeSomeThing ;; mret tt
  | UnloadAdapters => unloadAdapters
  end.

Definition run (calls : list Call) (w : World) : World :=
  fold_left (λ w c, (exec c w).2) calls w.

(** The effects a step from [w] to [w'] has added to the trace. *)
Definition effects_since (w w' : World) : list Effect :=
  drop (List.length (trace w)) (trace w').

(** Whether an effect settles the promise of [d]. *)
Definition settles (d : Deferred) (e : Effect) : bool :=
  match e with
  | DeferredResolve d' _ => bool_decide (d' = d)
  | DeferredReject d' _ => bool_decide (d' = d)
  | _ => false
  end.

Definition settle_count (d : Deferred) (es : list Effect) : nat :=
  List.length (List.filter (settles d) es).

(** What holds of every world the calls can produce. *)
Record consistent (w : World) : Prop := {
  one_session : at_most_one_session w;
  add_pending : ∀ d, deferredAdd (this w) = Some d →
                     promises w !! promise d = Some Pending;
  remove_pending : ∀ d, deferredRemove (this w) = Some d →
                        promises w !! promise d = Some Pending;
  pending_unsettled : ∀ d, promises w !! promise d = Some Pending →
                           settle_count d (trace w) = 0;
  fresh_unsettled : ∀ d, (List.length (promises w) ≤ promise d)%nat →
                         settle_count d (trace w) = 0;
  settled_once : ∀ d, (settle_count d (trace w) ≤ 1)%nat
}.

(** ** Further vocabulary *)

(** No pairing session is open. *)
Definition idle (w : World) : Prop :=
  deferredAdd (this w) = None ∧ deferredRemove (this w) = None.

#[global] Instance AdapterMethod_eq_dec : EqDecision AdapterMethod.
Proof. solve_decision. Defined.

(** The adapters on which [method] is called, in the order of the calls. *)
Definition calls_of (method : AdapterMethod) (es : list Effect) : list Adapter :=
  omap (λ e, match e with
             | AdapterCall a m => if decide (m = method) then Some a else None
             | _ => None
             end) es.

(** The adapters [for ... in] visits, in visiting order. *)
Definition visited (w : World) : list Adapter :=
  (obj_entries (adapters (this w))).*2.

(** The nodes the Z-Wave adapter knows, those it has yet to announce,
    the manager behind the adapter, and the further fields of a node. *)
Definition known_nodes (w : ZWaveNodes.World) : JsObject ZWaveAdapter.ZWaveNode :=
  ZWaveAdapter.nodes (ZWaveAdapter.self (ZWaveNodes.adapter w)).

Definition pending_nodes (w : ZWaveNodes.World) : JsObject ZWaveAdapter.ZWaveNode :=
  ZWaveAdapter.nodesBeingAdded (ZWaveAdapter.self (ZWaveNodes.adapter w)).

Definition manager_of (w : ZWaveNodes.World) : World :=
  ZWaveAdapter.manager (ZWaveNodes.adapter w).

Definition fields_of (w : ZWaveNodes.World) (node : ZWaveAdapter.ZWaveNode)
  : ZWaveNodes.NodeFields :=
  ZWaveNodes.fields w (ZWaveAdapter.node_ref node).

(** The constructor of nodes records the id it is given, as [nodeId]
    and as [zwInfo.nodeId]. *)
Definition records_id
    (new_ZWaveNode : Adapter → N → ZWaveAdapter.ZWaveNode * ZWaveNodes.NodeFields)
  : Prop :=
  ∀ a n, ZWaveAdapter.nodeId (new_ZWaveNode a n).1 = n
         ∧ ZWaveAdapter.zwInfo_nodeId (new_ZWaveNode a n).1 = n.

(** The books of the adapter are in order: a node yet to be announced is
    a known node, filed under its own id; no two keys hold the same node
    object, and the objects are older than the next one. *)
Record nodes_in_order (w : ZWaveNodes.World) : Prop := {
  pending_known :
    ∀ k node, obj_get k (pending_nodes w) = Some node →
              obj_get k (known_nodes w) = Some node;
  pending_keyed :
    ∀ k node, obj_get k (pending_nodes w) = Some node →
              k = pretty (ZWaveAdapter.zwInfo_nodeId node);
  refs_allocated :
    ∀ k node, obj_get k (known_nodes w) = Some node →
              ZWaveAdapter.node_ref node < ZWaveNodes.next_ref w;
  refs_distinct :
    ∀ k1 k2 n1 n2,
      obj_get k1 (known_nodes w) = Some n1 → obj_get k2 (known_nodes w) = Some n2 →
      ZWaveAdapter.node_ref n1 = ZWaveAdapter.node_ref n2 → k1 = k2
}.

(** A step that leaves the books of the nodes as they are. *)
Definition same_nodes (w w' : ZWaveNodes.World) : Prop :=
  known_nodes w' = known_nodes w ∧ pending_nodes w' = pending_nodes w
  ∧ ZWaveNodes.next_ref w' = ZWaveNodes.next_ref w.

(** The world after the effects [es] have been added to the trace. *)
Definition told (es : list Effect) (w : ZWaveNodes.World) : ZWaveNodes.World :=
  (ZWaveNodes.tell es w).2.

(** A method that leaves the books of the nodes as they are. *)
Definition keeps_books {A} (m : ZWaveNodes.M A) : Prop :=
  ∀ w, same_nodes w (m w).2.

(** The body of the loop of [scanComplete]. *)
Definition announce_waiting
    (classify : ZWaveAdapter.ZWaveNode → ZWaveNodes.NodeFields
                → ZWaveAdapter.ZWaveNode * ZWaveNodes.NodeFields)
    (nodeId : string) : ZWaveNodes.M unit :=
  now ← ZWaveNodes.read ZWaveAdapter.nodesBeingAdded;
  match obj_get nodeId now with
  | Some node => ZWaveNodes.handleDeviceAdded classify node
  | None => mret tt
  end.

(** A method that only writes lines to the console. *)
Definition logs_only {A} (m : ZWaveNodes.M A) : Prop :=
  ∀ w, ∃ es, (m w).2 = told es w ∧ ∀ e, e ∈ es → ∃ l, e = ConsoleLog l.

(** Sample objects for the examples: fields with nothing set, a
    constructor of nodes that records the id and names the device after
    the adapter and the id, a classifier that leaves the node as it is,
    and texts for the dump. *)
Definition plain_fields : ZWaveNodes.NodeFields :=
  {| ZWaveNodes.lastStatus := None; ZWaveNodes.ready := false;
     ZWaveNodes.named := false; ZWaveNodes.name := EmptyString;
     ZWaveNodes.defaultName := None; ZWaveNodes.classes := [];
     ZWaveNodes.values := []; ZWaveNodes.properties := [];
     ZWaveNodes.zwInfo :=
       {| ZWaveNodes.zwInfo_location := None; ZWaveNodes.zwInfo_manufacturer := None;
          ZWaveNodes.zwInfo_manufacturerId := None; ZWaveNodes.zwInfo_product := None;
          ZWaveNodes.zwInfo_productType := None; ZWaveNodes.zwInfo_productId := None;
          ZWaveNodes.zwInfo_type := None |} |}.

Definition plain_node (a : Adapter) (n : N)
  : ZWaveAdapter.ZWaveNode * ZWaveNodes.NodeFields :=
  ({| ZWaveAdapter.node_ref := 0;
      ZWaveAdapter.node_device :=
        {| device_id := adapter_id a +:+ "-" +:+ pretty n;
           device_adapter := adapter_ref a;
           device_thing := {| thing_id := adapter_id a +:+ "-" +:+ pretty n;
                              thing_name := EmptyString |};
           device_properties := [] |};
      ZWaveAdapter.nodeId := n; ZWaveAdapter.zwInfo_nodeId := n |},
   plain_fields).

Definition keep_node (node : ZWaveAdapter.ZWaveNode) (f : ZWaveNodes.NodeFields)
  : ZWaveAdapter.ZWaveNode * ZWaveNodes.NodeFields :=
  (node, f).

Definition header_text (n : N) : string := "header " +:+ pretty n.

Definition summary_text (node : ZWaveAdapter.ZWaveNode) (f : ZWaveNodes.NodeFields)
  : string :=
  "node " +:+ pretty (ZWaveAdapter.nodeId node).

(** A stick on its port, driver ready, with the callbacks [cs] after. *)
Definition stick (cs : list ZWaveNodes.Callback) : ZWaveNodes.World :=
  ZWaveNodes.run keep_node plain_node header_text summary_text
    (ZWaveNodes.DriverReady 3405691582 :: cs)
    (ZWaveNodes.construct 7 "/dev/ttyACM0" AdapterManager.initial (λ _, plain_fields) 0).

(** A user value of the binary switch class. *)
Definition switch_value (on : bool) : ZWaveNodes.Value :=
  {| ZWaveNodes.value_id := "2-37-1-0"; ZWaveNodes.value_genre := "user";
     ZWaveNodes.value_label := "Switch"; ZWaveNodes.value_type := "bool";
     ZWaveNodes.value_value := JsBool on; ZWaveNodes.value_index := 0 |}.

(** [Number.isSafeInteger(n)]: the whole numbers that a JS number
    holds exactly, and prints digit by digit. *)
Definition safe_integer (n : Z) : Prop := (Z.abs n ≤ 9007199254740991)%Z.

(** A power that [show_number] prints as JS does. *)
Definition safe_reading (power : option Z) : Prop :=
  match power with
  | Some n => safe_integer n
  | None => True
  end.

(** A method that leaves the adapter's base fields and the registry of
    adapters as they are. *)
Definition keeps_registry {A} (m : ZWaveNodes.M A) : Prop :=
  ∀ w, ZWaveAdapter.base (ZWaveAdapter.self (ZWaveNodes.adapter (m w).2))
       = ZWaveAdapter.base (ZWaveAdapter.self (ZWaveNodes.adapter w))
       ∧ adapters (this (manager_of (m w).2)) = adapters (this (manager_of w)).

(** * Properties *)

(** ** Dictionaries *)

Lemma obj_get_set_eq {V} (k : string) (v : V) (o : JsObject V) :
  obj_get k (obj_set k v o) = Some v.
Proof.
  induction o as [|[k' v'] o IH]; simpl.
  - by rewrite decide_True.
  - destruct (decide (k' = k)) as [->|Hne]; simpl.
    + by rewrite decide_True.
    + by rewrite decide_False.
Qed.

Lemma obj_get_set_ne {V} (k k' : string) (v : V) (o : JsObject V) :
  k ≠ k' → obj_get k' (obj_set k v o) = obj_get k' o.
Proof.
  intros Hne. induction o as [|[k0 v0] o IH]; simpl.
  - by rewrite decide_False.
  - destruct (decide (k0 = k)) as [->|Hne0]; simpl.
    + by rewrite !decide_False.
    + destruct (decide (k0 = k')); [done | apply IH].
Qed.

Lemma obj_get_delete_eq {V} (k : string) (o : JsObject V) :
  obj_get k (obj_delete k o) = None.
Proof.
  induction o as [|[k' v'] o IH]; simpl; [done|].
  destruct (decide (k' = k)); simpl; [done|]. by rewrite decide_False.
Qed.

Lemma obj_get_delete_ne {V} (k k' : string) (o : JsObject V) :
  k ≠ k' → obj_get k' (obj_delete k o) = obj_get k' o.
Proof.
  intros Hne. induction o as [|[k0 v0] o IH]; simpl; [done|].
  destruct (decide (k0 = k)) as [->|Hne0]; simpl.
  - by rewrite decide_False.
  - destruct (decide (k0 = k')); [done | apply IH].
Qed.

Lemma obj_get_Some_key {V} (k : string) (v : V) (o : JsObject V) :
  obj_get k o = Some v → k ∈ o.*1.
Proof.
  induction o as [|[k' v'] o IH]; simpl; [done|].
  destruct (decide (k' = k)) as [->|]; intros H.
  - apply list_elem_of_here.
  - apply list_elem_of_further, IH, H.
Qed.

Lemma obj_get_key_Some {V} (k : string) (o : JsObject V) :
  k ∈ o.*1 → is_Some (obj_get k o).
Proof.
  induction o as [|[k' v'] o IH]; simpl.
  - intros H. by apply elem_of_nil in H.
  - intros H. destruct (decide (k' = k)); [by eexists|].
    apply elem_of_cons in H as [H|H]; [congruence | by apply IH].
Qed.

Lemma keys_split_perm (ks : list string) :
  (indexed_keys ks).*2 ++ named_keys ks ≡ₚ ks.
Proof.
  induction ks as [|k ks IH]; [done|].
  unfold indexed_keys, named_keys in *. simpl.
  destruct (array_index k); simpl.
  - by f_equiv.
  - rewrite <- Permutation_middle. by f_equiv.
Qed.

(** [for ... in] visits every key of the object, each as often as the
    object holds it. *)
Lemma obj_keys_perm {V} (o : JsObject V) : obj_keys o ≡ₚ o.*1.
Proof.
  unfold obj_keys. rewrite merge_sort_Permutation. apply keys_split_perm.
Qed.

(** Array-index keys come first, in numeric order; the other keys follow
    in creation order. *)
Example for_in_order :
  obj_keys [("b", 1); ("10", 2); ("a", 3); ("2", 4); ("02", 5)]
  = ["2"; "10"; "b"; "a"; "02"].
Proof. vm_compute. reflexivity. Qed.

(** The loop body sees exactly the pairs [(k, o[k])]. *)
Lemma elem_of_obj_entries {V} (k : string) (v : V) (o : JsObject V) :
  (k, v) ∈ obj_entries o ↔ obj_get k o = Some v.
Proof.
  unfold obj_entries. rewrite list_elem_of_omap. split.
  - intros (k' & _ & Hk'). destruct (obj_get k' o) eqn:E; simplify_eq/=. done.
  - intros H. exists k. split.
    + rewrite obj_keys_perm. by eapply obj_get_Some_key.
    + by rewrite H.
Qed.

(** ** Loops over the adapters *)

Lemma for_each_tell {A} (f : A → list Effect) (body : A → M unit) (l : list A) w :
  (∀ x w, body x w = tell (f x) w) →
  for_each l body w = tell (flat_map f l) w.
Proof.
  intros Hbody. revert w. induction l as [|x l IH]; intros w; simpl.
  - unfold tell, mret, M_ret. by rewrite app_nil_r; destruct w.
  - unfold mbind, M_bind. rewrite Hbody. unfold tell at 1. rewrite IH.
    unfold tell. simpl. by rewrite app_assoc.
Qed.

Lemma for_in_adapters_tell (f : Adapter → list Effect)
    (body : string → Adapter → M unit) w :
  (∀ k a w, body k a w = tell (f a) w) →
  for_in_adapters body w = tell (fan_out f w) w.
Proof.
  intros Hbody. unfold for_in_adapters, fan_out, mbind, M_bind, read.
  apply for_each_tell. intros [k a] w'. apply Hbody.
Qed.

Lemma elem_of_fan_out (f : Adapter → list Effect) (w : World) (e : Effect) :
  e ∈ fan_out f w ↔ ∃ a, registered a w ∧ e ∈ f a.
Proof.
  unfold fan_out, registered. rewrite list_elem_of_In, in_flat_map. split.
  - intros ([k a] & Hin & He). exists a. split.
    + exists k. by apply elem_of_obj_entries, list_elem_of_In.
    + by apply list_elem_of_In.
  - intros (a & [k Hk] & He). exists (k, a). split.
    + by apply list_elem_of_In, elem_of_obj_entries.
    + by apply list_elem_of_In.
Qed.

Lemma elem_of_to_others (method : AdapterMethod) (device : Device) (w : World)
    (e : Effect) :
  e ∈ to_others method device w ↔
  ∃ a, registered a w ∧ adapter_ref a ≠ device_adapter device
       ∧ e = AdapterCall a method.
Proof.
  unfold to_others. rewrite elem_of_fan_out. split.
  - intros (a & Hreg & He). exists a. case_decide.
    + apply list_elem_of_singleton in He. done.
    + by apply elem_of_nil in He.
  - intros (a & Hreg & Hne & ->). exists a. split; [done|].
    rewrite decide_True by done. apply list_elem_of_singleton. done.
Qed.

Lemma settle_count_fan_out (d : Deferred) (f : Adapter → list Effect) (w : World) :
  (∀ a, settle_count d (f a) = 0) → settle_count d (fan_out f w) = 0.
Proof.
  intros Hf. unfold fan_out. induction (obj_entries (adapters (this w))) as [|kv l IH].
  - done.
  - simpl. unfold settle_count in *. rewrite List.filter_app, length_app, Hf, IH. done.
Qed.

(** ** What each method of the manager does to the world *)

Ltac unfold_M :=
  unfold mbind, mret, M_bind, M_ret, read, write, emit, console_log, call,
    new_Deferred, Deferred_resolve, Deferred_reject.

Ltac loop_body :=
  let w := fresh "w" in
  intros ? ? w; unfold_M; unfold tell; simpl;
  try case_decide; simpl; rewrite <- ?app_assoc, ?app_nil_r;
  try reflexivity; by destruct w.

Lemma settle_fresh (s : Settlement) (ps : list Settlement) :
  settle (List.length ps) s (ps ++ [Pending]) = ps ++ [s].
Proof.
  unfold settle. rewrite lookup_app_r by lia. rewrite Nat.sub_diag. simpl.
  rewrite insert_app_r_alt by lia. by rewrite Nat.sub_diag.
Qed.

Lemma settle_pending (p : nat) (s : Settlement) (ps : list Settlement) :
  ps !! p = Some Pending → settle p s ps !! p = Some s.
Proof.
  intros H. unfold settle. rewrite H. apply list_lookup_insert_eq.
  by eapply lookup_lt_Some.
Qed.

Lemma settle_other (p q : nat) (s : Settlement) (ps : list Settlement) :
  p ≠ q → settle p s ps !! q = ps !! q.
Proof.
  intros H. unfold settle. destruct (ps !! p) as [[]|]; try done.
  by apply list_lookup_insert_ne.
Qed.

Lemma settle_length (p : nat) (s : Settlement) (ps : list Settlement) :
  List.length (settle p s ps) = List.length ps.
Proof.
  unfold settle. destruct (ps !! p) as [[]|]; try done. apply length_insert.
Qed.

Lemma addAdapter_exec (adapter : Adapter) (w : World) :
  addAdapter adapter w =
    (tt, {| this := set_adapters
                      (obj_set (adapter_id adapter)
                         (with_name adapter (adapter_constructor_name adapter))
                         (adapters (this w))) (this w);
            promises := promises w;
            trace := trace w ++
              [Emit "adapter-added"
                 (OfAdapter (with_name adapter (adapter_constructor_name adapter)))] |}).
Proof. reflexivity. Qed.

Lemma addNewThing_idle (w : World) :
  deferredAdd (this w) = None → deferredRemove (this w) = None →
  addNewThing w =
    (List.length (promises w),
     {| this := set_deferredAdd (Some {| promise := List.length (promises w) |}) (this w);
        promises := promises w ++ [Pending];
        trace := trace w ++
          fan_out (λ a, [ConsoleLog ["About to call startPairing on"; adapter_name a];
                         AdapterCall a startPairing]) w |}).
Proof.
  intros Ha Hr. unfold addNewThing. unfold_M. simpl. rewrite Ha, Hr. simpl.
  rewrite (for_in_adapters_tell
             (λ a, [ConsoleLog ["About to call startPairing on"; adapter_name a];
                    AdapterCall a startPairing])) by loop_body.
  reflexivity.
Qed.

Lemma addNewThing_busy (w : World) :
  session_active w →
  addNewThing w =
    (List.length (promises w),
     {| this := this w;
        promises := promises w ++ [Rejected (busy_reason w)];
        trace := trace w ++
          [DeferredReject {| promise := List.length (promises w) |} (busy_reason w)] |}).
Proof.
  intros Hbusy. unfold addNewThing, busy_reason. unfold_M. simpl.
  destruct (deferredAdd (this w)) eqn:Ha; simpl.
  - by rewrite settle_fresh.
  - destruct (deferredRemove (this w)) eqn:Hr; simpl.
    + by rewrite settle_fresh.
    + destruct Hbusy; congruence.
Qed.

Lemma removeSomeThing_idle (w : World) :
  deferredAdd (this w) = None → deferredRemove (this w) = None →
  removeSomeThing w =
    (List.length (promises w),
     {| this := set_deferredRemove (Some {| promise := List.length (promises w) |}) (this w);
        promises := promises w ++ [Pending];
        trace := trace w ++ fan_out (λ a, [AdapterCall a startUnpairing]) w |}).
Proof.
  intros Ha Hr. unfold removeSomeThing. unfold_M. simpl. rewrite Ha, Hr. simpl.
  rewrite (for_in_adapters_tell (λ a, [AdapterCall a startUnpairing])) by loop_body.
  reflexivity.
Qed.

Lemma removeSomeThing_busy (w : World) :
  session_active w →
  removeSomeThing w =
    (List.length (promises w),
     {| this := this w;
        promises := promises w ++ [Rejected (busy_reason w)];
        trace := trace w ++
          [DeferredReject {| promise := List.length (promises w) |} (busy_reason w)] |}).
Proof.
  intros Hbusy. unfold removeSomeThing, busy_reason. unfold_M. simpl.
  destruct (deferredAdd (this w)) eqn:Ha; simpl.
  - by rewrite settle_fresh.
  - destruct (deferredRemove (this w)) eqn:Hr; simpl.
    + by rewrite settle_fresh.
    + destruct Hbusy; congruence.
Qed.

Lemma cancelAddNewThing_idle (w : World) :
  deferredAdd (this w) = None → cancelAddNewThing w = (tt, w).
Proof.
  intros Ha. unfold cancelAddNewThing. unfold_M. by rewrite Ha.
Qed.

Lemma cancelAddNewThing_active (w : World) (d : Deferred) :
  deferredAdd (this w) = Some d →
  cancelAddNewThing w =
    (tt, {| this := set_deferredAdd None (this w);
            promises := settle (promise d) (Rejected "addNewThing cancelled") (promises w);
            trace := trace w ++ fan_out (λ a, [AdapterCall a cancelPairing]) w
                       ++ [DeferredReject d "addNewThing cancelled"] |}).
Proof.
  intros Ha. unfold cancelAddNewThing. unfold_M. rewrite Ha.
  rewrite (for_in_adapters_tell (λ a, [AdapterCall a cancelPairing])) by loop_body.
  unfold tell. simpl. by rewrite <- app_assoc.
Qed.

Lemma cancelRemoveSomeThing_idle (w : World) :
  deferredRemove (this w) = None → cancelRemoveSomeThing w = (tt, w).
Proof.
  intros Hr. unfold cancelRemoveSomeThing. unfold_M. by rewrite Hr.
Qed.

Lemma cancelRemoveSomeThing_active (w : World) (d : Deferred) :
  deferredRemove (this w) = Some d →
  cancelRemoveSomeThing w =
    (tt, {| this := set_deferredRemove None (this w);
            promises := settle (promise d) (Rejected "removeSomeThing cancelled") (promises w);
            trace := trace w ++ fan_out (λ a, [AdapterCall a cancelUnpairing]) w
                       ++ [DeferredReject d "removeSomeThing cancelled"] |}).
Proof.
  intros Hr. unfold cancelRemoveSomeThing. unfold_M. rewrite Hr.
  rewrite (for_in_adapters_tell (λ a, [AdapterCall a cancelUnpairing])) by loop_body.
  unfold tell. simpl. by rewrite <- app_assoc.
Qed.

Lemma handleDeviceAdded_idle (device : Device) (w : World) :
  deferredAdd (this w) = None →
  handleDeviceAdded device w =
    (tt, {| this := set_devices (obj_set (device_id device) device (devices (this w)))
                      (this w);
            promises := promises w;
            trace := trace w ++ [Emit "thing-added" (OfThing (Device_getThing device))] |}).
Proof.
  intros Ha. unfold handleDeviceAdded. unfold_M. unfold tell. simpl. by rewrite Ha.
Qed.

Lemma handleDeviceAdded_active (device : Device) (w : World) (d : Deferred) :
  deferredAdd (this w) = Some d →
  handleDeviceAdded device w =
    (tt, {| this := set_deferredAdd None
                      (set_devices (obj_set (device_id device) device (devices (this w)))
                         (this w));
            promises := settle (promise d) (Resolved (Device_getThing device)) (promises w);
            trace := trace w ++ [Emit "thing-added" (OfThing (Device_getThing device))]
                       ++ to_others cancelPairing device w
                       ++ [ConsoleLog ["AdapterManager: About to resolve deferredAdd"];
                           DeferredResolve d (Device_getThing device)] |}).
Proof.
  intros Ha. unfold handleDeviceAdded. unfold_M. unfold tell at 1. simpl. rewrite Ha.
  rewrite (for_in_adapters_tell
             (λ a, if decide (adapter_ref a ≠ device_adapter device)
                   then [AdapterCall a cancelPairing] else [])) by loop_body.
  unfold tell, to_others, fan_out. simpl. by rewrite <- !app_assoc.
Qed.

Lemma handleDeviceRemoved_idle (device : Device) (w : World) :
  deferredRemove (this w) = None →
  handleDeviceRemoved device w =
    (tt, {| this := set_devices (obj_delete (device_id device) (devices (this w)))
                      (this w);
            promises := promises w;
            trace := trace w ++ [Emit "thing-removed" (OfThing (Device_getThing device));
                                 ConsoleLog ["AdapterManager: handleDeviceRemoved"]] |}).
Proof.
  intros Hr. unfold handleDeviceRemoved. unfold_M. unfold tell. simpl. rewrite Hr.
  by rewrite <- app_assoc.
Qed.

Lemma handleDeviceRemoved_active (device : Device) (w : World) (d : Deferred) :
  deferredRemove (this w) = Some d →
  handleDeviceRemoved device w =
    (tt, {| this := set_deferredRemove None
                      (set_devices (obj_delete (device_id device) (devices (this w)))
                         (this w));
            promises := settle (promise d) (Resolved (Device_getThing device)) (promises w);
            trace := trace w ++ [Emit "thing-removed" (OfThing (Device_getThing device));
                                 ConsoleLog ["AdapterManager: handleDeviceRemoved"]]
                       ++ to_others cancelUnpairing device w
                       ++ [ConsoleLog ["AdapterManager: About to resolve deferredRemove"];
                           DeferredResolve d (Device_getThing device)] |}).
Proof.
  intros Hr. unfold handleDeviceRemoved. unfold_M. unfold tell at 1 2. simpl. rewrite Hr.
  rewrite (for_in_adapters_tell
             (λ a, if decide (adapter_ref a ≠ device_adapter device)
                   then [AdapterCall a cancelUnpairing] else [])) by loop_body.
  unfold tell, to_others, fan_out. simpl. by rewrite <- !app_assoc.
Qed.

Lemma unloadAdapters_exec (w : World) :
  unloadAdapters w =
    (tt, {| this := this w; promises := promises w;
            trace := trace w ++
              fan_out (λ a, [ConsoleLog ["Unloading"; adapter_name a];
                             AdapterCall a unload]) w |}).
Proof.
  unfold unloadAdapters.
  rewrite (for_in_adapters_tell
             (λ a, [ConsoleLog ["Unloading"; adapter_name a]; AdapterCall a unload]))
    by loop_body.
  reflexivity.
Qed.

Lemma setProperty_exec (thingId propertyName : string) (value : JsValue) (w : World) :
  setProperty thingId propertyName value w =
    (tt, {| this := this w; promises := promises w;
            trace := trace w ++
              match obj_get thingId (devices (this w)) with
              | Some device => [DeviceSetProperty device propertyName value]
              | None => []
              end |}).
Proof.
  unfold setProperty, getDevice. unfold_M. unfold tell.
  destruct (obj_get thingId (devices (this w))); simpl; [done|].
  rewrite app_nil_r. by destruct w.
Qed.

(** ** Every promise is settled at most once *)

Lemma settle_count_app (d : Deferred) (es es' : list Effect) :
  settle_count d (es ++ es') = settle_count d es + settle_count d es'.
Proof. unfold settle_count. by rewrite List.filter_app, length_app. Qed.

Lemma settle_count_to_others (d : Deferred) (method : AdapterMethod)
    (device : Device) (w : World) :
  settle_count d (to_others method device w) = 0.
Proof. apply settle_count_fan_out. intros a. by case_decide. Qed.

Lemma consistent_initial : consistent initial.
Proof.
  split; simpl; intros; try done.
  - by left.
  - unfold settle_count. simpl. lia.
Qed.

(** A step that settles nothing and opens no session. *)
Lemma consistent_quiet (w : World) (m' : t) (es : list Effect) :
  consistent w →
  deferredAdd m' = deferredAdd (this w) ∨ deferredAdd m' = None →
  deferredRemove m' = deferredRemove (this w) ∨ deferredRemove m' = None →
  (∀ d, settle_count d es = 0) →
  consistent {| this := m'; promises := promises w; trace := trace w ++ es |}.
Proof.
  intros [H1 H2 H3 H4 H5 H6] Ha Hr Hes. split; simpl.
  - unfold at_most_one_session in *. simpl.
    destruct Ha as [->| ->], Hr as [->| ->]; auto.
  - intros d Hd. destruct Ha as [Ha|Ha]; rewrite Ha in Hd; [auto | done].
  - intros d Hd. destruct Hr as [Hr|Hr]; rewrite Hr in Hd; [auto | done].
  - intros d Hd. rewrite settle_count_app, Hes, H4; done.
  - intros d Hd. rewrite settle_count_app, Hes, H5; done.
  - intros d. rewrite settle_count_app, Hes. specialize (H6 d). lia.
Qed.

(** A step that settles the promise of the one active session and closes
    the session. *)
Lemma consistent_close (w : World) (m' : t) (d0 : Deferred) (s : Settlement)
    (es : list Effect) :
  consistent w →
  deferredAdd (this w) = Some d0 ∨ deferredRemove (this w) = Some d0 →
  deferredAdd m' = None → deferredRemove m' = None →
  s ≠ Pending →
  (∀ d, settle_count d es = if decide (d = d0) then 1 else 0) →
  consistent {| this := m'; promises := settle (promise d0) s (promises w);
                trace := trace w ++ es |}.
Proof.
  intros [H1 H2 H3 H4 H5 H6] Hact Ha Hr Hs Hes.
  assert (promises w !! promise d0 = Some Pending) as Hp
    by (destruct Hact; auto).
  split; simpl.
  - by left.
  - intros d Hd. congruence.
  - intros d Hd. congruence.
  - intros d Hd. rewrite settle_count_app, Hes.
    destruct (decide (promise d0 = promise d)) as [Heq|Hne].
    + rewrite <- Heq, settle_pending in Hd by done. congruence.
    + rewrite settle_other in Hd by done. rewrite H4 by done.
      rewrite decide_False; [done | congruence].
  - intros d Hd. rewrite settle_length in Hd. rewrite settle_count_app, Hes, H5 by done.
    apply lookup_lt_Some in Hp. rewrite decide_False; [done|]. intros ->. lia.
  - intros d. rewrite settle_count_app, Hes. case_decide as Hd.
    + subst. rewrite H4 by done. lia.
    + specialize (H6 d). lia.
Qed.

(** A step that opens a session on a new promise. *)
Lemma consistent_open (w : World) (m' : t) (es : list Effect) :
  consistent w →
  deferredAdd (this w) = None → deferredRemove (this w) = None →
  (deferredAdd m' = Some {| promise := List.length (promises w) |}
   ∧ deferredRemove m' = None)
  ∨ (deferredAdd m' = None
     ∧ deferredRemove m' = Some {| promise := List.length (promises w) |}) →
  (∀ d, settle_count d es = 0) →
  consistent {| this := m'; promises := promises w ++ [Pending]; trace := trace w ++ es |}.
Proof.
  intros [H1 H2 H3 H4 H5 H6] Ha Hr Hm Hes.
  assert (∀ d, (promises w ++ [Pending]) !! promise d = Some Pending →
               settle_count d (trace w) = 0) as Hpend.
  { intros d Hd. destruct (decide (promise d < List.length (promises w))).
    - rewrite lookup_app_l in Hd by done. auto.
    - apply H5. lia. }
  assert ((promises w ++ [Pending]) !! List.length (promises w) = Some Pending) as Hnew.
  { rewrite lookup_app_r by lia. by rewrite Nat.sub_diag. }
  split; simpl.
  - unfold at_most_one_session. simpl. destruct Hm as [[_ ->]|[-> _]]; auto.
  - intros d Hd. destruct Hm as [[Hm _]|[Hm _]]; rewrite Hm in Hd; by simplify_eq.
  - intros d Hd. destruct Hm as [[_ Hm]|[_ Hm]]; rewrite Hm in Hd; by simplify_eq.
  - intros d Hd. rewrite settle_count_app, Hes, Hpend; done.
  - intros d Hd. rewrite length_app in Hd. simpl in Hd.
    rewrite settle_count_app, Hes, H5; [done | lia].
  - intros d. rewrite settle_count_app, Hes. specialize (H6 d). lia.
Qed.

(** A step that turns a request down on a new promise. *)
Lemma consistent_turn_down (w : World) (reason : string) :
  consistent w →
  consistent {| this := this w; promises := promises w ++ [Rejected reason];
                trace := trace w ++
                  [DeferredReject {| promise := List.length (promises w) |} reason] |}.
Proof.
  intros [H1 H2 H3 H4 H5 H6].
  assert (∀ d, settle_count d
             [DeferredReject {| promise := List.length (promises w) |} reason]
           = if decide (promise d = List.length (promises w)) then 1 else 0) as Hes.
  { intros [p]. unfold settle_count. simpl. case_decide as Hp.
    - subst. by rewrite bool_decide_true.
    - rewrite bool_decide_false; [done | congruence]. }
  split; simpl.
  - done.
  - intros d Hd. apply H2 in Hd as Hp.
    rewrite lookup_app_l; [done | by eapply lookup_lt_Some].
  - intros d Hd. apply H3 in Hd as Hp.
    rewrite lookup_app_l; [done | by eapply lookup_lt_Some].
  - intros d Hd. rewrite settle_count_app, Hes.
    destruct (decide (promise d < List.length (promises w))).
    + rewrite lookup_app_l in Hd by done. rewrite H4 by done.
      rewrite decide_False; [done | lia].
    + apply lookup_lt_Some in Hd as Hlt. rewrite length_app in Hlt. simpl in Hlt.
      assert (promise d = List.length (promises w)) as Heq by lia.
      rewrite Heq, lookup_app_r, Nat.sub_diag in Hd by lia. done.
  - intros d Hd. rewrite length_app in Hd. simpl in Hd.
    rewrite settle_count_app, Hes, H5 by lia. rewrite decide_False; [done | lia].
  - intros d. rewrite settle_count_app, Hes. case_decide as Hp.
    + rewrite H5 by lia. lia.
    + specialize (H6 d). lia.
Qed.

Lemma settle_count_resolve (d d0 : Deferred) (value : Thing) :
  settle_count d [DeferredResolve d0 value] = if decide (d = d0) then 1 else 0.
Proof.
  unfold settle_count. simpl. case_decide.
  - subst. by rewrite bool_decide_true.
  - rewrite bool_decide_false; [done | congruence].
Qed.

Lemma settle_count_reject (d d0 : Deferred) (reason : string) :
  settle_count d [DeferredReject d0 reason] = if decide (d = d0) then 1 else 0.
Proof.
  unfold settle_count. simpl. case_decide.
  - subst. by rewrite bool_decide_true.
  - rewrite bool_decide_false; [done | congruence].
Qed.

Lemma session_active_dec (w : World) :
  session_active w ∨ (deferredAdd (this w) = None ∧ deferredRemove (this w) = None).
Proof.
  unfold session_active.
  destruct (deferredAdd (this w)), (deferredRemove (this w)); auto.
Qed.

Lemma settle_count_cons (d : Deferred) (e : Effect) (es : list Effect) :
  settle_count d (e :: es) = (if settles d e then 1 else 0) + settle_count d es.
Proof. unfold settle_count. simpl. by destruct (settles d e). Qed.

Lemma settles_dec (d d0 : Deferred) :
  (if bool_decide (d0 = d) then 1 else 0) = if decide (d = d0) then 1 else 0.
Proof.
  case_decide; [by rewrite bool_decide_true | by rewrite bool_decide_false].
Qed.

Ltac count_settles :=
  intros ?;
  rewrite ?settle_count_app, ?settle_count_to_others, ?settle_count_fan_out by done;
  rewrite ?settle_count_cons; cbn [settles settle_count List.filter List.length];
  rewrite ?settles_dec; try lia; try done.

Lemma consistent_exec (c : Call) (w : World) :
  consistent w → consistent (exec c w).2.
Proof.
  intros Hw. pose proof (one_session w Hw) as Hone.
  destruct c; unfold exec.
  - rewrite addAdapter_exec. cbn [snd]. apply consistent_quiet; auto.
  - unfold mbind, M_bind, mret, M_ret.
    destruct (session_active_dec w) as [Hbusy|[Ha Hr]].
    + rewrite addNewThing_busy by done. cbn [snd]. by apply consistent_turn_down.
    + rewrite addNewThing_idle by done. cbn [snd]. apply consistent_open; auto.
      count_settles.
  - destruct (deferredAdd (this w)) as [d0|] eqn:Ha.
    + rewrite (cancelAddNewThing_active w d0) by done. cbn [snd].
      apply consistent_close; auto.
      * simpl. destruct Hone as [H|H]; [congruence | done].
      * count_settles.
    + by rewrite cancelAddNewThing_idle.
  - destruct (deferredRemove (this w)) as [d0|] eqn:Hr.
    + rewrite (cancelRemoveSomeThing_active w d0) by done. cbn [snd].
      apply consistent_close; auto.
      * simpl. destruct Hone as [H|H]; [done | congruence].
      * count_settles.
    + by rewrite cancelRemoveSomeThing_idle.
  - rewrite setProperty_exec. cbn [snd]. apply consistent_quiet; auto.
    intros d. by destruct (obj_get thingId (devices (this w))).
  - destruct (deferredAdd (this w)) as [d0|] eqn:Ha.
    + rewrite (handleDeviceAdded_active device w d0) by done. cbn [snd].
      apply consistent_close; auto.
      * simpl. destruct Hone as [H|H]; [congruence | done].
      * count_settles.
    + rewrite handleDeviceAdded_idle by done. cbn [snd].
      apply consistent_quiet; auto.
  - destruct (deferredRemove (this w)) as [d0|] eqn:Hr.
    + rewrite (handleDeviceRemoved_active device w d0) by done. cbn [snd].
      apply consistent_close; auto.
      * simpl. destruct Hone as [H|H]; [done | congruence].
      * count_settles.
    + rewrite handleDeviceRemoved_idle by done. cbn [snd].
      apply consistent_quiet; auto.
  - unfold mbind, M_bind, mret, M_ret.
    destruct (session_active_dec w) as [Hbusy|[Ha Hr]].
    + rewrite removeSomeThing_busy by done. cbn [snd]. by apply consistent_turn_down.
    + rewrite removeSomeThing_idle by done. cbn [snd]. apply consistent_open; auto.
      count_settles.
  - rewrite unloadAdapters_exec. cbn [snd]. apply consistent_quiet; auto.
    count_settles.
Qed.

Lemma consistent_run (calls : list Call) (w : World) :
  consistent w → consistent (run calls w).
Proof.
  revert w. induction calls as [|c calls IH]; intros w Hw; simpl; [done|].
  apply IH, consistent_exec, Hw.
Qed.

(** ** The manager: registry and pairing sessions *)

Ltac in_trace :=
  rewrite ?elem_of_app, ?elem_of_cons; auto 10.

Ltac no_call :=
  let H := fresh "H" in
  intros ? ? H;
  repeat (apply elem_of_cons in H as [H|H]; [discriminate|]);
  by apply elem_of_nil in H.

(** Among the effects of a resolution, the calls on adapters are those of
    the loop over the other adapters. *)
Lemma call_in_resolution (method method' : AdapterMethod) (device : Device)
    (w : World) (a : Adapter) (before after : list Effect) :
  (∀ a m, AdapterCall a m ∉ before) → (∀ a m, AdapterCall a m ∉ after) →
  AdapterCall a method' ∈ before ++ to_others method device w ++ after
  ↔ method' = method ∧ registered a w ∧ adapter_ref a ≠ device_adapter device.
Proof.
  intros Hb Ha. rewrite !elem_of_app, elem_of_to_others. split.
  - intros [H|[(a' & Hreg & Hne & [= -> ->])|H]].
    + by apply Hb in H.
    + done.
    + by apply Ha in H.
  - intros (-> & Hreg & Hne). right. left. by exists a.
Qed.

Lemma effects_since_app (w w' : World) (es : list Effect) :
  trace w' = trace w ++ es → effects_since w w' = es.
Proof. intros H. unfold effects_since. rewrite H. apply drop_app_length. Qed.

Lemma busy_reason_in_progress (w : World) : OperationInProgress (busy_reason w).
Proof. unfold OperationInProgress, busy_reason. destruct (truthy _); auto. Qed.

Lemma lookup_snoc_other {A} (l : list A) (x : A) (q : nat) :
  q ≠ List.length l → (l ++ [x]) !! q = l !! q.
Proof.
  intros Hq. destruct (decide (q < List.length l)).
  - by rewrite lookup_app_l.
  - rewrite !lookup_ge_None_2; [done | lia |]. rewrite length_app. simpl. lia.
Qed.

(** C1. Whatever calls are made on the manager, at most one of
    [deferredAdd] and [deferredRemove] is set.  While either is set,
    [addNewThing] and [removeSomeThing] return a new promise that is
    already rejected with an operation-in-progress reason; the manager's
    fields (the active session among them) and every earlier promise stay
    as they were, and the only effect is that rejection: no adapter is
    called. *)
Theorem pairing_sessions_are_mutually_exclusive :
  (∀ calls : list Call, at_most_one_session (run calls initial))
  ∧ (∀ (w : World) (request : M nat),
       session_active w →
       request = addNewThing ∨ request = removeSomeThing →
       ∃ reason, OperationInProgress reason ∧
         let '(p, w') := request w in
         promises w' !! p = Some (Rejected reason)
         ∧ this w' = this w
         ∧ (∀ q, q ≠ p → promises w' !! q = promises w !! q)
         ∧ trace w' = trace w ++ [DeferredReject {| promise := p |} reason]
         ∧ ∀ a method, AdapterCall a method ∉ effects_since w w').
Proof.
  split.
  - intros calls. apply one_session, consistent_run, consistent_initial.
  - intros w request Hbusy Hreq. exists (busy_reason w).
    split; [apply busy_reason_in_progress|].
    assert (request w =
      (List.length (promises w),
       {| this := this w;
          promises := promises w ++ [Rejected (busy_reason w)];
          trace := trace w ++
            [DeferredReject {| promise := List.length (promises w) |} (busy_reason w)] |}))
      as ->.
    { destruct Hreq as [-> | ->];
        [by apply addNewThing_busy | by apply removeSomeThing_busy]. }
    simpl. repeat split.
    + rewrite lookup_app_r by lia. by rewrite Nat.sub_diag.
    + intros q Hq. by apply lookup_snoc_other.
    + intros a method. erewrite effects_since_app by reflexivity.
      intros H. apply list_elem_of_singleton in H. done.
Qed.

(** C2. [handleDeviceAdded(device)] registers the device, so that
    [getDevice(device.id)] returns it, and publishes thing-added.  If an
    add session is active it closes the session, calls [cancelPairing] on
    exactly the registered adapters other than [device.adapter], and then
    resolves the session's deferred with the device's thing: in the trace
    the thing-added event comes first, the resolution last. *)
Theorem handleDeviceAdded_registers_publishes_and_resolves :
  ∀ (device : Device) (w : World),
    let w' := (handleDeviceAdded device w).2 in
    let thing := Device_getThing device in
    (getDevice (device_id device) w').1 = Some device
    ∧ Emit "thing-added" (OfThing thing) ∈ effects_since w w'
    ∧ ∀ d, deferredAdd (this w) = Some d →
        deferredAdd (this w') = None
        ∧ (∀ a, AdapterCall a cancelPairing ∈ effects_since w w'
                ↔ registered a w ∧ adapter_ref a ≠ device_adapter device)
        ∧ (∀ a method, AdapterCall a method ∈ effects_since w w' →
                       method = cancelPairing)
        ∧ (∃ cancels,
             trace w' = trace w ++ [Emit "thing-added" (OfThing thing)] ++ cancels
                          ++ [ConsoleLog ["AdapterManager: About to resolve deferredAdd"];
                              DeferredResolve d thing])
        ∧ (promises w !! promise d = Some Pending →
           promises w' !! promise d = Some (Resolved thing)).
Proof.
  intros device w w' thing. subst w'.
  destruct (deferredAdd (this w)) as [d0|] eqn:Ha.
  - rewrite (handleDeviceAdded_active device w d0) by done. cbn [snd].
    erewrite effects_since_app by reflexivity.
    split; [|split].
    + unfold getDevice, read. simpl. apply obj_get_set_eq.
    + in_trace.
    + intros d [= <-]. split; [done|]. split; [|split; [|split]].
      * intros a. rewrite call_in_resolution by no_call. tauto.
      * intros a method. rewrite call_in_resolution by no_call. tauto.
      * by eexists.
      * simpl. apply settle_pending.
  - rewrite handleDeviceAdded_idle by done. cbn [snd].
    erewrite effects_since_app by reflexivity.
    split; [|split].
    + unfold getDevice, read. simpl. apply obj_get_set_eq.
    + in_trace.
    + intros d [=].
Qed.

(** C3, as the code has it.  [addAdapter(adapter)] has no check of the
    id: for a new id and for one already present alike it sets
    [adapter.name] to the constructor's name, stores the adapter under its
    id, whatever was stored there, leaves every other entry alone and
    publishes adapter-added with that adapter. *)
Theorem addAdapter_registers_under_id_and_publishes :
  ∀ (adapter : Adapter) (w : World),
    let w' := (addAdapter adapter w).2 in
    let named := with_name adapter (adapter_constructor_name adapter) in
    (getAdapter (adapter_id adapter) w').1 = Some named
    ∧ (∀ id, id ≠ adapter_id adapter →
             (getAdapter id w').1 = (getAdapter id w).1)
    ∧ trace w' = trace w ++ [Emit "adapter-added" (OfAdapter named)]
    ∧ devices (this w') = devices (this w)
    ∧ deferredAdd (this w') = deferredAdd (this w)
    ∧ deferredRemove (this w') = deferredRemove (this w)
    ∧ promises w' = promises w.
Proof.
  intros adapter w w' named. subst w' named. rewrite addAdapter_exec.
  unfold getAdapter, read. simpl. repeat split.
  - apply obj_get_set_eq.
  - intros id Hid. by apply obj_get_set_ne.
Qed.

(** C3 fails on a second adapter with the id of a registered one: the
    call returns as usual, the entry now holds the second adapter and a
    second adapter-added event has been published. *)
Lemma addAdapter_duplicate_id_replaces :
  let first := {| adapter_ref := 1; adapter_id := "zwave-c0ffee";
                  adapter_name := ""; adapter_constructor_name := "ZWaveAdapter" |} in
  let second := {| adapter_ref := 2; adapter_id := "zwave-c0ffee";
                   adapter_name := ""; adapter_constructor_name := "MockAdapter" |} in
  let w1 := (addAdapter first initial).2 in
  let w2 := (addAdapter second w1).2 in
  (getAdapter "zwave-c0ffee" w1).1 = Some (with_name first "ZWaveAdapter")
  ∧ addAdapter second w1 = (tt, w2)
  ∧ (getAdapter "zwave-c0ffee" w2).1 = Some (with_name second "MockAdapter")
  ∧ adapters (this w2) ≠ adapters (this w1)
  ∧ trace w2 = [Emit "adapter-added" (OfAdapter (with_name first "ZWaveAdapter"));
                Emit "adapter-added" (OfAdapter (with_name second "MockAdapter"))].
Proof. vm_compute. repeat split; congruence. Qed.


Lemma consistent_settled_stays (d : Deferred) (calls : list Call) (w : World) :
  consistent w → settle_count d (trace w) = 1 →
  settle_count d (trace (run calls w)) = 1.
Proof.
  revert w. induction calls as [|c calls IH]; intros w Hw Hd; simpl; [done|].
  assert (consistent (exec c w).2) as Hw' by by apply consistent_exec.
  apply IH; [done|].
  assert (∃ es, trace (exec c w).2 = trace w ++ es) as [es Hes].
  { destruct c; unfold exec.
    - rewrite addAdapter_exec. by eexists.
    - unfold mbind, M_bind, mret, M_ret.
      destruct (session_active_dec w) as [Hbusy|[Ha Hr]].
      + rewrite addNewThing_busy by done. by eexists.
      + rewrite addNewThing_idle by done. by eexists.
    - destruct (deferredAdd (this w)) as [d0|] eqn:Ha.
      + rewrite (cancelAddNewThing_active w d0) by done. by eexists.
      + rewrite cancelAddNewThing_idle by done. exists []. by rewrite app_nil_r.
    - destruct (deferredRemove (this w)) as [d0|] eqn:Hr.
      + rewrite (cancelRemoveSomeThing_active w d0) by done. by eexists.
      + rewrite cancelRemoveSomeThing_idle by done. exists []. by rewrite app_nil_r.
    - rewrite setProperty_exec. by eexists.
    - destruct (deferredAdd (this w)) as [d0|] eqn:Ha.
      + rewrite (handleDeviceAdded_active device w d0) by done. by eexists.
      + rewrite handleDeviceAdded_idle by done. by eexists.
    - destruct (deferredRemove (this w)) as [d0|] eqn:Hr.
      + rewrite (handleDeviceRemoved_active device w d0) by done. by eexists.
      + rewrite handleDeviceRemoved_idle by done. by eexists.
    - unfold mbind, M_bind, mret, M_ret.
      destruct (session_active_dec w) as [Hbusy|[Ha Hr]].
      + rewrite removeSomeThing_busy by done. by eexists.
      + rewrite removeSomeThing_idle by done. by eexists.
    - rewrite unloadAdapters_exec. by eexists. }
  pose proof (settled_once _ Hw' d) as Hle.
  rewrite Hes, settle_count_app in *. lia.
Qed.

Lemma two_reports_in_consistent_world (w : World) (d : Deferred)
    (first second : Device) :
  consistent w →
  deferredAdd (this w) = Some d →
  let w1 := (handleDeviceAdded first w).2 in
  let w2 := (handleDeviceAdded second w1).2 in
  promises w1 !! promise d = Some (Resolved (Device_getThing first))
  ∧ DeferredResolve d (Device_getThing first) ∈ effects_since w w1
  ∧ (∀ a, registered a w → adapter_ref a ≠ device_adapter first →
          AdapterCall a cancelPairing ∈ effects_since w w1)
  ∧ effects_since w1 w2 = [Emit "thing-added" (OfThing (Device_getThing second))]
  ∧ promises w2 = promises w1
  ∧ settle_count d (effects_since w w2) = 1
  ∧ ∀ later : list Call, settle_count d (trace (run later w2)) = 1.
Proof.
  intros Hw Ha w1 w2.
  pose proof (add_pending w Hw d Ha) as Hp.
  pose proof (pending_unsettled w Hw d Hp) as H0.
  assert (consistent w1) as Hw1 by apply (consistent_exec (HandleDeviceAdded first) w Hw).
  assert (consistent w2) as Hw2 by apply (consistent_exec (HandleDeviceAdded second) w1 Hw1).
  subst w2 w1.
  rewrite (handleDeviceAdded_active first w d) in * by done. cbn [snd] in *.
  rewrite handleDeviceAdded_idle in * by done. cbn [snd] in *.
  set (es := [Emit "thing-added" (OfThing (Device_getThing first))]
               ++ to_others cancelPairing first w
               ++ [ConsoleLog ["AdapterManager: About to resolve deferredAdd"];
                   DeferredResolve d (Device_getThing first)]) in *.
  assert (settle_count d es = 1) as Hes.
  { subst es. rewrite !settle_count_app, settle_count_to_others, !settle_count_cons.
    cbn [settles]. rewrite bool_decide_true by done. done. }
  repeat split.
  - by apply settle_pending.
  - erewrite effects_since_app by reflexivity. subst es. in_trace.
  - intros a Hreg Hne. erewrite effects_since_app by reflexivity. subst es.
    apply call_in_resolution; [no_call | no_call | done].
  - by erewrite effects_since_app by reflexivity.
  - erewrite (effects_since_app _ _ (es ++ _)) by (simpl; by rewrite <- app_assoc).
    rewrite settle_count_app, Hes. done.
  - intros later. apply consistent_settled_stays; [done|]. simpl.
    rewrite !settle_count_app, H0, Hes. done.
Qed.

(** C5. Two distinct devices are reported one after the other while an
    add session is active, in any world the manager can be in.  The first
    report resolves the session's promise with its thing and calls
    [cancelPairing] on every registered adapter that does not own the
    first device; the second report only registers its device and
    publishes thing-added: it settles nothing.  The two reports settle the
    promise exactly once, and no later call settles it again. *)
Theorem two_reports_resolve_the_add_session_once :
  ∀ (calls : list Call) (d : Deferred) (first second : Device),
    let w := run calls initial in
    deferredAdd (this w) = Some d →
    device_id first ≠ device_id second →
    let w1 := (handleDeviceAdded first w).2 in
    let w2 := (handleDeviceAdded second w1).2 in
    promises w1 !! promise d = Some (Resolved (Device_getThing first))
    ∧ DeferredResolve d (Device_getThing first) ∈ effects_since w w1
    ∧ (∀ a, registered a w → adapter_ref a ≠ device_adapter first →
            AdapterCall a cancelPairing ∈ effects_since w w1)
    ∧ effects_since w1 w2 = [Emit "thing-added" (OfThing (Device_getThing second))]
    ∧ promises w2 = promises w1
    ∧ settle_count d (effects_since w w2) = 1
    ∧ ∀ later : list Call, settle_count d (trace (run later w2)) = 1.
Proof.
  intros calls d first second w Ha _.
  apply two_reports_in_consistent_world; [|done].
  apply consistent_run, consistent_initial.
Qed.

Lemma two_reports_resolve_the_add_session_once_witness :
  let a1 := {| adapter_ref := 1; adapter_id := "zwave-1";
               adapter_name := ""; adapter_constructor_name := "ZWaveAdapter" |} in
  let a2 := {| adapter_ref := 2; adapter_id := "mock";
               adapter_name := ""; adapter_constructor_name := "MockAdapter" |} in
  let plug := {| device_id := "plug-7"; device_adapter := 1;
                 device_thing := {| thing_id := "plug-7"; thing_name := "Plug" |};
                 device_properties := [("on", JsBool false)] |} in
  let lamp := {| device_id := "lamp-3"; device_adapter := 2;
                 device_thing := {| thing_id := "lamp-3"; thing_name := "Lamp" |};
                 device_properties := [] |} in
  let w := run [AddAdapter a1; AddAdapter a2; AddNewThing] initial in
  let w1 := (handleDeviceAdded plug w).2 in
  let w2 := (handleDeviceAdded lamp w1).2 in
  promises w1 !! 0 = Some (Resolved (Device_getThing plug))
  ∧ DeferredResolve {| promise := 0 |} (Device_getThing plug) ∈ effects_since w w1
  ∧ (∀ a, registered a w → adapter_ref a ≠ device_adapter plug →
          AdapterCall a cancelPairing ∈ effects_since w w1)
  ∧ effects_since w1 w2 = [Emit "thing-added" (OfThing (Device_getThing lamp))]
  ∧ promises w2 = promises w1
  ∧ settle_count {| promise := 0 |} (effects_since w w2) = 1
  ∧ ∀ later : list Call, settle_count {| promise := 0 |} (trace (run later w2)) = 1.
Proof.
  intros a1 a2 plug lamp w.
  apply (two_reports_resolve_the_add_session_once
           [AddAdapter a1; AddAdapter a2; AddNewThing] {| promise := 0 |} plug lamp).
  - reflexivity.
  - discriminate.
Defined.

(** The scenario of the specification, run: two adapters, [addNewThing],
    then the first adapter reports "plug-7". *)
Example scenario_plug_7 :
  let a := {| adapter_ref := 1; adapter_id := "A";
              adapter_name := ""; adapter_constructor_name := "AdapterA" |} in
  let b := {| adapter_ref := 2; adapter_id := "B";
              adapter_name := ""; adapter_constructor_name := "AdapterB" |} in
  let plug := {| device_id := "plug-7"; device_adapter := 1;
                 device_thing := {| thing_id := "plug-7"; thing_name := "Plug" |};
                 device_properties := [] |} in
  let w := run [AddAdapter a; AddAdapter b; AddNewThing] initial in
  let w' := (handleDeviceAdded plug w).2 in
  effects_since w w' =
    [Emit "thing-added" (OfThing (Device_getThing plug));
     AdapterCall (with_name b "AdapterB") cancelPairing;
     ConsoleLog ["AdapterManager: About to resolve deferredAdd"];
     DeferredResolve {| promise := 0 |} (Device_getThing plug)]
  ∧ promises w' = [Resolved (Device_getThing plug)]
  ∧ deferredAdd (this w') = None.
Proof. vm_compute. done. Qed.

(** The other scenario: [removeSomeThing] while [addNewThing] is pending. *)
Example scenario_remove_while_adding :
  let w := run [AddNewThing] initial in
  removeSomeThing w =
    (1, {| this := this w;
           promises := [Pending; Rejected "Add already in progress"];
           trace := [DeferredReject {| promise := 1 |} "Add already in progress"] |}).
Proof. vm_compute. done. Qed.

Lemma call_in_fan_out (method method' : AdapterMethod) (w : World) (a : Adapter) :
  AdapterCall a method' ∈ fan_out (λ a, [AdapterCall a method]) w
  ↔ method' = method ∧ registered a w.
Proof.
  rewrite elem_of_fan_out. split.
  - intros (a' & Hreg & H). apply list_elem_of_singleton in H as [= -> ->]. done.
  - intros [-> Hreg]. exists a. split; [done|]. by apply list_elem_of_singleton.
Qed.

(** C6. Without a matching session, [cancelAddNewThing] and
    [cancelRemoveSomeThing] return with the world exactly as it was:
    nothing is called, nothing changes.  With a session active, in any
    world the manager can be in, the cancel call goes to exactly the
    registered adapters, the session is cleared, the registry and the
    other session field are untouched, and the session's promise, pending
    until then, is rejected after the adapters were called. *)
Theorem cancel_is_noop_when_idle_and_reaches_all_adapters :
  (∀ w, deferredAdd (this w) = None → cancelAddNewThing w = (tt, w))
  ∧ (∀ w, deferredRemove (this w) = None → cancelRemoveSomeThing w = (tt, w))
  ∧ (∀ (calls : list Call) (d : Deferred),
       let w := run calls initial in
       let w' := (cancelAddNewThing w).2 in
       deferredAdd (this w) = Some d →
       (∀ a method, AdapterCall a method ∈ effects_since w w'
                    ↔ method = cancelPairing ∧ registered a w)
       ∧ this w' = set_deferredAdd None (this w)
       ∧ promises w !! promise d = Some Pending
       ∧ promises w' !! promise d = Some (Rejected "addNewThing cancelled")
       ∧ ∃ cancels, trace w' = trace w ++ cancels
                                 ++ [DeferredReject d "addNewThing cancelled"])
  ∧ (∀ (calls : list Call) (d : Deferred),
       let w := run calls initial in
       let w' := (cancelRemoveSomeThing w).2 in
       deferredRemove (this w) = Some d →
       (∀ a method, AdapterCall a method ∈ effects_since w w'
                    ↔ method = cancelUnpairing ∧ registered a w)
       ∧ this w' = set_deferredRemove None (this w)
       ∧ promises w !! promise d = Some Pending
       ∧ promises w' !! promise d = Some (Rejected "removeSomeThing cancelled")
       ∧ ∃ cancels, trace w' = trace w ++ cancels
                                 ++ [DeferredReject d "removeSomeThing cancelled"]).
Proof.
  split; [exact cancelAddNewThing_idle|].
  split; [exact cancelRemoveSomeThing_idle|].
  split.
  - intros calls d w w' Ha. subst w'.
    assert (consistent w) as Hw by apply consistent_run, consistent_initial.
    pose proof (add_pending w Hw d Ha) as Hp.
    rewrite (cancelAddNewThing_active w d) by done. cbn [snd].
    erewrite effects_since_app by reflexivity. simpl.
    split; [|split; [|split; [|split]]]; try done.
    + intros a method. rewrite elem_of_app, call_in_fan_out. split; [|tauto].
      intros [H|H]; [done|]. by apply list_elem_of_singleton in H.
    + by apply settle_pending.
    + by eexists.
  - intros calls d w w' Hr. subst w'.
    assert (consistent w) as Hw by apply consistent_run, consistent_initial.
    pose proof (remove_pending w Hw d Hr) as Hp.
    rewrite (cancelRemoveSomeThing_active w d) by done. cbn [snd].
    erewrite effects_since_app by reflexivity. simpl.
    split; [|split; [|split; [|split]]]; try done.
    + intros a method. rewrite elem_of_app, call_in_fan_out. split; [|tauto].
      intros [H|H]; [done|]. by apply list_elem_of_singleton in H.
    + by apply settle_pending.
    + by eexists.
Qed.

Example cancel_reaches_both_adapters :
  let a := {| adapter_ref := 1; adapter_id := "A";
              adapter_name := ""; adapter_constructor_name := "AdapterA" |} in
  let b := {| adapter_ref := 2; adapter_id := "B";
              adapter_name := ""; adapter_constructor_name := "AdapterB" |} in
  let w := run [AddAdapter a; AddAdapter b; AddNewThing] initial in
  let w' := (cancelAddNewThing w).2 in
  effects_since w w' =
    [AdapterCall (with_name a "AdapterA") cancelPairing;
     AdapterCall (with_name b "AdapterB") cancelPairing;
     DeferredReject {| promise := 0 |} "addNewThing cancelled"]
  ∧ promises w' = [Rejected "addNewThing cancelled"]
  ∧ cancelAddNewThing w' = (tt, w').
Proof. vm_compute. done. Qed.

Lemma absent_obj_get {V} (k : string) (o : JsObject V) :
  absent k o → obj_get k o = None.
Proof.
  unfold absent. intros H. destruct (obj_get k o) eqn:E; [|done].
  by apply obj_get_Some_key in E.
Qed.

Lemma get_not_inherited {V} (k : string) (o : JsObject V) :
  k ∉ PlainObject.Object_prototype →
  PlainObject.get k o
  = match obj_get k o with
    | Some v => PlainObject.Own v
    | None => PlainObject.Undefined
    end.
Proof. intros Hk. unfold PlainObject.get. by rewrite decide_False. Qed.

(** For an id that names no inherited member, the lookups are those of
    the own properties. *)
Lemma lookups_of_plain_ids (id : string) (w : World) :
  id ∉ PlainObject.Object_prototype →
  (Lookups.getAdapter id w).1
  = from_option PlainObject.Own PlainObject.Undefined (getAdapter id w).1
  ∧ (Lookups.getDevice id w).1
    = from_option PlainObject.Own PlainObject.Undefined (getDevice id w).1
  ∧ Lookups.getThing id w = (Lookups.Returns (getThing id w).1, (getThing id w).2)
  ∧ ∀ propertyName value,
      Lookups.getProperty id propertyName w
      = (Lookups.Returns (getProperty id propertyName w).1,
         (getProperty id propertyName w).2)
      ∧ Lookups.setProperty id propertyName value w
        = (Lookups.Returns tt, (setProperty id propertyName value w).2).
Proof.
  intros Hid.
  unfold Lookups.getAdapter, Lookups.getDevice, Lookups.getThing, Lookups.getProperty,
    Lookups.setProperty, Lookups.getDevice, getAdapter, getThing, getProperty, setProperty,
    getDevice.
  unfold_M. cbn [fst snd]. rewrite !get_not_inherited by done.
  destruct (obj_get id (adapters (this w))); destruct (obj_get id (devices (this w)));
    done.
Qed.

(** C8. For an id that the registry does not hold and that names no
    member inherited from [Object.prototype], [getAdapter] and [getDevice]
    return [undefined], [getThing] and [getProperty] return [undefined]
    without throwing, and [setProperty] returns without throwing; the
    world is as it was, nothing is called.  No failure is signalled:
    [setProperty] returns the same for a device the registry holds. *)
Theorem lookups_of_absent_ids_find_nothing :
  ∀ (id : string) (w : World),
    id ∉ PlainObject.Object_prototype →
    (absent id (adapters (this w)) →
     Lookups.getAdapter id w = (PlainObject.Undefined, w))
    ∧ (absent id (devices (this w)) →
         Lookups.getDevice id w = (PlainObject.Undefined, w)
         ∧ Lookups.getThing id w = (Lookups.Returns None, w)
         ∧ ∀ propertyName value,
             Lookups.getProperty id propertyName w = (Lookups.Returns None, w)
             ∧ Lookups.setProperty id propertyName value w = (Lookups.Returns tt, w))
    ∧ (∀ device propertyName value,
         obj_get id (devices (this w)) = Some device →
         (Lookups.setProperty id propertyName value w).1 = Lookups.Returns tt).
Proof.
  intros id w Hid. split; [|split].
  - intros H. unfold Lookups.getAdapter, read.
    by rewrite get_not_inherited, absent_obj_get.
  - intros H. apply absent_obj_get in H.
    unfold Lookups.getThing, Lookups.getProperty, Lookups.setProperty, Lookups.getDevice.
    unfold_M. rewrite get_not_inherited by done. rewrite H. done.
  - intros device propertyName value Hdevice.
    unfold Lookups.setProperty, Lookups.getDevice. unfold_M. cbn [fst snd].
    rewrite get_not_inherited by done. by rewrite Hdevice.
Qed.

Lemma lookups_of_absent_ids_find_nothing_witness :
  let id := "plug-7" in
  let w := initial in
  (absent id (adapters (this w)) →
   Lookups.getAdapter id w = (PlainObject.Undefined, w))
  ∧ (absent id (devices (this w)) →
       Lookups.getDevice id w = (PlainObject.Undefined, w)
       ∧ Lookups.getThing id w = (Lookups.Returns None, w)
       ∧ ∀ propertyName value,
           Lookups.getProperty id propertyName w = (Lookups.Returns None, w)
           ∧ Lookups.setProperty id propertyName value w = (Lookups.Returns tt, w))
  ∧ (∀ device propertyName value,
       obj_get id (devices (this w)) = Some device →
       (Lookups.setProperty id propertyName value w).1 = Lookups.Returns tt).
Proof.
  intros id w. apply (lookups_of_absent_ids_find_nothing id w).
  apply (bool_decide_unpack _). vm_compute. exact I.
Defined.

(** The id [constructor] is not registered in the new manager, yet the
    lookups find the member that the registry inherits under that name:
    [getAdapter] and [getDevice] do not return [undefined], and
    [getThing], [getProperty] and [setProperty] throw. *)
Lemma lookup_of_an_inherited_name_throws :
  absent "constructor" (adapters (this initial))
  ∧ absent "constructor" (devices (this initial))
  ∧ (Lookups.getAdapter "constructor" initial).1 = PlainObject.Inherited "constructor"
  ∧ (Lookups.getDevice "constructor" initial).1 = PlainObject.Inherited "constructor"
  ∧ (Lookups.getThing "constructor" initial).1
    = Lookups.Throws "TypeError: device.getThing is not a function"
  ∧ (Lookups.getProperty "constructor" "on" initial).1
    = Lookups.Throws "TypeError: device.getProperty is not a function"
  ∧ (Lookups.setProperty "constructor" "on" (JsBool true) initial).1
    = Lookups.Throws "TypeError: device.setProperty is not a function"
  ∧ ¬ (∀ (id : string) (w : World),
         absent id (devices (this w)) →
         (Lookups.getDevice id w).1 = PlainObject.Undefined
         ∧ ∃ thing, (Lookups.getThing id w).1 = Lookups.Returns thing).
Proof.
  assert (absent "constructor" (devices (this initial))) as Habsent
    by (unfold absent; simpl; apply not_elem_of_nil).
  split; [|split]; [unfold absent; simpl; apply not_elem_of_nil | done |].
  repeat (split; [vm_compute; done|]).
  intros H. by destruct (H "constructor" initial Habsent) as [? _].
Qed.

Example lookups_in_the_initial_world :
  Lookups.getAdapter "zwave-1" initial = (PlainObject.Undefined, initial)
  ∧ Lookups.getThing "plug-7" initial = (Lookups.Returns None, initial)
  ∧ Lookups.setProperty "plug-7" "on" (JsBool true) initial
    = (Lookups.Returns tt, initial).
Proof. vm_compute. done. Qed.

(** ** The Z-Wave adapter *)

Ltac unfold_Z :=
  unfold mbind, mret, ZWaveAdapter.M_bind, ZWaveAdapter.M_ret, ZWaveAdapter.read,
    ZWaveAdapter.write, ZWaveAdapter.tell, ZWaveAdapter.on_manager.

Lemma obj_get_alias (a : Adapter) (k : string) (o : JsObject Adapter) :
  obj_get k (ZWaveAdapter.alias a o)
  = (λ v, if decide (adapter_ref v = adapter_ref a) then a else v) <$> obj_get k o.
Proof.
  unfold ZWaveAdapter.alias. induction o as [|[k' v] o IH]; [done|].
  rewrite fmap_cons. simpl.
  destruct (decide (adapter_ref v = adapter_ref a)) as [Hv|Hv]; simpl;
    (destruct (decide (k' = k)); simpl; [|exact IH]).
  - by rewrite decide_True.
  - by rewrite decide_False.
Qed.

Lemma driverFailed_exec (w : ZWaveAdapter.World) :
  ZWaveAdapter.driverFailed w =
    (tt, {| ZWaveAdapter.self := ZWaveAdapter.self w;
            ZWaveAdapter.manager :=
              {| this := this (ZWaveAdapter.manager w);
                 promises := promises (ZWaveAdapter.manager w);
                 trace := trace (ZWaveAdapter.manager w) ++
                   [ConsoleLog ["ZWave: failed to start driver"];
                    ZWaveDriverCall "disconnect"
                      [ZWaveAdapter.port_comName (ZWaveAdapter.self w)]] |} |}).
Proof.
  unfold ZWaveAdapter.driverFailed. unfold_Z. unfold tell. simpl.
  by rewrite <- app_assoc.
Qed.

Lemma driverReady_exec (homeId : N) (w : ZWaveAdapter.World) :
  let id := "zwave-" +:+ ZWaveAdapter.toString16 homeId in
  let this_adapter :=
    with_name (ZWaveAdapter.with_id (ZWaveAdapter.base (ZWaveAdapter.self w)) id)
      (adapter_constructor_name (ZWaveAdapter.base (ZWaveAdapter.self w))) in
  ZWaveAdapter.driverReady homeId w =
    (tt, {| ZWaveAdapter.self := ZWaveAdapter.set_base this_adapter (ZWaveAdapter.self w);
            ZWaveAdapter.manager :=
              {| this := set_adapters
                           (ZWaveAdapter.alias this_adapter
                              (obj_set id this_adapter
                                 (ZWaveAdapter.alias
                                    (ZWaveAdapter.with_id
                                       (ZWaveAdapter.base (ZWaveAdapter.self w)) id)
                                    (adapters (this (ZWaveAdapter.manager w))))))
                           (this (ZWaveAdapter.manager w));
                 promises := promises (ZWaveAdapter.manager w);
                 trace := trace (ZWaveAdapter.manager w) ++
                   [ConsoleLog ["ZWave: Driver Ready: HomeId:";
                                ZWaveAdapter.toString16 homeId];
                    Emit "adapter-added" (OfAdapter this_adapter)] |} |}).
Proof.
  intros id this_adapter. unfold ZWaveAdapter.driverReady, ZWaveAdapter.assign.
  unfold_Z. unfold tell, write. simpl. by rewrite <- app_assoc.
Qed.

Lemma zwave_handleDeviceAdded_controller
    (classify : ZWaveAdapter.ZWaveNode → ZWaveAdapter.ZWaveNode)
    (node : ZWaveAdapter.ZWaveNode) (w : ZWaveAdapter.World) :
  (ZWaveAdapter.nodeId node ≤ 1)%N →
  ZWaveAdapter.handleDeviceAdded classify node w =
    (tt, {| ZWaveAdapter.self :=
              ZWaveAdapter.set_nodesBeingAdded
                (obj_delete (pretty (ZWaveAdapter.zwInfo_nodeId node))
                   (ZWaveAdapter.nodesBeingAdded (ZWaveAdapter.self w)))
                (ZWaveAdapter.self w);
            ZWaveAdapter.manager := ZWaveAdapter.manager w |}).
Proof.
  intros Hle. unfold ZWaveAdapter.handleDeviceAdded. unfold_Z. simpl.
  destruct (N.ltb_spec 1 (ZWaveAdapter.nodeId node)); [lia | done].
Qed.

Lemma zwave_handleDeviceAdded_device
    (classify : ZWaveAdapter.ZWaveNode → ZWaveAdapter.ZWaveNode)
    (node : ZWaveAdapter.ZWaveNode) (w : ZWaveAdapter.World) :
  (1 < ZWaveAdapter.nodeId node)%N →
  let device := ZWaveAdapter.node_device (classify node) in
  ZWaveAdapter.handleDeviceAdded classify node w =
    (tt, {| ZWaveAdapter.self :=
              ZWaveAdapter.set_adapter_devices
                (obj_set (device_id device) device
                   (ZWaveAdapter.adapter_devices (ZWaveAdapter.self w)))
                (ZWaveAdapter.set_nodes
                   (ZWaveAdapter.alias_node (classify node)
                      (ZWaveAdapter.nodes (ZWaveAdapter.self w)))
                   (ZWaveAdapter.set_nodesBeingAdded
                      (ZWaveAdapter.alias_node (classify node)
                         (obj_delete (pretty (ZWaveAdapter.zwInfo_nodeId node))
                            (ZWaveAdapter.nodesBeingAdded (ZWaveAdapter.self w))))
                      (ZWaveAdapter.self w)));
            ZWaveAdapter.manager :=
              (handleDeviceAdded device
                 {| this := this (ZWaveAdapter.manager w);
                    promises := promises (ZWaveAdapter.manager w);
                    trace := trace (ZWaveAdapter.manager w) ++
                      [ClassifierCall (ZWaveAdapter.node_device node)] |}).2 |}).
Proof.
  intros Hlt device. unfold ZWaveAdapter.handleDeviceAdded. unfold_Z. simpl.
  destruct (N.ltb_spec 1 (ZWaveAdapter.nodeId node)); [|lia].
  unfold ZWaveAdapter.Adapter_handleDeviceAdded. unfold_Z. unfold tell. simpl.
  fold device. by destruct (handleDeviceAdded device _) as [[] mw].
Qed.

Lemma zwave_handleDeviceRemoved_exec (node : ZWaveAdapter.ZWaveNode)
    (w : ZWaveAdapter.World) :
  let key := pretty (ZWaveAdapter.zwInfo_nodeId node) in
  let device := ZWaveAdapter.node_device node in
  ZWaveAdapter.handleDeviceRemoved node w =
    (tt, {| ZWaveAdapter.self :=
              ZWaveAdapter.set_adapter_devices
                (obj_delete (device_id device)
                   (ZWaveAdapter.adapter_devices (ZWaveAdapter.self w)))
                (ZWaveAdapter.set_nodesBeingAdded
                   (obj_delete key (ZWaveAdapter.nodesBeingAdded (ZWaveAdapter.self w)))
                   (ZWaveAdapter.set_nodes
                      (obj_delete key (ZWaveAdapter.nodes (ZWaveAdapter.self w)))
                      (ZWaveAdapter.self w)));
            ZWaveAdapter.manager :=
              (handleDeviceRemoved device (ZWaveAdapter.manager w)).2 |}).
Proof.
  intros key device. unfold ZWaveAdapter.handleDeviceRemoved,
    ZWaveAdapter.Adapter_handleDeviceRemoved. unfold_Z. simpl.
  fold device. by destruct (handleDeviceRemoved device _) as [[] mw].
Qed.

Lemma handleDeviceAdded_this (device : Device) (w : World) :
  adapters (this (handleDeviceAdded device w).2) = adapters (this w)
  ∧ devices (this (handleDeviceAdded device w).2)
    = obj_set (device_id device) device (devices (this w)).
Proof.
  destruct (deferredAdd (this w)) as [d0|] eqn:Ha.
  - by rewrite (handleDeviceAdded_active device w d0).
  - by rewrite handleDeviceAdded_idle.
Qed.

Lemma handleDeviceRemoved_this (device : Device) (w : World) :
  adapters (this (handleDeviceRemoved device w).2) = adapters (this w)
  ∧ devices (this (handleDeviceRemoved device w).2)
    = obj_delete (device_id device) (devices (this w)).
Proof.
  destruct (deferredRemove (this w)) as [d0|] eqn:Hr.
  - by rewrite (handleDeviceRemoved_active device w d0).
  - by rewrite handleDeviceRemoved_idle.
Qed.




Lemma obj_get_delete_Some {V} (k k' : string) (v : V) (o : JsObject V) :
  obj_get k' (obj_delete k o) = Some v → obj_get k' o = Some v.
Proof.
  destruct (decide (k = k')) as [->|Hne].
  - by rewrite obj_get_delete_eq.
  - by rewrite obj_get_delete_ne.
Qed.

Lemma obj_get_set_Some {V} (k k' : string) (v v' : V) (o : JsObject V) :
  obj_get k' (obj_set k v o) = Some v' → (k' = k ∧ v' = v) ∨ obj_get k' o = Some v'.
Proof.
  destruct (decide (k = k')) as [->|Hne].
  - rewrite obj_get_set_eq. intros [= ->]. by left.
  - rewrite obj_get_set_ne by done. by right.
Qed.

(** A callback other than driver-ready leaves the adapter's base fields
    and the registry of adapters as they are. *)
Lemma dispatch_keeps_adapters
    (classify : ZWaveAdapter.ZWaveNode → ZWaveAdapter.ZWaveNode)
    (c : ZWaveAdapter.Callback) (w : ZWaveAdapter.World) :
  (∀ homeId, c ≠ ZWaveAdapter.DriverReady homeId) →
  let w' := (ZWaveAdapter.dispatch classify c w).2 in
  ZWaveAdapter.base (ZWaveAdapter.self w') = ZWaveAdapter.base (ZWaveAdapter.self w)
  ∧ adapters (this (ZWaveAdapter.manager w')) = adapters (this (ZWaveAdapter.manager w)).
Proof.
  intros Hc w'. subst w'. destruct c; unfold ZWaveAdapter.dispatch.
  - by destruct (Hc homeId).
  - by rewrite driverFailed_exec.
  - destruct (N.ltb_spec 1 (ZWaveAdapter.nodeId node)) as [Hlt|Hle].
    + rewrite zwave_handleDeviceAdded_device by done. simpl.
      split; [done|]. by rewrite (proj1 (handleDeviceAdded_this _ _)).
    + by rewrite zwave_handleDeviceAdded_controller.
  - rewrite zwave_handleDeviceRemoved_exec. simpl.
    split; [done|]. by rewrite (proj1 (handleDeviceRemoved_this _ _)).
  - done.
  - done.
  - done.
  - done.
Qed.

(** After driver-ready the adapter has its final id, and the registry
    holds it under that id; an entry that held this adapter before still
    holds it, with the fields it has now; the other entries are as
    before. *)
Lemma driverReady_registry (homeId : N) (w : ZWaveAdapter.World) :
  let w' := (ZWaveAdapter.driverReady homeId w).2 in
  let id := "zwave-" +:+ ZWaveAdapter.toString16 homeId in
  let this_adapter := ZWaveAdapter.base (ZWaveAdapter.self w') in
  adapter_ref this_adapter = adapter_ref (ZWaveAdapter.base (ZWaveAdapter.self w))
  ∧ adapter_id this_adapter = id
  ∧ obj_get id (adapters (this (ZWaveAdapter.manager w'))) = Some this_adapter
  ∧ ∀ k a, obj_get k (adapters (this (ZWaveAdapter.manager w'))) = Some a →
      (adapter_ref a = adapter_ref this_adapter ∧ a = this_adapter
       ∧ (k = id ∨ ∃ a0, obj_get k (adapters (this (ZWaveAdapter.manager w))) = Some a0
                         ∧ adapter_ref a0 = adapter_ref this_adapter))
      ∨ (adapter_ref a ≠ adapter_ref this_adapter
         ∧ obj_get k (adapters (this (ZWaveAdapter.manager w))) = Some a).
Proof.
  intros w' id this_adapter. subst w' this_adapter.
  rewrite driverReady_exec. cbn [snd]. simpl.
  split; [done|]. split; [done|]. split.
  - rewrite obj_get_alias, obj_get_set_eq. simpl. by rewrite decide_True.
  - intros k a. rewrite obj_get_alias.
    destruct (decide (id = k)) as [<-|Hne].
    + fold id. rewrite obj_get_set_eq. simpl. rewrite decide_True by done.
      intros [= <-]. left. auto.
    + fold id. rewrite obj_get_set_ne, obj_get_alias by done.
      destruct (obj_get k (adapters (this (ZWaveAdapter.manager w)))) as [a0|] eqn:E;
        [|done]. simpl.
      destruct (decide (adapter_ref a0
                        = adapter_ref (ZWaveAdapter.base (ZWaveAdapter.self w))))
        as [Heq|Hneq]; simpl.
      * rewrite decide_True by done. intros [= <-]. left.
        split; [done|]. split; [done|]. right. by exists a0.
      * rewrite decide_False by done. intros [= <-]. by right.
Qed.


Lemma zwave_id_not_provisional (homeId : N) :
  "zwave-" +:+ ZWaveAdapter.toString16 homeId ≠ "???".
Proof. discriminate. Qed.



(** The controller (node 1) and a plug (node 2) are reported after the
    driver is ready: only the plug reaches the manager. *)
Example zwave_scan_of_controller_and_plug :
  let node (n : N) (id : string) :=
    {| ZWaveAdapter.node_ref := 100 + N.to_nat n;
       ZWaveAdapter.node_device :=
         {| device_id := id; device_adapter := 7;
            device_thing := {| thing_id := id; thing_name := "" |};
            device_properties := [] |};
       ZWaveAdapter.nodeId := n; ZWaveAdapter.zwInfo_nodeId := n |} in
  let w := ZWaveAdapter.run (λ n, n)
             [ZWaveAdapter.DriverReady 3405691582;
              ZWaveAdapter.DeviceAdded (node 1%N "zwave-cafebabe-1");
              ZWaveAdapter.DeviceAdded (node 2%N "zwave-cafebabe-2")]
             (ZWaveAdapter.construct 7 "/dev/ttyACM0" initial) in
  obj_keys (adapters (this (ZWaveAdapter.manager w))) = ["zwave-cafebabe"]
  ∧ obj_keys (devices (this (ZWaveAdapter.manager w))) = ["zwave-cafebabe-2"]
  ∧ List.filter (λ e, match e with Emit _ _ => true | _ => false end)
      (trace (ZWaveAdapter.manager w))
    = [Emit "adapter-added"
         (OfAdapter {| adapter_ref := 7; adapter_id := "zwave-cafebabe";
                       adapter_name := "ZWaveAdapter";
                       adapter_constructor_name := "ZWaveAdapter" |});
       Emit "thing-added"
         (OfThing {| thing_id := "zwave-cafebabe-2"; thing_name := "" |})].
Proof. vm_compute. done. Qed.

Example zwave_driver_failed_leaves_registry_empty :
  let w := ZWaveAdapter.run (λ n, n) [ZWaveAdapter.DriverFailed]
             (ZWaveAdapter.construct 7 "/dev/ttyACM0" initial) in
  adapters (this (ZWaveAdapter.manager w)) = []
  ∧ adapter_id (ZWaveAdapter.base (ZWaveAdapter.self w)) = "???"
  ∧ trace (ZWaveAdapter.manager w)
    = [ZWaveDriverCall "connect" ["/dev/ttyACM0"];
       ConsoleLog ["ZWave: failed to start driver"];
       ZWaveDriverCall "disconnect" ["/dev/ttyACM0"]].
Proof. vm_compute. done. Qed.

(** Driver-ready twice, with two home ids: both entries of the registry
    hold the one adapter object, which carries the id set last. *)
Example zwave_driver_ready_twice :
  let w := ZWaveAdapter.run (λ n, n)
             [ZWaveAdapter.DriverReady 10; ZWaveAdapter.DriverReady 11]
             (ZWaveAdapter.construct 7 "/dev/ttyACM0" initial) in
  let this_adapter := {| adapter_ref := 7; adapter_id := "zwave-b";
                         adapter_name := "ZWaveAdapter";
                         adapter_constructor_name := "ZWaveAdapter" |} in
  adapters (this (ZWaveAdapter.manager w))
  = [("zwave-a", this_adapter); ("zwave-b", this_adapter)]
  ∧ ZWaveAdapter.base (ZWaveAdapter.self w) = this_adapter.
Proof. vm_compute. done. Qed.

(** ** The smart-plug widget *)

Lemma not_in_classList_remove (c : string) (l : list string) :
  c ∉ SmartPlug.classList_remove c l.
Proof.
  unfold SmartPlug.classList_remove. rewrite list_elem_of_In, filter_In.
  intros [_ H]. by rewrite decide_True in H.
Qed.

Lemma classList_remove_subset (c c' : string) (l : list string) :
  c' ∈ SmartPlug.classList_remove c l → c' ∈ l.
Proof.
  unfold SmartPlug.classList_remove. rewrite !list_elem_of_In, filter_In. tauto.
Qed.

Lemma in_classList_add (c : string) (l : list string) :
  c ∈ SmartPlug.classList_add c l.
Proof.
  unfold SmartPlug.classList_add. case_decide; [done|].
  apply elem_of_app. right. apply list_elem_of_here.
Qed.

Lemma classList_add_other (c c' : string) (l : list string) :
  c' ≠ c → c' ∈ SmartPlug.classList_add c l → c' ∈ l.
Proof.
  unfold SmartPlug.classList_add. intros Hne. case_decide; [done|].
  rewrite elem_of_app, list_elem_of_singleton. tauto.
Qed.

Lemma showTransition_in_flight (p : SmartPlug.t) :
  SmartPlug.in_flight (SmartPlug.set_on SmartPlug.OnNull (SmartPlug.showTransition p)).
Proof.
  unfold SmartPlug.in_flight, SmartPlug.showTransition. simpl. split; [done|]. split.
  - intros H. apply classList_remove_subset in H. by apply not_in_classList_remove in H.
  - apply not_in_classList_remove.
Qed.

(** C7, as the code has it.  [turnOn] and [turnOff] first put the
    property in flight (neither class on nor off, cached value [null]) and
    only then issue the PUT.  A response with status 200 sets the cached
    value to the value written and shows it.  Any other response, and a
    failed request, leave the widget exactly as it was in flight (the value
    held before the write is not restored) and log one error line. *)
Theorem smart_plug_write_is_shown_in_flight_and_failures_are_logged :
  ∀ (jwt : string) (value : bool) (p : SmartPlug.t),
    let send := if value then SmartPlug.turnOn_send else SmartPlug.turnOff_send in
    let settled :=
      if value then SmartPlug.turnOn_settled else SmartPlug.turnOff_settled in
    let what := if value then "on plug" else "off switch" in
    let p1 := (send jwt p).1 in
    SmartPlug.in_flight p1
    ∧ (send jwt p).2
      = [SmartPlug.Fetch (SmartPlug.onPropertyUrl p) "PUT" [("on", JsBool value)]
           ("Bearer " +:+ jwt)]
    ∧ SmartPlug.properties_on (settled (SmartPlug.Response 200) p1).1
      = SmartPlug.OnBool value
    ∧ (if value then SmartPlug.shows_on (settled (SmartPlug.Response 200) p1).1
       else SmartPlug.shows_off (settled (SmartPlug.Response 200) p1).1)
    ∧ (∀ status, status ≠ 200%N →
         settled (SmartPlug.Response status) p1
         = (p1, [SmartPlug.Error
                   ("Status " +:+ pretty status +:+ " trying to turn " +:+ what)]))
    ∧ (∀ error,
         settled (SmartPlug.NetworkError error) p1
         = (p1, [SmartPlug.Error ("Error trying to turn " +:+ what +:+ ": " +:+ error)])).
Proof.
  intros jwt value p send settled what p1.
  assert (SmartPlug.in_flight p1) as Hfl.
  { subst p1 send. destruct value; apply showTransition_in_flight. }
  split; [done|]. destruct Hfl as (Hnull & Hon & Hoff).
  split; [by destruct value|]. split; [by destruct value|].
  split; [|split].
  - subst settled. destruct value; simpl.
    + unfold SmartPlug.shows_on, SmartPlug.showOn, SmartPlug.showPower.
      destruct (SmartPlug.number_truthy _); simpl.
      * split; [apply in_classList_add|]. intros H.
        apply classList_add_other in H; [|done].
        by apply not_in_classList_remove in H.
      * split; [apply in_classList_add|]. intros H.
        apply classList_add_other in H; [|done].
        by apply not_in_classList_remove in H.
    + unfold SmartPlug.shows_off. simpl.
      split; [apply in_classList_add|]. intros H.
      apply classList_add_other in H; [|done].
      by apply not_in_classList_remove in H.
  - intros status Hstatus. subst settled what.
    destruct value; simpl; by rewrite (proj2 (N.eqb_neq _ _) Hstatus).
  - intros error. subst settled what. by destruct value.
Qed.

(** C7 fails where it has the value revert: a plug known to be on is
    asked to turn off and the gateway answers 500.  The cached value is
    then [null], not the confirmed [true], and the widget shows neither on
    nor off; the failure is logged. *)
Lemma smart_plug_refused_write_does_not_revert :
  let plug := {| SmartPlug.classList := ["thing"; "smart-plug"; "on"];
                 SmartPlug.properties_on := SmartPlug.OnBool true;
                 SmartPlug.properties_power := Some 12%Z;
                 SmartPlug.powerLabel_innerText := "12W";
                 SmartPlug.onPropertyUrl := "/things/plug-7/properties/on" |} in
  SmartPlug.turnOff "jwt" (SmartPlug.Response 500) plug
  = ({| SmartPlug.classList := ["thing"; "smart-plug"];
        SmartPlug.properties_on := SmartPlug.OnNull;
        SmartPlug.properties_power := Some 12%Z;
        SmartPlug.powerLabel_innerText := "12W";
        SmartPlug.onPropertyUrl := "/things/plug-7/properties/on" |},
     [SmartPlug.Fetch "/things/plug-7/properties/on" "PUT" [("on", JsBool false)]
        "Bearer jwt";
      SmartPlug.Error "Status 500 trying to turn off switch"])
  ∧ SmartPlug.properties_on (SmartPlug.turnOff "jwt" (SmartPlug.Response 500) plug).1
    ≠ SmartPlug.properties_on plug.
Proof. vm_compute. split; [reflexivity | discriminate]. Qed.

Example smart_plug_accepted_write :
  let plug := {| SmartPlug.classList := ["thing"; "smart-plug"; "off"];
                 SmartPlug.properties_on := SmartPlug.OnBool false;
                 SmartPlug.properties_power := Some 12%Z;
                 SmartPlug.powerLabel_innerText := "OFF";
                 SmartPlug.onPropertyUrl := "/things/plug-7/properties/on" |} in
  SmartPlug.turnOn "jwt" (SmartPlug.Response 200) plug
  = ({| SmartPlug.classList := ["thing"; "smart-plug"; "on"];
        SmartPlug.properties_on := SmartPlug.OnBool true;
        SmartPlug.properties_power := Some 12%Z;
        SmartPlug.powerLabel_innerText := "12W";
        SmartPlug.onPropertyUrl := "/things/plug-7/properties/on" |},
     [SmartPlug.Fetch "/things/plug-7/properties/on" "PUT" [("on", JsBool true)]
        "Bearer jwt";
      SmartPlug.Log "Power 12"]).
Proof. vm_compute. reflexivity. Qed.

(** * Further properties of the manager *)

Lemma obj_delete_absent {V} (k : string) (o : JsObject V) :
  absent k o → obj_delete k o = o.
Proof.
  unfold absent. induction o as [|[k' v'] o IH]; [done|]. simpl.
  rewrite not_elem_of_cons. intros [Hne Hin].
  rewrite decide_False by done. by rewrite IH.
Qed.

Lemma obj_set_absent {V} (k : string) (v : V) (o : JsObject V) :
  absent k o → obj_set k v o = o ++ [(k, v)].
Proof.
  unfold absent. induction o as [|[k' v'] o IH]; [done|]. simpl.
  rewrite not_elem_of_cons. intros [Hne Hin].
  rewrite decide_False by done. by rewrite IH.
Qed.

Lemma obj_delete_set_absent {V} (k : string) (v : V) (o : JsObject V) :
  absent k o → obj_delete k (obj_set k v o) = o.
Proof.
  unfold absent. induction o as [|[k' v'] o IH]; simpl.
  - intros _. by rewrite decide_True.
  - rewrite not_elem_of_cons. intros [Hne Hin].
    rewrite decide_False by done. simpl. rewrite decide_False by done.
    by rewrite IH.
Qed.

Lemma obj_set_keys_present {V} (k : string) (v : V) (o : JsObject V) :
  k ∈ o.*1 → (obj_set k v o).*1 = o.*1.
Proof.
  induction o as [|[k' v'] o IH]; simpl.
  - intros H. by apply elem_of_nil in H.
  - intros H. destruct (decide (k' = k)) as [->|Hne]; [done|].
    apply elem_of_cons in H as [H|H]; [congruence|].
    simpl. f_equal. by apply IH.
Qed.

Lemma obj_delete_keys {V} (k : string) (o : JsObject V) :
  (obj_delete k o).*1 = List.filter (λ k', if decide (k' = k) then false else true) (o.*1).
Proof.
  induction o as [|[k' v'] o IH]; [done|]. simpl.
  destruct (decide (k' = k)); simpl; [done|]. f_equal. by apply IH.
Qed.

Lemma obj_set_NoDup {V} (k : string) (v : V) (o : JsObject V) :
  NoDup (o.*1) → NoDup ((obj_set k v o).*1).
Proof.
  intros Hnd. destruct (decide (k ∈ o.*1)) as [Hin|Hout].
  - by rewrite obj_set_keys_present.
  - rewrite obj_set_absent by done. rewrite fmap_app. simpl.
    apply NoDup_app. split; [done|]. split.
    + intros x Hx Hx'. apply list_elem_of_singleton in Hx'. by subst.
    + apply NoDup_singleton.
Qed.

Lemma obj_delete_NoDup {V} (k : string) (o : JsObject V) :
  NoDup (o.*1) → NoDup ((obj_delete k o).*1).
Proof.
  intros Hnd. rewrite obj_delete_keys.
  induction (o.*1) as [|k' l IH]; [done|]. simpl.
  apply NoDup_cons in Hnd as [Hk' Hl].
  destruct (decide (k' = k)); [auto|].
  apply NoDup_cons. split; [|auto].
  rewrite list_elem_of_In, filter_In, <- list_elem_of_In. tauto.
Qed.

Lemma obj_entries_length {V} (o : JsObject V) :
  List.length (obj_entries o) = List.length o.
Proof.
  unfold obj_entries.
  assert (∀ ks, (∀ k, k ∈ ks → k ∈ o.*1) →
            List.length (omap (λ k, (λ v, (k, v)) <$> obj_get k o) ks)
            = List.length ks) as H.
  { induction ks as [|k ks IH]; [done|]. intros Hks. simpl.
    destruct (obj_get_key_Some k o) as [v Hv]; [apply Hks, list_elem_of_here|].
    rewrite Hv. simpl. f_equal. apply IH.
    intros k' Hk'. by apply Hks, list_elem_of_further. }
  rewrite H.
  - by rewrite obj_keys_perm, length_fmap.
  - intros k. by rewrite obj_keys_perm.
Qed.

Lemma obj_entries_keys {V} (o : JsObject V) : (obj_entries o).*1 = obj_keys o.
Proof.
  unfold obj_entries.
  assert (∀ ks, (∀ k, k ∈ ks → k ∈ o.*1) →
            (omap (λ k, (λ v, (k, v)) <$> obj_get k o) ks).*1 = ks) as H.
  { induction ks as [|k ks IH]; [done|]. intros Hks. simpl.
    destruct (obj_get_key_Some k o) as [v Hv]; [apply Hks, list_elem_of_here|].
    rewrite Hv. simpl. f_equal. apply IH.
    intros k' Hk'. by apply Hks, list_elem_of_further. }
  apply H. intros k. by rewrite obj_keys_perm.
Qed.

Lemma calls_of_fan_out_same (method : AdapterMethod)
    (f : Adapter → list Effect) (w : World) :
  (∀ a, calls_of method (f a) = [a]) →
  calls_of method (fan_out f w) = visited w.
Proof.
  intros Hf. unfold fan_out, visited.
  induction (obj_entries (adapters (this w))) as [|[k a] l IH]; [done|].
  simpl. unfold calls_of in *. rewrite omap_app, Hf, IH. done.
Qed.

Lemma calls_of_fan_out_other (method : AdapterMethod)
    (f : Adapter → list Effect) (w : World) :
  (∀ a, calls_of method (f a) = []) →
  calls_of method (fan_out f w) = [].
Proof.
  intros Hf. unfold fan_out.
  induction (obj_entries (adapters (this w))) as [|[k a] l IH]; [done|].
  simpl. unfold calls_of in *. rewrite omap_app, Hf, IH. done.
Qed.

Lemma calls_of_app (method : AdapterMethod) (es es' : list Effect) :
  calls_of method (es ++ es') = calls_of method es ++ calls_of method es'.
Proof. apply omap_app. Qed.

Lemma idle_not_active (w : World) : idle w → ¬ session_active w.
Proof. intros [Ha Hr] [H|H]; congruence. Qed.

(** X1. With no session open, [addNewThing] opens an add session on a new
    promise, which is pending, and calls [startPairing] once on each
    adapter the registry holds, in [for ... in] order; [removeSomeThing]
    does the same with a remove session and [startUnpairing].  Nothing
    else changes: the registry and the earlier promises are as before,
    and no promise is settled. *)
Theorem pairing_request_when_idle_opens_a_session :
  ∀ w : World,
    idle w →
    (let '(p, w') := addNewThing w in
     p = List.length (promises w)
     ∧ promises w' !! p = Some Pending
     ∧ this w' = set_deferredAdd (Some {| promise := p |}) (this w)
     ∧ (∀ q, q ≠ p → promises w' !! q = promises w !! q)
     ∧ calls_of startPairing (effects_since w w') = visited w
     ∧ (∀ a method, AdapterCall a method ∈ effects_since w w' →
                    method = startPairing ∧ registered a w)
     ∧ ∀ d, settle_count d (effects_since w w') = 0)
    ∧ (let '(p, w') := removeSomeThing w in
       p = List.length (promises w)
       ∧ promises w' !! p = Some Pending
       ∧ this w' = set_deferredRemove (Some {| promise := p |}) (this w)
       ∧ (∀ q, q ≠ p → promises w' !! q = promises w !! q)
       ∧ calls_of startUnpairing (effects_since w w') = visited w
       ∧ (∀ a method, AdapterCall a method ∈ effects_since w w' →
                      method = startUnpairing ∧ registered a w)
       ∧ ∀ d, settle_count d (effects_since w w') = 0).
Proof.
  intros w [Ha Hr]. split.
  - rewrite addNewThing_idle by done.
    erewrite effects_since_app by reflexivity. simpl.
    split; [done|]. split; [|split; [done|split; [|split; [|split]]]].
    + rewrite lookup_app_r by lia. by rewrite Nat.sub_diag.
    + intros q Hq. by apply lookup_snoc_other.
    + by apply calls_of_fan_out_same.
    + intros a method. rewrite elem_of_fan_out. intros (a' & Hreg & H).
      apply elem_of_cons in H as [H|H]; [done|].
      by apply list_elem_of_singleton in H as [= -> ->].
    + intros d. by apply settle_count_fan_out.
  - rewrite removeSomeThing_idle by done.
    erewrite effects_since_app by reflexivity. simpl.
    split; [done|]. split; [|split; [done|split; [|split; [|split]]]].
    + rewrite lookup_app_r by lia. by rewrite Nat.sub_diag.
    + intros q Hq. by apply lookup_snoc_other.
    + by apply calls_of_fan_out_same.
    + intros a method. rewrite call_in_fan_out. tauto.
    + intros d. by apply settle_count_fan_out.
Qed.

Lemma pairing_request_when_idle_opens_a_session_witness :
  let a := {| adapter_ref := 1; adapter_id := "A";
              adapter_name := ""; adapter_constructor_name := "AdapterA" |} in
  let w := run [AddAdapter a] initial in
  (let '(p, w') := addNewThing w in
   p = List.length (promises w)
   ∧ promises w' !! p = Some Pending
   ∧ this w' = set_deferredAdd (Some {| promise := p |}) (this w)
   ∧ (∀ q, q ≠ p → promises w' !! q = promises w !! q)
   ∧ calls_of startPairing (effects_since w w') = visited w
   ∧ (∀ a method, AdapterCall a method ∈ effects_since w w' →
                  method = startPairing ∧ registered a w)
   ∧ ∀ d, settle_count d (effects_since w w') = 0)
  ∧ (let '(p, w') := removeSomeThing w in
     p = List.length (promises w)
     ∧ promises w' !! p = Some Pending
     ∧ this w' = set_deferredRemove (Some {| promise := p |}) (this w)
     ∧ (∀ q, q ≠ p → promises w' !! q = promises w !! q)
     ∧ calls_of startUnpairing (effects_since w w') = visited w
     ∧ (∀ a method, AdapterCall a method ∈ effects_since w w' →
                    method = startUnpairing ∧ registered a w)
     ∧ ∀ d, settle_count d (effects_since w w') = 0).
Proof.
  intros a w.
  apply (pairing_request_when_idle_opens_a_session w).
  split; reflexivity.
Defined.

Lemma set_deferredAdd_back (m : t) (d : option Deferred) :
  deferredAdd m = None → set_deferredAdd None (set_deferredAdd d m) = m.
Proof. destruct m. simpl. by intros ->. Qed.

Lemma set_deferredRemove_back (m : t) (d : option Deferred) :
  deferredRemove m = None → set_deferredRemove None (set_deferredRemove d m) = m.
Proof. destruct m. simpl. by intros ->. Qed.

Lemma lookup_snoc_new {A} (l : list A) (x : A) : (l ++ [x]) !! List.length l = Some x.
Proof. rewrite lookup_app_r by lia. by rewrite Nat.sub_diag. Qed.

(** X2. A request made with no session open and cancelled right away
    leaves the manager's fields exactly as they were before the request:
    the promise the request returned is rejected with the cancel reason,
    the earlier promises are untouched, and the adapters that were told to
    start are the ones told to cancel, in the same order. *)
Theorem request_then_cancel_restores_the_manager :
  ∀ w : World,
    idle w →
    (let '(p, w1) := addNewThing w in
     let w2 := (cancelAddNewThing w1).2 in
     this w2 = this w
     ∧ promises w2 = promises w ++ [Rejected "addNewThing cancelled"]
     ∧ promises w2 !! p = Some (Rejected "addNewThing cancelled")
     ∧ calls_of cancelPairing (effects_since w1 w2)
       = calls_of startPairing (effects_since w w1))
    ∧ (let '(p, w1) := removeSomeThing w in
       let w2 := (cancelRemoveSomeThing w1).2 in
       this w2 = this w
       ∧ promises w2 = promises w ++ [Rejected "removeSomeThing cancelled"]
       ∧ promises w2 !! p = Some (Rejected "removeSomeThing cancelled")
       ∧ calls_of cancelUnpairing (effects_since w1 w2)
         = calls_of startUnpairing (effects_since w w1)).
Proof.
  intros w [Ha Hr]. split.
  - rewrite addNewThing_idle by done.
    rewrite (cancelAddNewThing_active _ {| promise := List.length (promises w) |})
      by done.
    cbn [snd this promises trace].
    erewrite (effects_since_app w) by reflexivity.
    erewrite effects_since_app by (simpl; reflexivity).
    cbn [promise]. rewrite settle_fresh, set_deferredAdd_back by done.
    split; [done|]. split; [done|]. split; [apply lookup_snoc_new|].
    rewrite calls_of_app.
    rewrite (calls_of_fan_out_same cancelPairing) by done.
    rewrite (calls_of_fan_out_same startPairing) by done.
    unfold visited. simpl. by rewrite app_nil_r.
  - rewrite removeSomeThing_idle by done.
    rewrite (cancelRemoveSomeThing_active _ {| promise := List.length (promises w) |})
      by done.
    cbn [snd this promises trace].
    erewrite (effects_since_app w) by reflexivity.
    erewrite effects_since_app by (simpl; reflexivity).
    cbn [promise]. rewrite settle_fresh, set_deferredRemove_back by done.
    split; [done|]. split; [done|]. split; [apply lookup_snoc_new|].
    rewrite calls_of_app.
    rewrite (calls_of_fan_out_same cancelUnpairing) by done.
    rewrite (calls_of_fan_out_same startUnpairing) by done.
    unfold visited. simpl. by rewrite app_nil_r.
Qed.

Lemma request_then_cancel_restores_the_manager_witness :
  let a := {| adapter_ref := 1; adapter_id := "A";
              adapter_name := ""; adapter_constructor_name := "AdapterA" |} in
  let w := run [AddAdapter a] initial in
  (let '(p, w1) := addNewThing w in
   let w2 := (cancelAddNewThing w1).2 in
   this w2 = this w
   ∧ promises w2 = promises w ++ [Rejected "addNewThing cancelled"]
   ∧ promises w2 !! p = Some (Rejected "addNewThing cancelled")
   ∧ calls_of cancelPairing (effects_since w1 w2)
     = calls_of startPairing (effects_since w w1))
  ∧ (let '(p, w1) := removeSomeThing w in
     let w2 := (cancelRemoveSomeThing w1).2 in
     this w2 = this w
     ∧ promises w2 = promises w ++ [Rejected "removeSomeThing cancelled"]
     ∧ promises w2 !! p = Some (Rejected "removeSomeThing cancelled")
     ∧ calls_of cancelUnpairing (effects_since w1 w2)
       = calls_of startUnpairing (effects_since w w1)).
Proof.
  intros a w. apply (request_then_cancel_restores_the_manager w).
  split; reflexivity.
Defined.


Lemma obj_entries_set_present {V} (k : string) (v : V) (o : JsObject V) :
  k ∈ o.*1 →
  obj_entries (obj_set k v o)
  = (λ kv : string * V, if decide (kv.1 = k) then (k, v) else kv) <$> obj_entries o.
Proof.
  intros Hin. unfold obj_entries, obj_keys. rewrite obj_set_keys_present by done.
  induction (_ ++ _) as [|k' ks IH]; [done|]. simpl.
  destruct (decide (k = k')) as [<-|Hne].
  - rewrite obj_get_set_eq.
    destruct (obj_get_key_Some k o Hin) as [v0 ->]. simpl.
    rewrite decide_True by done. f_equal. apply IH.
  - rewrite obj_get_set_ne by done.
    destruct (obj_get k' o); simpl; [|apply IH].
    rewrite decide_False by done. f_equal. apply IH.
Qed.

Lemma getThings_exec (w : World) :
  getThings w
  = ((λ kv : string * Device, Some (Device_getThing kv.2))
       <$> obj_entries (devices (this w)), w).
Proof.
  unfold getThings, read, mbind, M_bind.
  assert (∀ l : list (string * Device),
            (∀ kv, kv ∈ l → obj_get kv.1 (devices (this w)) = Some kv.2) →
            mapM (λ kv : string * Device, getThing kv.1) l w
            = ((λ kv : string * Device, Some (Device_getThing kv.2)) <$> l, w)) as H.
  { induction l as [|kv l IH]; intros Hl; [done|].
    simpl. unfold mbind, M_bind at 1. unfold getThing at 1.
    unfold getDevice, read, mbind, M_bind, mret, M_ret.
    rewrite (Hl kv) by apply list_elem_of_here.
    match goal with |- (let '(a, w') := ?m in _) = _ =>
      replace m with ((λ kv : string * Device, Some (Device_getThing kv.2)) <$> l, w)
    end; [done|].
    symmetry. apply IH. intros kv' Hkv'. by apply Hl, list_elem_of_further. }
  apply H. intros [k d] Hkv. by apply elem_of_obj_entries.
Qed.

(** X4. [getThings] walks the keys of the registry in [for ... in]
    order and pushes [getThing] of each: the result is, position by
    position, the thing of the device filed under the key at that
    position of the key order.  So it has one entry per key, never an
    [undefined], and holds exactly the things of the registered devices;
    it changes nothing. *)
Theorem getThings_lists_every_registered_thing :
  ∀ w : World,
    let '(things, w') := getThings w in
    w' = w
    ∧ things = (λ id, (getThing id w).1) <$> obj_keys (devices (this w))
    ∧ (∀ (i : nat) (id : string),
         obj_keys (devices (this w)) !! i = Some id →
         ∃ device, (getDevice id w).1 = Some device
                   ∧ things !! i = Some (Some (Device_getThing device)))
    ∧ List.length things = List.length (devices (this w))
    ∧ (None ∉ things)
    ∧ ∀ thing, Some thing ∈ things
        ↔ ∃ id device, (getDevice id w).1 = Some device
                       ∧ thing = Device_getThing device.
Proof.
  intros w. rewrite getThings_exec.
  assert (∀ (i : nat) (id : string),
            obj_keys (devices (this w)) !! i = Some id →
            ∃ device, obj_get id (devices (this w)) = Some device
                      ∧ obj_entries (devices (this w)) !! i = Some (id, device))
    as Hat.
  { intros i id. rewrite <- obj_entries_keys, list_lookup_fmap.
    destruct (obj_entries (devices (this w)) !! i) as [[k device]|] eqn:Hi;
      [|done].
    intros [= <-]. exists device. split; [|done].
    by eapply elem_of_obj_entries, list_elem_of_lookup_2. }
  split; [done|]. split; [|split; [|split; [|split]]].
  - rewrite <- obj_entries_keys, <- list_fmap_compose.
    apply list_fmap_ext. intros i [k device] Hi. simpl.
    apply list_elem_of_lookup_2, elem_of_obj_entries in Hi.
    unfold getThing, getDevice, read, mbind, M_bind, mret, M_ret. simpl.
    by rewrite Hi.
  - intros i id Hi. destruct (Hat i id Hi) as (device & Hget & Hentry).
    exists device. split; [done|]. by rewrite list_lookup_fmap, Hentry.
  - by rewrite length_fmap, obj_entries_length.
  - rewrite list_elem_of_fmap. by intros (kv & ? & _).
  - intros thing. rewrite list_elem_of_fmap. split.
    + intros ([id device] & [= ->] & Hin). exists id, device.
      split; [|done]. by apply elem_of_obj_entries.
    + intros (id & device & Hget & ->). exists (id, device).
      split; [done|]. by apply elem_of_obj_entries.
Qed.

(** Three devices reported under the ids 'b', '10' and '2': the things
    come in the order of [for ... in], the whole numbers first and
    ascending, then the names. *)
Example things_come_in_key_order :
  let device := λ id, {| device_id := id; device_adapter := 0;
                         device_thing := {| thing_id := id; thing_name := "plug" |};
                         device_properties := [] |} in
  (getThings
     (handleDeviceAdded (device "2")
        (handleDeviceAdded (device "10")
           (handleDeviceAdded (device "b") initial).2).2).2).1
  = [Some {| thing_id := "2"; thing_name := "plug" |};
     Some {| thing_id := "10"; thing_name := "plug" |};
     Some {| thing_id := "b"; thing_name := "plug" |}].
Proof. vm_compute. done. Qed.

(** X5. Reporting a device under an id the registry already holds
    replaces the device in place: the key keeps its position, so
    [getThings] lists the same number of things in the same order, with
    the new device's thing where the old one was. *)
Theorem reported_again_device_keeps_its_place :
  ∀ (device old : Device) (w : World),
    (getDevice (device_id device) w).1 = Some old →
    let w' := (handleDeviceAdded device w).2 in
    obj_keys (devices (this w')) = obj_keys (devices (this w))
    ∧ (getThings w').1
      = (λ kv : string * Device,
           if decide (kv.1 = device_id device)
           then Some (Device_getThing device)
           else Some (Device_getThing kv.2))
          <$> obj_entries (devices (this w)).
Proof.
  intros device old w Hold w'. subst w'.
  apply obj_get_Some_key in Hold.
  rewrite getThings_exec. cbn [fst].
  destruct (handleDeviceAdded_this device w) as [_ ->].
  split.
  - unfold obj_keys. by rewrite obj_set_keys_present.
  - rewrite obj_entries_set_present by done. rewrite <- list_fmap_compose.
    apply list_fmap_ext. intros i [k d] _. simpl. by case_decide.
Qed.

Lemma reported_again_device_keeps_its_place_witness :
  let plug name := {| device_id := "plug-7"; device_adapter := 1;
                      device_thing := {| thing_id := "plug-7"; thing_name := name |};
                      device_properties := [] |} in
  let lamp := {| device_id := "lamp-3"; device_adapter := 1;
                 device_thing := {| thing_id := "lamp-3"; thing_name := "Lamp" |};
                 device_properties := [] |} in
  let w := run [HandleDeviceAdded (plug "Plug"); HandleDeviceAdded lamp] initial in
  let w' := (handleDeviceAdded (plug "Heater") w).2 in
  obj_keys (devices (this w')) = obj_keys (devices (this w))
  ∧ (getThings w').1
    = (λ kv : string * Device,
         if decide (kv.1 = device_id (plug "Heater"))
         then Some (Device_getThing (plug "Heater"))
         else Some (Device_getThing kv.2))
        <$> obj_entries (devices (this w)).
Proof.
  intros plug lamp w.
  apply (reported_again_device_keeps_its_place (plug "Heater") (plug "Plug") w).
  reflexivity.
Defined.

(** What a call can do to the sessions and the promises: nothing, open a
    session on a new pending promise, turn a request down on a new
    rejected promise, or close the active session by settling its
    promise. *)
Lemma exec_sessions (c : Call) (w : World) :
  let w' := (exec c w).2 in
  (promises w' = promises w
   ∧ deferredAdd (this w') = deferredAdd (this w)
   ∧ deferredRemove (this w') = deferredRemove (this w))
  ∨ (idle w ∧ promises w' = promises w ++ [Pending]
     ∧ ((deferredAdd (this w') = Some {| promise := List.length (promises w) |}
         ∧ deferredRemove (this w') = None)
        ∨ (deferredAdd (this w') = None
           ∧ deferredRemove (this w')
             = Some {| promise := List.length (promises w) |})))
  ∨ (∃ reason, promises w' = promises w ++ [Rejected reason]
               ∧ deferredAdd (this w') = deferredAdd (this w)
               ∧ deferredRemove (this w') = deferredRemove (this w))
  ∨ (∃ d s, s ≠ Pending
            ∧ promises w' = settle (promise d) s (promises w)
            ∧ ((deferredAdd (this w) = Some d ∧ deferredAdd (this w') = None
                ∧ deferredRemove (this w') = deferredRemove (this w))
               ∨ (deferredRemove (this w) = Some d ∧ deferredRemove (this w') = None
                  ∧ deferredAdd (this w') = deferredAdd (this w)))).
Proof.
  intros w'. subst w'. destruct c; unfold exec.
  - left. by rewrite addAdapter_exec.
  - unfold mbind, M_bind, mret, M_ret.
    destruct (session_active_dec w) as [Hbusy|[Ha Hr]].
    + right. right. left. rewrite addNewThing_busy by done. by eexists.
    + right. left. rewrite addNewThing_idle by done. simpl.
      split; [by split|]. split; [done|]. by left.
  - destruct (deferredAdd (this w)) as [d0|] eqn:Ha.
    + right. right. right. rewrite (cancelAddNewThing_active w d0) by done.
      exists d0. eexists. split; [|split; [reflexivity|]]; [done|]. left. auto.
    + left. by rewrite cancelAddNewThing_idle.
  - destruct (deferredRemove (this w)) as [d0|] eqn:Hr.
    + right. right. right. rewrite (cancelRemoveSomeThing_active w d0) by done.
      exists d0. eexists. split; [|split; [reflexivity|]]; [done|]. right. auto.
    + left. by rewrite cancelRemoveSomeThing_idle.
  - left. by rewrite setProperty_exec.
  - destruct (deferredAdd (this w)) as [d0|] eqn:Ha.
    + right. right. right. rewrite (handleDeviceAdded_active device w d0) by done.
      exists d0. eexists. split; [|split; [reflexivity|]]; [done|]. left. auto.
    + left. rewrite handleDeviceAdded_idle by done. simpl. auto.
  - destruct (deferredRemove (this w)) as [d0|] eqn:Hr.
    + right. right. right. rewrite (handleDeviceRemoved_active device w d0) by done.
      exists d0. eexists. split; [|split; [reflexivity|]]; [done|]. right. auto.
    + left. rewrite handleDeviceRemoved_idle by done. simpl. auto.
  - unfold mbind, M_bind, mret, M_ret.
    destruct (session_active_dec w) as [Hbusy|[Ha Hr]].
    + right. right. left. rewrite removeSomeThing_busy by done. by eexists.
    + right. left. rewrite removeSomeThing_idle by done. simpl.
      split; [by split|]. split; [done|]. by right.
  - left. by rewrite unloadAdapters_exec.
Qed.

Lemma pending_is_active_exec (c : Call) (w : World) :
  consistent w →
  (∀ p, promises w !! p = Some Pending →
        deferredAdd (this w) = Some {| promise := p |}
        ∨ deferredRemove (this w) = Some {| promise := p |}) →
  ∀ p, promises (exec c w).2 !! p = Some Pending →
       deferredAdd (this (exec c w).2) = Some {| promise := p |}
       ∨ deferredRemove (this (exec c w).2) = Some {| promise := p |}.
Proof.
  intros Hw Hinv p.
  destruct (exec_sessions c w)
    as [(-> & -> & ->)|[([Ha Hr] & -> & Hnew)|[(r & -> & -> & ->)|(d & s' & Hs' & -> & Hclose)]]].
  - apply Hinv.
  - intros Hp. destruct (decide (p = List.length (promises w))) as [->|Hne].
    + destruct Hnew as [[-> _]|[_ ->]]; auto.
    + rewrite lookup_snoc_other in Hp by done.
      destruct (Hinv p Hp); congruence.
  - intros Hp. destruct (decide (p = List.length (promises w))) as [->|Hne].
    + by rewrite lookup_snoc_new in Hp.
    + rewrite lookup_snoc_other in Hp by done. by apply Hinv.
  - intros Hp. exfalso.
    assert (promises w !! promise d = Some Pending) as Hd.
    { destruct Hclose as [(Hd & _)|(Hd & _)];
        [by apply (add_pending w Hw) | by apply (remove_pending w Hw)]. }
    destruct (decide (promise d = p)) as [<-|Hne].
    + rewrite settle_pending in Hp by done. congruence.
    + rewrite settle_other in Hp by done.
      pose proof (one_session w Hw) as Hone. unfold at_most_one_session in Hone.
      destruct (Hinv p Hp) as [Hp'|Hp'], Hclose as [(Hd' & _)|(Hd' & _)];
        destruct Hone; by simplify_eq/=.
Qed.

(** X7. In every world the manager can be in, a promise that is still
    pending is the promise of the session that is open: every other
    promise handed out by [addNewThing] or [removeSomeThing] has been
    settled.  So at most one promise is pending at a time. *)
Theorem only_the_open_session_is_pending :
  ∀ (calls : list Call) (p : nat),
    let w := run calls initial in
    promises w !! p = Some Pending →
    deferredAdd (this w) = Some {| promise := p |}
    ∨ deferredRemove (this w) = Some {| promise := p |}.
Proof.
  intros calls.
  assert (∀ w, consistent w →
            (∀ p, promises w !! p = Some Pending →
                  deferredAdd (this w) = Some {| promise := p |}
                  ∨ deferredRemove (this w) = Some {| promise := p |}) →
            ∀ p, promises (run calls w) !! p = Some Pending →
                 deferredAdd (this (run calls w)) = Some {| promise := p |}
                 ∨ deferredRemove (this (run calls w)) = Some {| promise := p |}) as H.
  { induction calls as [|c calls IH]; intros w Hw Hinv; [done|]. simpl.
    apply IH; [by apply consistent_exec | by apply pending_is_active_exec]. }
  intros p w. apply H; [apply consistent_initial|]. intros q Hq. done.
Qed.

Lemma only_the_open_session_is_pending_witness :
  let w := run [AddNewThing; RemoveSomeThing; CancelAddNewThing; RemoveSomeThing]
             initial in
  deferredAdd (this w) = Some {| promise := 2 |}
  ∨ deferredRemove (this w) = Some {| promise := 2 |}.
Proof.
  intros w.
  apply (only_the_open_session_is_pending
           [AddNewThing; RemoveSomeThing; CancelAddNewThing; RemoveSomeThing] 2).
  reflexivity.
Defined.

Ltac in_effects :=
  repeat (rewrite ?elem_of_app, ?elem_of_cons); auto 12.

Lemma reachable_consistent (calls : list Call) : consistent (run calls initial).
Proof. apply consistent_run, consistent_initial. Qed.

(** X8. A report of the other kind does not touch the open session, in
    any world the manager can be in: while an add session is open,
    [handleDeviceRemoved] only unregisters the device and publishes
    thing-removed, and while a remove session is open, [handleDeviceAdded]
    only registers the device and publishes thing-added.  The session
    stays open, its promise stays pending and no adapter is called. *)
Theorem report_of_the_other_kind_leaves_the_session_open :
  ∀ (calls : list Call) (d : Deferred) (device : Device),
    let w := run calls initial in
    (deferredAdd (this w) = Some d →
     let w' := (handleDeviceRemoved device w).2 in
     deferredAdd (this w') = Some d
     ∧ deferredRemove (this w') = None
     ∧ promises w' = promises w
     ∧ promises w' !! promise d = Some Pending
     ∧ effects_since w w'
       = [Emit "thing-removed" (OfThing (Device_getThing device));
          ConsoleLog ["AdapterManager: handleDeviceRemoved"]])
    ∧ (deferredRemove (this w) = Some d →
       let w' := (handleDeviceAdded device w).2 in
       deferredRemove (this w') = Some d
       ∧ deferredAdd (this w') = None
       ∧ promises w' = promises w
       ∧ promises w' !! promise d = Some Pending
       ∧ effects_since w w'
         = [Emit "thing-added" (OfThing (Device_getThing device))]).
Proof.
  intros calls d device w.
  pose proof (reachable_consistent calls) as Hw. fold w in Hw.
  pose proof (one_session w Hw) as Hone. unfold at_most_one_session in Hone.
  split.
  - intros Ha w'. subst w'.
    assert (deferredRemove (this w) = None) as Hr by (destruct Hone; congruence).
    rewrite handleDeviceRemoved_idle by done. cbn [snd].
    erewrite effects_since_app by reflexivity. simpl.
    repeat split; try done. by apply (add_pending w Hw).
  - intros Hr w'. subst w'.
    assert (deferredAdd (this w) = None) as Ha by (destruct Hone; congruence).
    rewrite handleDeviceAdded_idle by done. cbn [snd].
    erewrite effects_since_app by reflexivity. simpl.
    repeat split; try done. by apply (remove_pending w Hw).
Qed.

(** X9. [handleDeviceRemoved] does not look whether the device is
    registered: for a device the registry does not hold, it leaves the
    registry of devices as it is, still publishes thing-removed and, when
    a remove session is open, resolves that session with the device's
    thing. *)
Theorem removal_of_an_unregistered_device_resolves_the_session :
  ∀ (calls : list Call) (d : Deferred) (device : Device),
    let w := run calls initial in
    let w' := (handleDeviceRemoved device w).2 in
    absent (device_id device) (devices (this w)) →
    deferredRemove (this w) = Some d →
    devices (this w') = devices (this w)
    ∧ Emit "thing-removed" (OfThing (Device_getThing device)) ∈ effects_since w w'
    ∧ DeferredResolve d (Device_getThing device) ∈ effects_since w w'
    ∧ promises w' !! promise d = Some (Resolved (Device_getThing device))
    ∧ deferredRemove (this w') = None.
Proof.
  intros calls d device w w' Habs Hr. subst w'.
  pose proof (reachable_consistent calls) as Hw. fold w in Hw.
  rewrite (handleDeviceRemoved_active device w d) by done. cbn [snd].
  erewrite effects_since_app by reflexivity. simpl.
  split; [by apply obj_delete_absent|]. split; [in_effects|]. split; [in_effects|].
  split; [|done]. apply settle_pending. by apply (remove_pending w Hw).
Qed.

Lemma removal_of_an_unregistered_device_resolves_the_session_witness :
  let ghost := {| device_id := "ghost"; device_adapter := 9;
                  device_thing := {| thing_id := "ghost"; thing_name := "" |};
                  device_properties := [] |} in
  let w := run [RemoveSomeThing] initial in
  let w' := (handleDeviceRemoved ghost w).2 in
  devices (this w') = devices (this w)
  ∧ Emit "thing-removed" (OfThing (Device_getThing ghost)) ∈ effects_since w w'
  ∧ DeferredResolve {| promise := 0 |} (Device_getThing ghost) ∈ effects_since w w'
  ∧ promises w' !! 0 = Some (Resolved (Device_getThing ghost))
  ∧ deferredRemove (this w') = None.
Proof.
  intros ghost.
  apply (removal_of_an_unregistered_device_resolves_the_session
           [RemoveSomeThing] {| promise := 0 |} ghost).
  - intros H. by apply elem_of_nil in H.
  - reflexivity.
Defined.

(** X10. An adapter registered while an add session is open is not told
    to start pairing: [addAdapter] calls no adapter and leaves the session
    as it is.  It is nevertheless told to cancel when the session is
    cancelled, and when another adapter's device resolves the session. *)
Theorem adapter_registered_during_a_session_is_only_cancelled :
  ∀ (w : World) (d : Deferred) (adapter : Adapter) (device : Device),
    let named := with_name adapter (adapter_constructor_name adapter) in
    let w1 := (addAdapter adapter w).2 in
    deferredAdd (this w) = Some d →
    device_adapter device ≠ adapter_ref adapter →
    (∀ a method, AdapterCall a method ∉ effects_since w w1)
    ∧ deferredAdd (this w1) = Some d
    ∧ promises w1 = promises w
    ∧ AdapterCall named cancelPairing ∈ effects_since w1 (cancelAddNewThing w1).2
    ∧ AdapterCall named cancelPairing
        ∈ effects_since w1 (handleDeviceAdded device w1).2.
Proof.
  intros w d adapter device named w1 Ha Hne. subst w1.
  rewrite addAdapter_exec. cbn [snd].
  erewrite (effects_since_app w) by reflexivity.
  assert (registered named
            {| this := set_adapters
                         (obj_set (adapter_id adapter) named (adapters (this w)))
                         (this w);
               promises := promises w;
               trace := trace w ++ [Emit "adapter-added" (OfAdapter named)] |})
    as Hreg.
  { exists (adapter_id adapter). simpl. apply obj_get_set_eq. }
  split; [no_call|]. split; [done|]. split; [done|]. split.
  - rewrite (cancelAddNewThing_active _ d) by done. cbn [snd].
    erewrite effects_since_app by reflexivity.
    apply elem_of_app. left. by apply call_in_fan_out.
  - rewrite (handleDeviceAdded_active device _ d) by done. cbn [snd].
    erewrite effects_since_app by reflexivity.
    apply call_in_resolution; [no_call | no_call |].
    split; [done|]. split; [done|]. simpl. congruence.
Qed.

Lemma adapter_registered_during_a_session_is_only_cancelled_witness :
  let late := {| adapter_ref := 2; adapter_id := "late";
                 adapter_name := ""; adapter_constructor_name := "LateAdapter" |} in
  let plug := {| device_id := "plug-7"; device_adapter := 1;
                 device_thing := {| thing_id := "plug-7"; thing_name := "Plug" |};
                 device_properties := [] |} in
  let w := run [AddNewThing] initial in
  let named := with_name late "LateAdapter" in
  let w1 := (addAdapter late w).2 in
  (∀ a method, AdapterCall a method ∉ effects_since w w1)
  ∧ deferredAdd (this w1) = Some {| promise := 0 |}
  ∧ promises w1 = promises w
  ∧ AdapterCall named cancelPairing ∈ effects_since w1 (cancelAddNewThing w1).2
  ∧ AdapterCall named cancelPairing
      ∈ effects_since w1 (handleDeviceAdded plug w1).2.
Proof.
  intros late plug w.
  apply (adapter_registered_during_a_session_is_only_cancelled
           w {| promise := 0 |} late plug).
  - reflexivity.
  - discriminate.
Defined.

(** X11. [unloadAdapters] calls [unload] once on each adapter the
    registry holds and changes nothing else: the adapters stay
    registered and an open session stays open.  A request made afterwards
    with no session open is still fanned out to all of them. *)
Theorem unloadAdapters_keeps_the_registry :
  ∀ w : World,
    let w' := (unloadAdapters w).2 in
    this w' = this w
    ∧ promises w' = promises w
    ∧ calls_of unload (effects_since w w') = visited w
    ∧ (∀ a method, AdapterCall a method ∈ effects_since w w' →
                   method = unload ∧ registered a w)
    ∧ (idle w →
       calls_of startPairing (effects_since w' (addNewThing w').2) = visited w).
Proof.
  intros w w'. subst w'. rewrite unloadAdapters_exec. cbn [snd].
  erewrite (effects_since_app w) by reflexivity. simpl.
  split; [done|]. split; [done|]. split; [|split].
  - by apply calls_of_fan_out_same.
  - intros a method. rewrite elem_of_fan_out. intros (a' & Hreg & H).
    apply elem_of_cons in H as [H|H]; [done|].
    by apply list_elem_of_singleton in H as [= -> ->].
  - intros [Ha Hr]. rewrite addNewThing_idle by done. cbn [snd].
    erewrite effects_since_app by (simpl; reflexivity).
    by rewrite calls_of_fan_out_same.
Qed.

(** * Loading the Z-Wave adapter *)

Lemma scan_no_port {S} (callback : ZWaveLoader.CallbackArgs → S → S)
    (ports : list ZWaveLoader.Port) (s : S) :
  (∀ q, q ∈ ports → ZWaveLoader.isZWavePort q = false) →
  ZWaveLoader.scan S callback ports s = (false, s).
Proof.
  induction ports as [|q ports IH]; intros H; [done|]. simpl.
  rewrite (H q) by apply list_elem_of_here. apply IH.
  intros q' Hq'. by apply H, list_elem_of_further.
Qed.

Lemma scan_first_port {S} (callback : ZWaveLoader.CallbackArgs → S → S)
    (before after : list ZWaveLoader.Port) (port : ZWaveLoader.Port) (s : S) :
  (∀ q, q ∈ before → ZWaveLoader.isZWavePort q = false) →
  ZWaveLoader.isZWavePort port = true →
  ZWaveLoader.scan S callback (before ++ port :: after) s
  = (true, callback (ZWaveLoader.WithPort port) s).
Proof.
  induction before as [|q before IH]; intros H Hport; simpl.
  - by rewrite Hport.
  - rewrite (H q) by apply list_elem_of_here. apply IH; [|done].
    intros q' Hq'. by apply H, list_elem_of_further.
Qed.

(** X12. When [SerialPort.list] reports no error, loading builds an
    adapter for the first port of the list that is a Z-Wave stick, and
    for no other, however many sticks are listed; the adapter is built
    with the provisional id and connected, but not registered.  When no
    port is a Z-Wave stick, nothing is built and one error line is
    written. *)
Theorem loading_builds_an_adapter_for_the_first_zwave_port :
  ∀ (ref : ObjRef) (ports : list ZWaveLoader.Port) (s : ZWaveLoader.State),
    let result := ZWaveLoader.loadZWaveAdapters ref None (Some ports) s in
    result.1 = ZWaveLoader.Returned
    ∧ (∀ before port after,
         ports = before ++ port :: after →
         (∀ q, q ∈ before → ZWaveLoader.isZWavePort q = false) →
         ZWaveLoader.isZWavePort port = true →
         ZWaveLoader.built result.2
           = ZWaveLoader.built s
             ++ [ZWaveAdapter.constructor (ref + List.length (ZWaveLoader.built s))
                   (ZWaveLoader.comName port)]
         ∧ ZWaveLoader.console result.2
           = ZWaveLoader.console s
             ++ [ZWaveLoader.ConsoleInfo
                   ["Found ZWave port @"; ZWaveLoader.comName port]]
         ∧ this (ZWaveLoader.manager result.2) = this (ZWaveLoader.manager s)
         ∧ effects_since (ZWaveLoader.manager s) (ZWaveLoader.manager result.2)
           = [ZWaveDriverCall "connect" [ZWaveLoader.comName port]])
    ∧ ((∀ q, q ∈ ports → ZWaveLoader.isZWavePort q = false) →
       ZWaveLoader.built result.2 = ZWaveLoader.built s
       ∧ ZWaveLoader.console result.2
         = ZWaveLoader.console s
           ++ [ZWaveLoader.ConsoleError ["Unable to find ZWave adapter"]]
       ∧ ZWaveLoader.manager result.2 = ZWaveLoader.manager s).
Proof.
  intros ref ports s result. subst result.
  unfold ZWaveLoader.loadZWaveAdapters, ZWaveLoader.listPortsCallback.
  split; [|split].
  - by destruct (ZWaveLoader.scan _ _ ports s) as [[] s'].
  - intros before port after -> Hbefore Hport.
    rewrite scan_first_port by done. simpl.
    split; [done|]. split; [done|]. split; [done|].
    by erewrite effects_since_app by reflexivity.
  - intros Hnone. by rewrite scan_no_port.
Qed.

Example loading_with_two_sticks :
  let stick name := {| ZWaveLoader.comName := name;
                       ZWaveLoader.vendorId := Some "0x0658";
                       ZWaveLoader.productId := Some "0x0200" |} in
  let modem := {| ZWaveLoader.comName := "/dev/ttyS0";
                  ZWaveLoader.vendorId := None;
                  ZWaveLoader.productId := None |} in
  let s := {| ZWaveLoader.manager := initial; ZWaveLoader.console := [];
              ZWaveLoader.built := [] |} in
  let result := ZWaveLoader.loadZWaveAdapters 7 None
                  (Some [modem; stick "/dev/ttyACM0"; stick "/dev/ttyACM1"]) s in
  ZWaveLoader.built result.2 = [ZWaveAdapter.constructor 7 "/dev/ttyACM0"]
  ∧ ZWaveLoader.console result.2
    = [ZWaveLoader.ConsoleInfo ["Found ZWave port @"; "/dev/ttyACM0"]]
  ∧ adapters (this (ZWaveLoader.manager result.2)) = [].
Proof. vm_compute. done. Qed.

(** X13. An error reported by [SerialPort.list] does not end the
    search: the callback is called with the error, which writes the error
    line, and the ports are scanned all the same, so that an adapter is
    still built when a Z-Wave stick is listed, and a second error line is
    written when none is.  When the listing gives no array of ports, the
    error line is written and the scan throws. *)
Theorem serial_port_error_does_not_end_the_search :
  ∀ (ref : ObjRef) (message : string) (s : ZWaveLoader.State),
    let logged :=
      {| ZWaveLoader.manager := ZWaveLoader.manager s;
         ZWaveLoader.console :=
           ZWaveLoader.console s
           ++ [ZWaveLoader.ConsoleError ["Unable to find ZWave adapter"]];
         ZWaveLoader.built := ZWaveLoader.built s |} in
    (∀ ports,
       ZWaveLoader.loadZWaveAdapters ref (Some message) (Some ports) s
       = ZWaveLoader.loadZWaveAdapters ref None (Some ports) logged)
    ∧ (∀ ports port,
         port ∈ ports → ZWaveLoader.isZWavePort port = true →
         List.length
           (ZWaveLoader.built
              (ZWaveLoader.loadZWaveAdapters ref (Some message) (Some ports) s).2)
         = S (List.length (ZWaveLoader.built s)))
    ∧ (∀ ports,
         (∀ q, q ∈ ports → ZWaveLoader.isZWavePort q = false) →
         ZWaveLoader.console
           (ZWaveLoader.loadZWaveAdapters ref (Some message) (Some ports) s).2
         = ZWaveLoader.console s
           ++ [ZWaveLoader.ConsoleError ["Unable to find ZWave adapter"];
               ZWaveLoader.ConsoleError ["Unable to find ZWave adapter"]])
    ∧ ZWaveLoader.loadZWaveAdapters ref (Some message) None s
      = (ZWaveLoader.Threw "TypeError: ports is not iterable", logged).
Proof.
  intros ref message s logged. split; [done|]. split; [|split; [|done]].
  - intros ports port Hin Hport.
    unfold ZWaveLoader.loadZWaveAdapters, ZWaveLoader.listPortsCallback.
    cbn [ZWaveLoader.onPortFound]. fold logged.
    induction ports as [|q ports IH]; [by apply elem_of_nil in Hin|].
    simpl. destruct (ZWaveLoader.isZWavePort q) eqn:Hq.
    + simpl. rewrite length_app. simpl. lia.
    + apply elem_of_cons in Hin as [->|Hin]; [congruence|]. by apply IH.
  - intros ports Hnone.
    unfold ZWaveLoader.loadZWaveAdapters, ZWaveLoader.listPortsCallback.
    rewrite scan_no_port by done. simpl. by rewrite <- app_assoc.
Qed.

(** * Further properties of the smart-plug widget *)

Lemma elem_of_classList_remove (c c' : string) (l : list string) :
  c' ∈ SmartPlug.classList_remove c l ↔ c' ∈ l ∧ c' ≠ c.
Proof.
  unfold SmartPlug.classList_remove. rewrite !list_elem_of_In, filter_In.
  destruct (decide (c' = c)); split; intros [? ?]; try done; by split.
Qed.

Lemma elem_of_classList_add (c c' : string) (l : list string) :
  c' ∈ SmartPlug.classList_add c l ↔ c' ∈ l ∨ c' = c.
Proof.
  unfold SmartPlug.classList_add. case_decide as Hc.
  - split; [auto|]. intros [?| ->]; done.
  - rewrite elem_of_app, list_elem_of_singleton. done.
Qed.

(** The classes after [showOn], [showOff] and [showTransition]. *)
Lemma showOn_classList (p : SmartPlug.t) :
  SmartPlug.classList (SmartPlug.showOn p).1
  = SmartPlug.classList_add "on" (SmartPlug.classList_remove "off" (SmartPlug.classList p)).
Proof.
  unfold SmartPlug.showOn, SmartPlug.showPower. simpl.
  by destruct (SmartPlug.number_truthy _).
Qed.

Lemma showPower_classList (power : option Z) (p : SmartPlug.t) :
  SmartPlug.classList (SmartPlug.showPower power p).1 = SmartPlug.classList p
  ∧ SmartPlug.properties_on (SmartPlug.showPower power p).1 = SmartPlug.properties_on p
  ∧ SmartPlug.properties_power (SmartPlug.showPower power p).1
    = SmartPlug.properties_power p.
Proof. unfold SmartPlug.showPower. simpl. by destruct (SmartPlug.number_truthy _). Qed.

(** A response is handled in two parts, first its [on], then its
    [instantaneousPower]. *)
Lemma onPropertyStatus_parts (data : SmartPlugStatus.Data) (p : SmartPlug.t) :
  let on_part := SmartPlugStatus.onPropertyStatus
                   {| SmartPlugStatus.data_on := SmartPlugStatus.data_on data;
                      SmartPlugStatus.data_instantaneousPower := None |} p in
  let power_part := SmartPlugStatus.onPropertyStatus
                      {| SmartPlugStatus.data_on := None;
                         SmartPlugStatus.data_instantaneousPower :=
                           SmartPlugStatus.data_instantaneousPower data |} on_part.1 in
  SmartPlugStatus.onPropertyStatus data p = (power_part.1, on_part.2 ++ power_part.2).
Proof.
  unfold SmartPlugStatus.onPropertyStatus. simpl.
  destruct (match SmartPlugStatus.data_on data with
            | Some on => _ | None => _ end) as [p1 es]. simpl.
  destruct (match SmartPlugStatus.data_instantaneousPower data with
            | Some power => _ | None => _ end) as [p2 es']. simpl.
  by rewrite app_nil_r.
Qed.

Lemma onPropertyStatus_on (on : bool) (p : SmartPlug.t) :
  SmartPlugStatus.onPropertyStatus
    {| SmartPlugStatus.data_on := Some on;
       SmartPlugStatus.data_instantaneousPower := None |} p
  = let r := if on then SmartPlug.showOn (SmartPlug.set_on (SmartPlug.OnBool on) p)
             else SmartPlug.showOff (SmartPlug.set_on (SmartPlug.OnBool on) p) in
    (r.1, r.2 ++ []).
Proof.
  unfold SmartPlugStatus.onPropertyStatus. simpl.
  by destruct on; [destruct (SmartPlug.showOn _) | destruct (SmartPlug.showOff _)].
Qed.

(** The [instantaneousPower] of a response touches the cached power, and
    the label and the console when the plug is on and the power is not
    zero, and nothing else. *)
Lemma onPropertyStatus_power (power : option Z) (p : SmartPlug.t) :
  let result := SmartPlugStatus.onPropertyStatus
                  {| SmartPlugStatus.data_on := None;
                     SmartPlugStatus.data_instantaneousPower := power |} p in
  SmartPlug.classList result.1 = SmartPlug.classList p
  ∧ SmartPlug.properties_on result.1 = SmartPlug.properties_on p
  ∧ SmartPlug.onPropertyUrl result.1 = SmartPlug.onPropertyUrl p
  ∧ SmartPlug.properties_power result.1
    = match power with
      | Some reading => Some reading
      | None => SmartPlug.properties_power p
      end
  ∧ match power with
    | Some reading =>
        if SmartPlugStatus.on_truthy (SmartPlug.properties_on p)
           && negb (reading =? 0)%Z
        then SmartPlug.powerLabel_innerText result.1 = pretty reading +:+ "W"
             ∧ result.2 = [SmartPlug.Log ("Power " +:+ pretty reading)]
        else SmartPlug.powerLabel_innerText result.1 = SmartPlug.powerLabel_innerText p
             ∧ result.2 = []
    | None => result = (p, [])
    end.
Proof.
  unfold SmartPlugStatus.onPropertyStatus, SmartPlug.showPower. simpl.
  destruct power as [reading|]; simpl; [|done].
  destruct (SmartPlugStatus.on_truthy (SmartPlug.properties_on p)); simpl; [|done].
  by destruct (reading =? 0)%Z.
Qed.

(** X14. A status response that carries a boolean [on] makes the widget
    show that value, whatever it showed before and whether or not the
    response carries a power reading as well: the cached value is the
    value received, the class shown is on or off accordingly, and the
    other classes are as before.  The cached power is the reading of the
    response when it carries one, and as before when it carries none.  A
    plug reported off is labelled OFF.  In particular the response ends
    the in-flight state that a refused write has left behind. *)
Theorem status_response_ends_the_in_flight_state :
  ∀ (on : bool) (power : option Z) (p : SmartPlug.t),
    let data := {| SmartPlugStatus.data_on := Some on;
                   SmartPlugStatus.data_instantaneousPower := power |} in
    let p' := (SmartPlugStatus.onPropertyStatus data p).1 in
    SmartPlug.properties_on p' = SmartPlug.OnBool on
    ∧ (if on then SmartPlug.shows_on p' else SmartPlug.shows_off p')
    ∧ (∀ c, c ≠ "on" → c ≠ "off" →
            (c ∈ SmartPlug.classList p' ↔ c ∈ SmartPlug.classList p))
    ∧ SmartPlug.properties_power p'
      = match power with
        | Some reading => Some reading
        | None => SmartPlug.properties_power p
        end
    ∧ (on = false → SmartPlug.powerLabel_innerText p' = "OFF")
    ∧ ¬ SmartPlug.in_flight p'
    ∧ ∀ jwt status,
        status ≠ 200%N →
        let refused := (SmartPlug.turnOff jwt (SmartPlug.Response status) p).1 in
        SmartPlug.in_flight refused
        ∧ SmartPlug.properties_on (SmartPlugStatus.onPropertyStatus data refused).1
          = SmartPlug.OnBool on
        ∧ ¬ SmartPlug.in_flight (SmartPlugStatus.onPropertyStatus data refused).1.
Proof.
  intros on power p data p'. subst p' data.
  assert (∀ q, SmartPlug.properties_on
                 (SmartPlugStatus.onPropertyStatus
                    {| SmartPlugStatus.data_on := Some on;
                       SmartPlugStatus.data_instantaneousPower := power |} q).1
               = SmartPlug.OnBool on) as Hon.
  { intros q. rewrite onPropertyStatus_parts. cbn [fst snd SmartPlugStatus.data_on
      SmartPlugStatus.data_instantaneousPower].
    rewrite (proj1 (proj2 (onPropertyStatus_power power _))).
    rewrite onPropertyStatus_on. cbn [fst]. destruct on; [|done].
    unfold SmartPlug.showOn.
    by rewrite (proj1 (proj2 (showPower_classList _ _))). }
  assert (∀ q, ¬ SmartPlug.in_flight
                   (SmartPlugStatus.onPropertyStatus
                      {| SmartPlugStatus.data_on := Some on;
                         SmartPlugStatus.data_instantaneousPower := power |} q).1)
    as Hout.
  { intros q [Hnull _]. by rewrite Hon in Hnull. }
  split; [apply Hon|].
  split; [|split; [|split; [|split; [|split; [apply Hout|]]]]].
  - rewrite onPropertyStatus_parts. cbn [fst snd SmartPlugStatus.data_on
      SmartPlugStatus.data_instantaneousPower].
    pose proof (proj1 (onPropertyStatus_power power
      (SmartPlugStatus.onPropertyStatus
         {| SmartPlugStatus.data_on := Some on;
            SmartPlugStatus.data_instantaneousPower := None |} p).1)) as Hcl.
    cbn zeta in Hcl. rewrite onPropertyStatus_on in Hcl |- *.
    cbn [fst] in Hcl |- *. destruct on.
    + unfold SmartPlug.shows_on. rewrite Hcl, showOn_classList. simpl.
      rewrite !elem_of_classList_add, !elem_of_classList_remove.
      split; [auto|]. intros [[_ ?]|?]; done.
    + unfold SmartPlug.shows_off. rewrite Hcl. simpl.
      rewrite !elem_of_classList_add, !elem_of_classList_remove.
      split; [auto|]. intros [[_ ?]|?]; done.
  - intros c Hon' Hoff. rewrite onPropertyStatus_parts.
    cbn [fst snd SmartPlugStatus.data_on SmartPlugStatus.data_instantaneousPower].
    rewrite (proj1 (onPropertyStatus_power power _)).
    rewrite onPropertyStatus_on. cbn [fst]. destruct on.
    + rewrite showOn_classList. simpl.
      rewrite elem_of_classList_add, elem_of_classList_remove. tauto.
    + simpl. rewrite elem_of_classList_add, elem_of_classList_remove. tauto.
  - rewrite onPropertyStatus_parts.
    cbn [fst snd SmartPlugStatus.data_on SmartPlugStatus.data_instantaneousPower].
    rewrite (proj1 (proj2 (proj2 (proj2 (onPropertyStatus_power power _))))).
    destruct power as [reading|]; [done|].
    rewrite onPropertyStatus_on. cbn [fst]. destruct on; [|done].
    unfold SmartPlug.showOn.
    by rewrite (proj2 (proj2 (showPower_classList _ _))).
  - intros ->. unfold SmartPlugStatus.onPropertyStatus, SmartPlug.showOff. simpl.
    by destruct power.
  - intros jwt status Hstatus. split; [|split; [apply Hon|apply Hout]].
    unfold SmartPlug.turnOff. simpl.
    rewrite (proj2 (N.eqb_neq _ _) Hstatus). simpl.
    apply showTransition_in_flight.
Qed.

(** A response that says off and 12 W, for a plug shown on with 5 W: the
    widget shows off, is labelled OFF and caches the 12 W. *)
Example off_with_a_power_reading :
  let plug := {| SmartPlug.classList := ["thing"; "smart-plug"; "on"];
                 SmartPlug.properties_on := SmartPlug.OnBool true;
                 SmartPlug.properties_power := Some 5%Z;
                 SmartPlug.powerLabel_innerText := "5W";
                 SmartPlug.onPropertyUrl := "/things/plug-7/properties/on" |} in
  SmartPlugStatus.onPropertyStatus
    {| SmartPlugStatus.data_on := Some false;
       SmartPlugStatus.data_instantaneousPower := Some 12%Z |} plug
  = ({| SmartPlug.classList := ["thing"; "smart-plug"; "off"];
        SmartPlug.properties_on := SmartPlug.OnBool false;
        SmartPlug.properties_power := Some 12%Z;
        SmartPlug.powerLabel_innerText := "OFF";
        SmartPlug.onPropertyUrl := "/things/plug-7/properties/on" |}, []).
Proof. vm_compute. reflexivity. Qed.

(** X15. A status response that carries [instantaneousPower], a whole
    number that a JS number holds exactly, always stores the reading.
    Its [on], when it carries one, is handled first, as for a response
    with that [on] alone; the reading is then written on the label, and a
    line to the console, only when the plug is by then known to be on and
    the reading is not zero, and otherwise the label and the console stay
    as the first part left them.  So, with no [on] in the response, a
    reading of zero, or a reading for a plug that is off, in flight or
    not yet known, changes neither label nor console, and a plug that is
    on keeps showing its previous power after a reading of zero; with
    [on: false] the label is OFF and nothing is logged; and with
    [on: true] the power cached before is logged and, when the reading is
    zero, stays on the label (or [0W] when none was cached). *)
Theorem power_reading_reaches_the_label_only_when_on_and_not_zero :
  ∀ (on : option bool) (power : Z) (p : SmartPlug.t),
    safe_integer power →
    safe_reading (SmartPlug.properties_power p) →
    let data := {| SmartPlugStatus.data_on := on;
                   SmartPlugStatus.data_instantaneousPower := Some power |} in
    let on_part := SmartPlugStatus.onPropertyStatus
                     {| SmartPlugStatus.data_on := on;
                        SmartPlugStatus.data_instantaneousPower := None |} p in
    let result := SmartPlugStatus.onPropertyStatus data p in
    let cached := SmartPlug.properties_power p in
    SmartPlug.properties_power result.1 = Some power
    ∧ SmartPlug.classList result.1 = SmartPlug.classList on_part.1
    ∧ SmartPlug.properties_on result.1 = SmartPlug.properties_on on_part.1
    ∧ (SmartPlug.properties_on on_part.1 = SmartPlug.OnBool true → power ≠ 0%Z →
       SmartPlug.powerLabel_innerText result.1 = pretty power +:+ "W"
       ∧ result.2 = on_part.2 ++ [SmartPlug.Log ("Power " +:+ pretty power)])
    ∧ (SmartPlug.properties_on on_part.1 ≠ SmartPlug.OnBool true ∨ power = 0%Z →
       SmartPlug.powerLabel_innerText result.1
       = SmartPlug.powerLabel_innerText on_part.1
       ∧ result.2 = on_part.2)
    ∧ (on = None →
       on_part = (p, [])
       ∧ SmartPlug.classList result.1 = SmartPlug.classList p
       ∧ SmartPlug.properties_on result.1 = SmartPlug.properties_on p
       ∧ (SmartPlug.properties_on p = SmartPlug.OnBool true → power ≠ 0%Z →
          SmartPlug.powerLabel_innerText result.1 = pretty power +:+ "W"
          ∧ result.2 = [SmartPlug.Log ("Power " +:+ pretty power)])
       ∧ (SmartPlug.properties_on p ≠ SmartPlug.OnBool true ∨ power = 0%Z →
          SmartPlug.powerLabel_innerText result.1 = SmartPlug.powerLabel_innerText p
          ∧ result.2 = []))
    ∧ (on = Some false →
       SmartPlug.powerLabel_innerText result.1 = "OFF" ∧ result.2 = [])
    ∧ (on = Some true →
       (power ≠ 0%Z →
        SmartPlug.powerLabel_innerText result.1 = pretty power +:+ "W"
        ∧ result.2 = [SmartPlug.Log ("Power " +:+ SmartPlug.show_number cached);
                      SmartPlug.Log ("Power " +:+ pretty power)])
       ∧ (power = 0%Z →
          SmartPlug.powerLabel_innerText result.1
          = (if SmartPlug.number_truthy cached
             then SmartPlug.show_number cached +:+ "W" else "0W")
          ∧ result.2 = [SmartPlug.Log ("Power " +:+ SmartPlug.show_number cached)])).
Proof.
  intros on power p _ _ data on_part result cached.
  subst result on_part data cached.
  unfold SmartPlugStatus.onPropertyStatus, SmartPlug.showOn, SmartPlug.showOff,
    SmartPlug.showPower.
  destruct on as [[]|]; simpl.
  - destruct (SmartPlug.number_truthy (SmartPlug.properties_power p));
      destruct (Z.eqb_spec power 0) as [->|Hp]; simpl;
      repeat split; try done; intuition congruence.
  - destruct (Z.eqb_spec power 0) as [->|Hp]; simpl;
      repeat split; try done; intuition congruence.
  - destruct (SmartPlug.properties_on p) as [| |[]] eqn:Hon;
      destruct (Z.eqb_spec power 0) as [->|Hp]; simpl;
      repeat split; try done; intuition congruence.
Qed.

(** The plug is shown off with 12 W cached, and the response says on and
    0 W: the label shows the 12 W cached before, which are also logged,
    and the cached power is 0. *)
Lemma power_reading_reaches_the_label_only_when_on_and_not_zero_witness :
  let plug := {| SmartPlug.classList := ["thing"; "smart-plug"; "off"];
                 SmartPlug.properties_on := SmartPlug.OnBool false;
                 SmartPlug.properties_power := Some 12%Z;
                 SmartPlug.powerLabel_innerText := "OFF";
                 SmartPlug.onPropertyUrl := "/things/plug-7/properties/on" |} in
  let result := SmartPlugStatus.onPropertyStatus
                  {| SmartPlugStatus.data_on := Some true;
                     SmartPlugStatus.data_instantaneousPower := Some 0%Z |} plug in
  SmartPlug.properties_power result.1 = Some 0%Z
  ∧ SmartPlug.powerLabel_innerText result.1 = "12W"
  ∧ result.2 = [SmartPlug.Log "Power 12"].
Proof.
  intros plug result.
  destruct (power_reading_reaches_the_label_only_when_on_and_not_zero
              (Some true) 0%Z plug)
    as (Hpower & _ & _ & _ & _ & _ & _ & Htrue).
  - unfold safe_integer. simpl. lia.
  - unfold safe_reading, safe_integer. simpl. lia.
  - destruct (Htrue eq_refl) as [_ Hzero].
    destruct (Hzero eq_refl) as [Hlabel Hlog].
    split; [exact Hpower|]. split; [exact Hlabel | exact Hlog].
Defined.

Example stale_power_label :
  let plug := {| SmartPlug.classList := ["thing"; "smart-plug"; "on"];
                 SmartPlug.properties_on := SmartPlug.OnBool true;
                 SmartPlug.properties_power := Some 12%Z;
                 SmartPlug.powerLabel_innerText := "12W";
                 SmartPlug.onPropertyUrl := "/things/plug-7/properties/on" |} in
  SmartPlugStatus.onPropertyStatus
    {| SmartPlugStatus.data_on := None;
       SmartPlugStatus.data_instantaneousPower := Some 0%Z |} plug
  = (SmartPlugStatus.set_power (Some 0%Z) plug, []).
Proof. vm_compute. reflexivity. Qed.

(** X16. The responses to the two requests of [updateStatus] may come
    in either order.  The widget ends in the same state both ways when
    the plug is reported off, or the power reported is not zero, or no
    power different from zero was cached before. *)
Theorem status_responses_commute :
  ∀ (on : bool) (power : Z) (p : SmartPlug.t),
    let on_data := {| SmartPlugStatus.data_on := Some on;
                      SmartPlugStatus.data_instantaneousPower := None |} in
    let power_data := {| SmartPlugStatus.data_on := None;
                         SmartPlugStatus.data_instantaneousPower := Some power |} in
    on = false ∨ power ≠ 0%Z
    ∨ SmartPlug.number_truthy (SmartPlug.properties_power p) = false →
    (SmartPlugStatus.onPropertyStatus power_data
       (SmartPlugStatus.onPropertyStatus on_data p).1).1
    = (SmartPlugStatus.onPropertyStatus on_data
         (SmartPlugStatus.onPropertyStatus power_data p).1).1.
Proof.
  intros on power p on_data power_data H. subst on_data power_data.
  unfold SmartPlugStatus.onPropertyStatus, SmartPlug.showOn, SmartPlug.showOff,
    SmartPlug.showPower. simpl.
  destruct on; simpl.
  - destruct (Z.eqb_spec power 0) as [->|Hp]; simpl.
    + destruct H as [?|[?|H]]; [done|done|]. rewrite H. simpl.
      rewrite andb_false_r. simpl. done.
    + destruct (SmartPlug.number_truthy (SmartPlug.properties_power p)); simpl;
        rewrite andb_true_r;
        destruct (SmartPlugStatus.on_truthy (SmartPlug.properties_on p)); simpl;
        by destruct (Z.eqb_spec power 0).
  - destruct (SmartPlugStatus.on_truthy (SmartPlug.properties_on p)); simpl;
      destruct (Z.eqb_spec power 0); simpl; done.
Qed.

Lemma status_responses_commute_witness :
  let plug := {| SmartPlug.classList := ["thing"; "smart-plug"];
                 SmartPlug.properties_on := SmartPlug.OnUndefined;
                 SmartPlug.properties_power := None;
                 SmartPlug.powerLabel_innerText := "0W";
                 SmartPlug.onPropertyUrl := "/things/plug-7/properties/on" |} in
  let on_data := {| SmartPlugStatus.data_on := Some true;
                    SmartPlugStatus.data_instantaneousPower := None |} in
  let power_data := {| SmartPlugStatus.data_on := None;
                       SmartPlugStatus.data_instantaneousPower := Some 12%Z |} in
  (SmartPlugStatus.onPropertyStatus power_data
     (SmartPlugStatus.onPropertyStatus on_data plug).1).1
  = (SmartPlugStatus.onPropertyStatus on_data
       (SmartPlugStatus.onPropertyStatus power_data plug).1).1.
Proof.
  intros plug on_data power_data.
  apply (status_responses_commute true 12%Z plug).
  right. left. discriminate.
Defined.

(** Where the two orders differ: the plug is on with 12 W cached and
    shown, and the responses say on and 0 W. *)
Example status_responses_out_of_order :
  let plug := {| SmartPlug.classList := ["thing"; "smart-plug"; "on"];
                 SmartPlug.properties_on := SmartPlug.OnBool true;
                 SmartPlug.properties_power := Some 12%Z;
                 SmartPlug.powerLabel_innerText := "12W";
                 SmartPlug.onPropertyUrl := "/things/plug-7/properties/on" |} in
  let on_data := {| SmartPlugStatus.data_on := Some true;
                    SmartPlugStatus.data_instantaneousPower := None |} in
  let power_data := {| SmartPlugStatus.data_on := None;
                       SmartPlugStatus.data_instantaneousPower := Some 0%Z |} in
  SmartPlug.powerLabel_innerText
    (SmartPlugStatus.onPropertyStatus power_data
       (SmartPlugStatus.onPropertyStatus on_data plug).1).1 = "12W"
  ∧ SmartPlug.powerLabel_innerText
      (SmartPlugStatus.onPropertyStatus on_data
         (SmartPlugStatus.onPropertyStatus power_data plug).1).1 = "0W".
Proof. vm_compute. done. Qed.

Lemma onPropertyStatus_classList (data : SmartPlugStatus.Data) (p : SmartPlug.t) :
  SmartPlug.classList (SmartPlugStatus.onPropertyStatus data p).1
  = match SmartPlugStatus.data_on data with
    | Some true =>
        SmartPlug.classList_add "on"
          (SmartPlug.classList_remove "off" (SmartPlug.classList p))
    | Some false =>
        SmartPlug.classList_add "off"
          (SmartPlug.classList_remove "on" (SmartPlug.classList p))
    | None => SmartPlug.classList p
    end.
Proof.
  unfold SmartPlugStatus.onPropertyStatus, SmartPlug.showOn, SmartPlug.showOff,
    SmartPlug.showPower.
  destruct data as [[[]|] [power|]]; simpl;
    repeat match goal with |- context [if ?b then _ else _] => destruct b; simpl end;
    done.
Qed.

(** The classes after a step: as before, or one of the three displays. *)
Lemma step_classList (s : SmartPlugStatus.Step) (p : SmartPlug.t) :
  let l := SmartPlug.classList p in
  let l' := SmartPlug.classList (SmartPlugStatus.step s p) in
  l' = l
  ∨ l' = SmartPlug.classList_add "on" (SmartPlug.classList_remove "off" l)
  ∨ l' = SmartPlug.classList_add "off" (SmartPlug.classList_remove "on" l)
  ∨ l' = SmartPlug.classList_remove "off" (SmartPlug.classList_remove "on" l).
Proof.
  intros l l'. subst l l'.
  destruct s as [jwt|out|jwt|out|out|out]; simpl; try destruct out as [r|r]; simpl;
    rewrite ?onPropertyStatus_classList;
    repeat match goal with
           | |- context [if ?b then _ else _] => destruct b; simpl
           | |- context [match ?b with Some _ => _ | None => _ end] =>
               destruct b; simpl
           end;
    auto.
Qed.

(** X17. Whatever writes, responses and failures the widget goes
    through, in any order, it never comes to show on and off at once, and
    its classes other than on and off are never added to or removed. *)
Theorem widget_never_shows_on_and_off_at_once :
  ∀ (l : list SmartPlugStatus.Step) (p : SmartPlug.t),
    let p' := SmartPlugStatus.steps l p in
    (∀ c, c ≠ "on" → c ≠ "off" →
          (c ∈ SmartPlug.classList p' ↔ c ∈ SmartPlug.classList p))
    ∧ (¬ ("on" ∈ SmartPlug.classList p ∧ "off" ∈ SmartPlug.classList p) →
       ¬ ("on" ∈ SmartPlug.classList p' ∧ "off" ∈ SmartPlug.classList p')).
Proof.
  induction l as [|s l IH]; intros p p'; subst p'; [done|]. simpl.
  destruct (IH (SmartPlugStatus.step s p)) as [Hother Hboth].
  pose proof (step_classList s p) as Hstep. simpl in Hstep.
  split.
  - intros c Hon Hoff. rewrite Hother by done.
    destruct Hstep as [-> | [-> | [-> | ->]]];
      rewrite ?elem_of_classList_add, ?elem_of_classList_remove; tauto.
  - intros Hp. apply Hboth.
    destruct Hstep as [-> | [-> | [-> | ->]]];
      rewrite ?elem_of_classList_add, ?elem_of_classList_remove;
      [done | | |]; intros [H1 H2];
      repeat match goal with
             | H : _ ∧ _ |- _ => destruct H
             | H : _ ∨ _ |- _ => destruct H
             end; done.
Qed.

(** * The Z-Wave adapter: nodes and values *)

#[local] Arguments ZWaveNodes.with_fields : simpl never.
#[local] Arguments ZWaveNodes.handleDeviceAdded : simpl never.

Ltac unfold_N :=
  unfold mbind, mret, ZWaveNodes.M_bind, ZWaveNodes.M_ret, ZWaveNodes.read,
    ZWaveNodes.write, ZWaveNodes.console_log, ZWaveNodes.tell,
    ZWaveNodes.on_adapter, ZWaveNodes.get, ZWaveNodes.update.

Section NodeCallbacks.

Variable classify : ZWaveAdapter.ZWaveNode → ZWaveNodes.NodeFields
                    → ZWaveAdapter.ZWaveNode * ZWaveNodes.NodeFields.
Variable new_ZWaveNode : Adapter → N → ZWaveAdapter.ZWaveNode * ZWaveNodes.NodeFields.
Variable oneLineHeader : N → string.
Variable node_oneLineSummary
  : ZWaveAdapter.ZWaveNode → ZWaveNodes.NodeFields → string.

Lemma adapter_with_fields (node : ZWaveAdapter.ZWaveNode)
    (g : ZWaveNodes.NodeFields → ZWaveNodes.NodeFields) (w : ZWaveNodes.World) :
  ZWaveNodes.adapter (ZWaveNodes.with_fields node g w) = ZWaveNodes.adapter w.
Proof. done. Qed.

Lemma next_ref_with_fields (node : ZWaveAdapter.ZWaveNode)
    (g : ZWaveNodes.NodeFields → ZWaveNodes.NodeFields) (w : ZWaveNodes.World) :
  ZWaveNodes.next_ref (ZWaveNodes.with_fields node g w) = ZWaveNodes.next_ref w.
Proof. done. Qed.

Lemma fields_with_fields_same (node : ZWaveAdapter.ZWaveNode)
    (g : ZWaveNodes.NodeFields → ZWaveNodes.NodeFields) (w : ZWaveNodes.World) :
  fields_of (ZWaveNodes.with_fields node g w) node = g (fields_of w node).
Proof. unfold fields_of, ZWaveNodes.with_fields. simpl. by rewrite decide_True. Qed.

Lemma fields_with_fields_other (node node' : ZWaveAdapter.ZWaveNode)
    (g : ZWaveNodes.NodeFields → ZWaveNodes.NodeFields) (w : ZWaveNodes.World) :
  ZWaveAdapter.node_ref node' ≠ ZWaveAdapter.node_ref node →
  fields_of (ZWaveNodes.with_fields node g w) node' = fields_of w node'.
Proof.
  intros Hne. unfold fields_of, ZWaveNodes.with_fields. simpl. by rewrite decide_False.
Qed.

Lemma for_each_skip {A} (l : list A) (w : ZWaveNodes.World) :
  ZWaveNodes.for_each l (λ _, mret tt) w = (tt, w).
Proof. induction l as [|x l IH]; [done|]. simpl. unfold_N. exact IH. Qed.

Lemma nodes_handleDeviceAdded_exec (node : ZWaveAdapter.ZWaveNode)
    (w : ZWaveNodes.World) :
  let f := fields_of w node in
  let w' :=
    ZWaveNodes.with_adapter
      (ZWaveAdapter.handleDeviceAdded (ZWaveNodes.classified classify f) node
         (ZWaveNodes.adapter w)).2 w in
  ZWaveNodes.handleDeviceAdded classify node w =
    (tt, if (1 <? ZWaveAdapter.nodeId node)%N
         then ZWaveNodes.with_fields node (λ _, (classify node f).2) w'
         else w').
Proof.
  intros f w'. subst f w'. unfold ZWaveNodes.handleDeviceAdded, fields_of.
  unfold_N. simpl.
  destruct (ZWaveAdapter.handleDeviceAdded _ node (ZWaveNodes.adapter w)) as [[] zw].
  simpl. by destruct (1 <? ZWaveAdapter.nodeId node)%N.
Qed.

Lemma nodeReady_exec (nodeId : N) (w : ZWaveNodes.World) :
  ZWaveNodes.nodeReady classify nodeId w =
    match obj_get (pretty nodeId) (known_nodes w) with
    | Some node =>
        let w1 := ZWaveNodes.with_fields node (ZWaveNodes.set_ready true)
                    (ZWaveNodes.with_fields node (ZWaveNodes.set_lastStatus "ready") w) in
        if obj_has (pretty nodeId) (pending_nodes w)
        then ZWaveNodes.handleDeviceAdded classify node w1
        else (tt, w1)
    | None => (tt, w)
    end.
Proof.
  unfold ZWaveNodes.nodeReady, known_nodes, pending_nodes.
  unfold_N. cbn [fst snd].
  destruct (obj_get (pretty nodeId) _) as [node|]; [|reflexivity].
  cbn. rewrite for_each_skip, !adapter_with_fields. by destruct (obj_has _ _).
Qed.

Lemma obj_get_alias_node (node : ZWaveAdapter.ZWaveNode) (k : string)
    (o : JsObject ZWaveAdapter.ZWaveNode) :
  obj_get k (ZWaveAdapter.alias_node node o)
  = (λ v, if decide (ZWaveAdapter.node_ref v = ZWaveAdapter.node_ref node)
          then node else v) <$> obj_get k o.
Proof.
  unfold ZWaveAdapter.alias_node. induction o as [|[k' v] o IH]; [done|].
  rewrite fmap_cons. simpl.
  destruct (decide (ZWaveAdapter.node_ref v = ZWaveAdapter.node_ref node)); simpl;
    (destruct (decide (k' = k)); simpl; [|exact IH]).
  - by rewrite decide_True.
  - by rewrite decide_False.
Qed.

(** What [handleDeviceAdded] does to the books of the nodes. *)
Lemma nodes_handleDeviceAdded_books (node : ZWaveAdapter.ZWaveNode)
    (w : ZWaveNodes.World) :
  let w' := (ZWaveNodes.handleDeviceAdded classify node w).2 in
  let key := pretty (ZWaveAdapter.zwInfo_nodeId node) in
  let node' := ZWaveNodes.classified classify (fields_of w node) node in
  ZWaveNodes.next_ref w' = ZWaveNodes.next_ref w
  ∧ known_nodes w'
    = (if (1 <? ZWaveAdapter.nodeId node)%N
       then ZWaveAdapter.alias_node node' (known_nodes w) else known_nodes w)
  ∧ pending_nodes w'
    = (if (1 <? ZWaveAdapter.nodeId node)%N
       then ZWaveAdapter.alias_node node' (obj_delete key (pending_nodes w))
       else obj_delete key (pending_nodes w)).
Proof.
  intros w' key node'. subst w'. rewrite nodes_handleDeviceAdded_exec. cbn [snd].
  unfold known_nodes, pending_nodes.
  destruct (N.ltb_spec 1 (ZWaveAdapter.nodeId node)) as [Hlt|Hle].
  - rewrite zwave_handleDeviceAdded_device by done. done.
  - rewrite zwave_handleDeviceAdded_controller by done. done.
Qed.

Lemma in_order_same (w w' : ZWaveNodes.World) :
  same_nodes w w' → nodes_in_order w → nodes_in_order w'.
Proof.
  intros (Hk & Hp & Hn) [H1 H2 H3 H4].
  split; rewrite ?Hk, ?Hp, ?Hn; done.
Qed.

(** Announcing a node that is yet to be announced keeps the books in
    order, and takes the node off the list. *)
Lemma in_order_handleDeviceAdded (k : string) (node : ZWaveAdapter.ZWaveNode)
    (w : ZWaveNodes.World) :
  nodes_in_order w →
  obj_get k (pending_nodes w) = Some node →
  let w' := (ZWaveNodes.handleDeviceAdded classify node w).2 in
  nodes_in_order w'
  ∧ obj_get k (pending_nodes w') = None
  ∧ (∀ k' node', obj_get k' (pending_nodes w') = Some node' ↔
                 k' ≠ k ∧ obj_get k' (pending_nodes w) = Some node')
  ∧ (∀ k', is_Some (obj_get k' (known_nodes w')) ↔ is_Some (obj_get k' (known_nodes w))).
Proof.
  intros [H1 H2 H3 H4] Hk w'.
  destruct (nodes_handleDeviceAdded_books node w) as (Hn & Hknown & Hpend).
  fold w' in Hn, Hknown, Hpend.
  pose proof (H2 k node Hk) as Hkey. rewrite <- Hkey in Hpend.
  set (node' := ZWaveNodes.classified classify (fields_of w node) node) in *.
  assert (Href : ZWaveAdapter.node_ref node' = ZWaveAdapter.node_ref node) by done.
  assert (Hothers : ∀ k' x, k' ≠ k → obj_get k' (pending_nodes w) = Some x →
            ZWaveAdapter.node_ref x ≠ ZWaveAdapter.node_ref node').
  { intros k' x Hne Hx Hr. apply Hne.
    apply (H4 k' k x node); [by apply H1 | by apply H1 | congruence]. }
  assert (Hpend' : ∀ k' x, obj_get k' (pending_nodes w') = Some x ↔
            k' ≠ k ∧ obj_get k' (pending_nodes w) = Some x).
  { intros k' x. rewrite Hpend.
    destruct (decide (k' = k)) as [->|Hne].
    - destruct (1 <? ZWaveAdapter.nodeId node)%N;
        rewrite ?obj_get_alias_node, obj_get_delete_eq; simpl; split; [done| |done|];
        by intros [? _].
    - destruct (1 <? ZWaveAdapter.nodeId node)%N;
        rewrite ?obj_get_alias_node, obj_get_delete_ne by done.
      + destruct (obj_get k' (pending_nodes w)) as [y|] eqn:Hy; simpl.
        * rewrite decide_False by (by apply (Hothers k')). split; [by intros [= ->]|].
          by intros [_ [= ->]].
        * split; [done | by intros [_ ?]].
      + split; [done | by intros [_ ?]]. }
  split; [|split; [|split]].
  - split.
    + intros k' x Hx. apply Hpend' in Hx as [Hne Hx]. rewrite Hknown.
      destruct (1 <? ZWaveAdapter.nodeId node)%N; [|by apply H1].
      rewrite obj_get_alias_node, (H1 k' x Hx). simpl.
      by rewrite decide_False by (by apply (Hothers k')).
    + intros k' x Hx. apply Hpend' in Hx as [Hne Hx]. by apply H2.
    + intros k' x. rewrite Hknown, Hn.
      destruct (1 <? ZWaveAdapter.nodeId node)%N; [|by apply H3].
      rewrite obj_get_alias_node.
      destruct (obj_get k' (known_nodes w)) as [y|] eqn:Hy; simpl; [|done].
      intros [= <-]. case_decide as Hr.
      * rewrite Href, <- Hr. by apply (H3 k').
      * by apply (H3 k').
    + intros k1 k2 n1 n2. rewrite Hknown.
      destruct (1 <? ZWaveAdapter.nodeId node)%N; [|by apply H4].
      rewrite !obj_get_alias_node.
      destruct (obj_get k1 (known_nodes w)) as [y1|] eqn:Hy1; simpl; [|done].
      destruct (obj_get k2 (known_nodes w)) as [y2|] eqn:Hy2; simpl; [|done].
      intros [= <-] [= <-] Hr. apply (H4 k1 k2 y1 y2); [done|done|].
      repeat case_decide; congruence.
  - destruct (obj_get k (pending_nodes w')) as [x|] eqn:Hx; [|done].
    by apply Hpend' in Hx as [? _].
  - exact Hpend'.
  - intros k'. rewrite Hknown.
    destruct (1 <? ZWaveAdapter.nodeId node)%N; [|done].
    rewrite obj_get_alias_node. by rewrite fmap_is_Some.
Qed.

(** What a report of a device leaves in the manager's trace: the event,
    then calls on adapters, a console line and the resolution. *)
Lemma manager_handleDeviceAdded_effects (device : Device) (w : World) :
  ∃ es, trace (handleDeviceAdded device w).2
        = trace w ++ Emit "thing-added" (OfThing (Device_getThing device)) :: es
        ∧ ∀ e, e ∈ es → (∃ a m, e = AdapterCall a m) ∨ (∃ l, e = ConsoleLog l)
                        ∨ (∃ d v, e = DeferredResolve d v).
Proof.
  destruct (deferredAdd (this w)) as [d0|] eqn:Ha.
  - rewrite (handleDeviceAdded_active device w d0) by done. cbn [snd].
    eexists. split; [reflexivity|]. intros e.
    rewrite elem_of_app. intros [H|H].
    + apply elem_of_to_others in H as (a & _ & _ & ->). left. by exists a, cancelPairing.
    + apply elem_of_cons in H as [->|H]; [right; left; by eexists|].
      apply list_elem_of_singleton in H as ->. right. right. by eexists _, _.
  - rewrite handleDeviceAdded_idle by done. cbn [snd].
    exists []. split; [done|]. intros e H. by apply elem_of_nil in H.
Qed.

Lemma manager_handleDeviceRemoved_effects (device : Device) (w : World) :
  ∃ es, trace (handleDeviceRemoved device w).2
        = trace w ++ Emit "thing-removed" (OfThing (Device_getThing device)) :: es
        ∧ ∀ e, e ∈ es → (∃ a m, e = AdapterCall a m) ∨ (∃ l, e = ConsoleLog l)
                        ∨ (∃ d v, e = DeferredResolve d v).
Proof.
  destruct (deferredRemove (this w)) as [d0|] eqn:Hr.
  - rewrite (handleDeviceRemoved_active device w d0) by done. cbn [snd].
    eexists. split; [simpl; reflexivity|]. intros e.
    rewrite elem_of_cons, elem_of_app. intros [->|[H|H]].
    + right; left; by eexists.
    + apply elem_of_to_others in H as (a & _ & _ & ->). left. by exists a, cancelUnpairing.
    + apply elem_of_cons in H as [->|H]; [right; left; by eexists|].
      apply list_elem_of_singleton in H as ->. right. right. by eexists _, _.
  - rewrite handleDeviceRemoved_idle by done. cbn [snd].
    eexists. split; [simpl; reflexivity|]. intros e H.
    apply list_elem_of_singleton in H as ->. right; left; by eexists.
Qed.

(** What announcing a node leaves in the trace and in the registry of
    devices, and whose fields it touches. *)
Lemma nodes_handleDeviceAdded_effects (node : ZWaveAdapter.ZWaveNode)
    (w : ZWaveNodes.World) :
  let w' := (ZWaveNodes.handleDeviceAdded classify node w).2 in
  let device :=
    ZWaveAdapter.node_device (ZWaveNodes.classified classify (fields_of w node) node) in
  (∀ x, ZWaveAdapter.node_ref x ≠ ZWaveAdapter.node_ref node →
        fields_of w' x = fields_of w x)
  ∧ ((ZWaveAdapter.nodeId node ≤ 1)%N → manager_of w' = manager_of w)
  ∧ ((1 < ZWaveAdapter.nodeId node)%N →
     devices (this (manager_of w'))
     = obj_set (device_id device) device (devices (this (manager_of w)))
     ∧ adapters (this (manager_of w')) = adapters (this (manager_of w))
     ∧ ∃ es, trace (manager_of w')
             = trace (manager_of w)
               ++ ClassifierCall (ZWaveAdapter.node_device node)
                  :: Emit "thing-added" (OfThing (Device_getThing device)) :: es
             ∧ ∀ e, e ∈ es → (∃ a m, e = AdapterCall a m) ∨ (∃ l, e = ConsoleLog l)
                             ∨ (∃ d v, e = DeferredResolve d v)).
Proof.
  intros w' device. subst w'. rewrite nodes_handleDeviceAdded_exec. cbn [snd].
  unfold manager_of.
  destruct (N.ltb_spec 1 (ZWaveAdapter.nodeId node)) as [Hlt|Hle].
  - split; [|split; [lia|]].
    + intros x Hx. by rewrite fields_with_fields_other.
    + intros _. rewrite adapter_with_fields.
      rewrite zwave_handleDeviceAdded_device by done.
      unfold ZWaveNodes.with_adapter.
      cbn [snd ZWaveNodes.adapter ZWaveAdapter.manager]. fold device.
      destruct (handleDeviceAdded_this device
                  {| this := this (ZWaveAdapter.manager (ZWaveNodes.adapter w));
                     promises := promises (ZWaveAdapter.manager (ZWaveNodes.adapter w));
                     trace := trace (ZWaveAdapter.manager (ZWaveNodes.adapter w)) ++
                       [ClassifierCall (ZWaveAdapter.node_device node)] |})
        as [Had Hdev].
      split; [exact Hdev|]. split; [exact Had|].
      destruct (manager_handleDeviceAdded_effects device
                  {| this := this (ZWaveAdapter.manager (ZWaveNodes.adapter w));
                     promises := promises (ZWaveAdapter.manager (ZWaveNodes.adapter w));
                     trace := trace (ZWaveAdapter.manager (ZWaveNodes.adapter w)) ++
                       [ClassifierCall (ZWaveAdapter.node_device node)] |})
        as (es & Hes & Hquiet).
      exists es. split; [|exact Hquiet]. rewrite Hes. simpl.
      by rewrite <- app_assoc.
  - split; [done|]. split; [|lia]. intros _.
    by rewrite zwave_handleDeviceAdded_controller.
Qed.

Lemma tell_told (es : list Effect) (w : ZWaveNodes.World) :
  ZWaveNodes.tell es w = (tt, told es w).
Proof. done. Qed.

Lemma told_app (es es' : list Effect) (w : ZWaveNodes.World) :
  told es' (told es w) = told (es ++ es') w.
Proof.
  unfold told, ZWaveNodes.tell, ZWaveNodes.on_adapter, ZWaveNodes.with_adapter,
    ZWaveAdapter.tell, ZWaveAdapter.on_manager, tell. simpl. by rewrite app_assoc.
Qed.

Lemma trace_told (es : list Effect) (w : ZWaveNodes.World) :
  trace (manager_of (told es w)) = trace (manager_of w) ++ es.
Proof. done. Qed.

Lemma nodeAdded_exec (nodeId : N) (w : ZWaveNodes.World) :
  let new := new_ZWaveNode (ZWaveAdapter.base (ZWaveAdapter.self (ZWaveNodes.adapter w)))
               nodeId in
  let node := ZWaveNodes.with_ref (ZWaveNodes.next_ref w) new.1 in
  ZWaveNodes.nodeAdded new_ZWaveNode nodeId w =
    (tt, ZWaveNodes.with_fields node (ZWaveNodes.set_lastStatus "added")
           {| ZWaveNodes.adapter :=
                {| ZWaveAdapter.self :=
                     ZWaveAdapter.set_nodesBeingAdded
                       (obj_set (pretty nodeId) node (pending_nodes w))
                       (ZWaveAdapter.set_nodes
                          (obj_set (pretty nodeId) node (known_nodes w))
                          (ZWaveAdapter.self (ZWaveNodes.adapter w)));
                   ZWaveAdapter.manager := manager_of w |};
              ZWaveNodes.fields :=
                λ r, if decide (r = ZWaveNodes.next_ref w) then new.2
                     else ZWaveNodes.fields w r;
              ZWaveNodes.next_ref := S (ZWaveNodes.next_ref w) |}).
Proof.
  intros new node. subst new node.
  unfold ZWaveNodes.nodeAdded, ZWaveNodes.new_node. unfold_N.
  unfold ZWaveAdapter.write. cbn.
  by destruct (new_ZWaveNode _ nodeId) as [node f].
Qed.

Lemma nodeRemoved_exec (nodeId : N) (w : ZWaveNodes.World) :
  ZWaveNodes.nodeRemoved nodeId w =
    match obj_get (pretty nodeId) (known_nodes w) with
    | Some node =>
        let w1 := ZWaveNodes.with_fields node (ZWaveNodes.set_lastStatus "removed") w in
        (tt, ZWaveNodes.with_adapter
               (ZWaveAdapter.handleDeviceRemoved node (ZWaveNodes.adapter w)).2 w1)
    | None => (tt, w)
    end.
Proof.
  unfold ZWaveNodes.nodeRemoved, known_nodes, ZWaveNodes.DEBUG. unfold_N. cbn [fst snd].
  destruct (obj_get (pretty nodeId) _) as [node|]; [|reflexivity].
  cbn. rewrite adapter_with_fields.
  by destruct (ZWaveAdapter.handleDeviceRemoved node _) as [[] zw].
Qed.

Lemma same_nodes_refl (w : ZWaveNodes.World) : same_nodes w w.
Proof. done. Qed.

Lemma same_nodes_trans (w1 w2 w3 : ZWaveNodes.World) :
  same_nodes w1 w2 → same_nodes w2 w3 → same_nodes w1 w3.
Proof. unfold same_nodes. intros (-> & -> & ->) (-> & -> & ->). done. Qed.

Lemma keeps_ret {A} (a : A) : keeps_books (mret a).
Proof. intros w. done. Qed.

Lemma keeps_bind {A B} (m : ZWaveNodes.M A) (k : A → ZWaveNodes.M B) :
  keeps_books m → (∀ a, keeps_books (k a)) → keeps_books (m ≫= k).
Proof.
  intros Hm Hk w. unfold mbind, ZWaveNodes.M_bind.
  specialize (Hm w). destruct (m w) as [a w1].
  eapply same_nodes_trans; [exact Hm | apply Hk].
Qed.

Lemma keeps_update (node : ZWaveAdapter.ZWaveNode)
    (g : ZWaveNodes.NodeFields → ZWaveNodes.NodeFields) :
  keeps_books (ZWaveNodes.update node g).
Proof. intros w. done. Qed.

Lemma keeps_tell (es : list Effect) : keeps_books (ZWaveNodes.tell es).
Proof. intros w. done. Qed.

Lemma keeps_console_log (args : list string) : keeps_books (ZWaveNodes.console_log args).
Proof. intros w. done. Qed.

Lemma keeps_read {A} (f : ZWaveAdapter.t → A) : keeps_books (ZWaveNodes.read f).
Proof. intros w. done. Qed.

Lemma keeps_get (node : ZWaveAdapter.ZWaveNode) : keeps_books (ZWaveNodes.get node).
Proof. intros w. done. Qed.

Lemma keeps_for_each {A} (l : list A) (body : A → ZWaveNodes.M unit) :
  (∀ x, keeps_books (body x)) → keeps_books (ZWaveNodes.for_each l body).
Proof.
  intros Hbody. induction l as [|x l IH]; simpl.
  - apply keeps_ret.
  - apply keeps_bind; [apply Hbody | intros; apply IH].
Qed.

Ltac keeps :=
  unfold ZWaveNodes.DEBUG; cbn [orb negb];
  repeat first
    [ apply keeps_ret | apply keeps_update | apply keeps_tell
    | apply keeps_console_log | apply keeps_read | apply keeps_get
    | apply keeps_for_each; intros
    | apply keeps_bind; [|intros]
    | match goal with
      | |- keeps_books (match ?x with _ => _ end) => destruct x
      end ].

Lemma keeps_dump : keeps_books (ZWaveNodes.dump oneLineHeader node_oneLineSummary).
Proof. unfold ZWaveNodes.dump, ZWaveNodes.oneLineSummary. keeps. Qed.

Lemma keeps_controllerCommand (nodeId retVal state : N) (msg : string) :
  keeps_books (ZWaveNodes.controllerCommand nodeId retVal state msg).
Proof. unfold ZWaveNodes.controllerCommand. keeps. Qed.

Lemma keeps_nodeEvent (nodeId data : N) : keeps_books (ZWaveNodes.nodeEvent nodeId data).
Proof. unfold ZWaveNodes.nodeEvent. keeps. Qed.

Lemma keeps_nodeNaming (nodeId : N) (nodeInfo : ZWaveNodes.NodeInfo) :
  keeps_books (ZWaveNodes.nodeNaming nodeId nodeInfo).
Proof. unfold ZWaveNodes.nodeNaming. keeps. Qed.

Lemma keeps_nodeNotification (nodeId notif : N) :
  keeps_books (ZWaveNodes.nodeNotification nodeId notif).
Proof. unfold ZWaveNodes.nodeNotification. keeps. Qed.

Lemma keeps_valueAdded (nodeId comClass : N) (v : ZWaveNodes.Value) :
  keeps_books (ZWaveNodes.valueAdded nodeId comClass v).
Proof. unfold ZWaveNodes.valueAdded. keeps. Qed.

Lemma keeps_valueChanged (nodeId comClass : N) (v : ZWaveNodes.Value) :
  keeps_books (ZWaveNodes.valueChanged nodeId comClass v).
Proof. unfold ZWaveNodes.valueChanged. keeps. Qed.

Lemma keeps_valueRemoved (nodeId comClass value_index : N) :
  keeps_books (ZWaveNodes.valueRemoved nodeId comClass value_index).
Proof. unfold ZWaveNodes.valueRemoved. keeps. Qed.

Lemma nodeAdded_books (nodeId : N) (w : ZWaveNodes.World) :
  let w' := (ZWaveNodes.nodeAdded new_ZWaveNode nodeId w).2 in
  let new := new_ZWaveNode (ZWaveAdapter.base (ZWaveAdapter.self (ZWaveNodes.adapter w)))
               nodeId in
  let node := ZWaveNodes.with_ref (ZWaveNodes.next_ref w) new.1 in
  known_nodes w' = obj_set (pretty nodeId) node (known_nodes w)
  ∧ pending_nodes w' = obj_set (pretty nodeId) node (pending_nodes w)
  ∧ ZWaveNodes.next_ref w' = S (ZWaveNodes.next_ref w)
  ∧ manager_of w' = manager_of w
  ∧ fields_of w' node = ZWaveNodes.set_lastStatus "added" new.2.
Proof.
  intros w' new node. subst w'. rewrite nodeAdded_exec. cbn [snd]. fold new node.
  repeat (split; [done|]). rewrite fields_with_fields_same. unfold fields_of.
  simpl. by rewrite decide_True.
Qed.

Lemma in_order_nodeAdded (nodeId : N) (w : ZWaveNodes.World) :
  records_id new_ZWaveNode →
  nodes_in_order w →
  nodes_in_order (ZWaveNodes.nodeAdded new_ZWaveNode nodeId w).2.
Proof.
  intros Hnew [H1 H2 H3 H4].
  destruct (nodeAdded_books nodeId w) as (Hk & Hp & Hn & _).
  set (node := ZWaveNodes.with_ref _ _) in Hk, Hp.
  assert (Hfresh : ∀ k x, obj_get k (known_nodes w) = Some x →
            ZWaveAdapter.node_ref x ≠ ZWaveAdapter.node_ref node).
  { intros k x Hx. apply H3 in Hx. subst node. simpl. lia. }
  split; rewrite ?Hk, ?Hp, ?Hn.
  - intros k x Hx. destruct (decide (pretty nodeId = k)) as [<-|Hne].
    + by rewrite obj_get_set_eq in Hx |- *.
    + rewrite obj_get_set_ne in Hx |- * by done. by apply H1.
  - intros k x Hx. apply obj_get_set_Some in Hx as [[-> ->]|Hx]; [|by apply H2].
    subst node. simpl. by rewrite (proj2 (Hnew _ _)).
  - intros k x Hx. apply obj_get_set_Some in Hx as [[-> ->]|Hx].
    + subst node. simpl. lia.
    + apply H3 in Hx. lia.
  - intros k1 k2 n1 n2 Hn1 Hn2 Hr.
    apply obj_get_set_Some in Hn1 as [[-> ->]|Hn1];
      apply obj_get_set_Some in Hn2 as [[-> ->]|Hn2].
    + done.
    + by destruct (Hfresh _ _ Hn2).
    + by destruct (Hfresh _ _ Hn1).
    + by apply (H4 k1 k2 n1 n2).
Qed.

Lemma nodeRemoved_books (nodeId : N) (w : ZWaveNodes.World) :
  let w' := (ZWaveNodes.nodeRemoved nodeId w).2 in
  ZWaveNodes.next_ref w' = ZWaveNodes.next_ref w
  ∧ match obj_get (pretty nodeId) (known_nodes w) with
    | Some node =>
        let key := pretty (ZWaveAdapter.zwInfo_nodeId node) in
        known_nodes w' = obj_delete key (known_nodes w)
        ∧ pending_nodes w' = obj_delete key (pending_nodes w)
        ∧ manager_of w'
          = (handleDeviceRemoved (ZWaveAdapter.node_device node) (manager_of w)).2
    | None => w' = w
    end.
Proof.
  intros w'. subst w'. rewrite nodeRemoved_exec.
  destruct (obj_get (pretty nodeId) (known_nodes w)) as [node|]; [|done].
  cbn [snd]. rewrite zwave_handleDeviceRemoved_exec. done.
Qed.

Lemma in_order_nodeRemoved (nodeId : N) (w : ZWaveNodes.World) :
  nodes_in_order w → nodes_in_order (ZWaveNodes.nodeRemoved nodeId w).2.
Proof.
  intros [H1 H2 H3 H4].
  destruct (nodeRemoved_books nodeId w) as [Hn Hb].
  destruct (obj_get (pretty nodeId) (known_nodes w)) as [node|]; [|by rewrite Hb].
  destruct Hb as (Hk & Hp & _).
  split; rewrite ?Hk, ?Hp, ?Hn.
  - intros k x Hx.
    destruct (decide (pretty (ZWaveAdapter.zwInfo_nodeId node) = k)) as [<-|Hne].
    + by rewrite obj_get_delete_eq in Hx.
    + rewrite obj_get_delete_ne in Hx |- * by done. by apply H1.
  - intros k x Hx. apply obj_get_delete_Some in Hx. by apply H2.
  - intros k x Hx. apply obj_get_delete_Some in Hx. by apply (H3 k).
  - intros k1 k2 n1 n2 Hn1 Hn2. apply obj_get_delete_Some in Hn1, Hn2.
    by apply H4.
Qed.

Lemma in_order_nodeReady (nodeId : N) (w : ZWaveNodes.World) :
  nodes_in_order w →
  nodes_in_order (ZWaveNodes.nodeReady classify nodeId w).2
  ∧ obj_get (pretty nodeId) (pending_nodes (ZWaveNodes.nodeReady classify nodeId w).2)
    = None.
Proof.
  intros Hw. rewrite nodeReady_exec.
  destruct (obj_get (pretty nodeId) (known_nodes w)) as [node|] eqn:Hnode.
  - cbn zeta. unfold obj_has.
    destruct (obj_get (pretty nodeId) (pending_nodes w)) as [node'|] eqn:Hpend.
    + assert (node' = node) as ->.
      { apply (pending_known _ Hw) in Hpend. congruence. }
      set (w1 := ZWaveNodes.with_fields node _ _).
      destruct (in_order_handleDeviceAdded (pretty nodeId) node w1) as (H1 & H2 & _).
      * by apply (in_order_same w).
      * done.
      * done.
    + split; [by apply (in_order_same w)|done].
  - split; [done|]. cbn [snd].
    destruct (obj_get (pretty nodeId) (pending_nodes w)) as [node'|] eqn:Hpend; [|done].
    apply (pending_known _ Hw) in Hpend. congruence.
Qed.

Lemma for_each_cons {A} (x : A) (l : list A) (body : A → ZWaveNodes.M unit)
    (w : ZWaveNodes.World) :
  ZWaveNodes.for_each (x :: l) body w = ZWaveNodes.for_each l body (body x w).2.
Proof. simpl. unfold mbind, ZWaveNodes.M_bind. by destruct (body x w) as [[] w1]. Qed.

Lemma announce_waiting_exec (k : string) (w : ZWaveNodes.World) :
  announce_waiting classify k w =
    match obj_get k (pending_nodes w) with
    | Some node => ZWaveNodes.handleDeviceAdded classify node w
    | None => (tt, w)
    end.
Proof.
  unfold announce_waiting, pending_nodes. unfold_N. cbn [fst snd].
  by destruct (obj_get k _).
Qed.

(** The loop of [scanComplete] over the keys [ks]: every node still
    waiting under one of these keys is announced, the controller apart,
    and taken off the list. *)
Lemma scan_loop (ks : list string) (w : ZWaveNodes.World) :
  nodes_in_order w →
  let w' := (ZWaveNodes.for_each ks (announce_waiting classify) w).2 in
  nodes_in_order w'
  ∧ (∀ k x, obj_get k (pending_nodes w') = Some x ↔
            (k ∉ ks) ∧ obj_get k (pending_nodes w) = Some x)
  ∧ (∀ k, is_Some (obj_get k (known_nodes w')) ↔ is_Some (obj_get k (known_nodes w)))
  ∧ ∃ es, trace (manager_of w') = trace (manager_of w) ++ es
          ∧ (∀ method args, ZWaveDriverCall method args ∉ es)
          ∧ ∀ event arg, Emit event arg ∈ es ↔
              event = "thing-added"
              ∧ ∃ k node, k ∈ ks ∧ obj_get k (pending_nodes w) = Some node
                          ∧ (1 < ZWaveAdapter.nodeId node)%N
                          ∧ arg = OfThing
                                    (Device_getThing
                                       (ZWaveAdapter.node_device
                                          (ZWaveNodes.classified classify
                                             (fields_of w node) node))).
Proof.
  revert w. induction ks as [|k ks IH]; intros w Hw w'.
  { subst w'. simpl. split; [done|]. split.
    - intros k x. rewrite elem_of_nil. tauto.
    - split; [done|]. exists []. split; [by rewrite app_nil_r|].
      split; [intros ? ? H; by apply elem_of_nil in H|].
      intros event arg. rewrite elem_of_nil. split; [done|].
      intros (_ & k & node & H & _). by apply elem_of_nil in H. }
  subst w'. rewrite for_each_cons, announce_waiting_exec.
  destruct (obj_get k (pending_nodes w)) as [node|] eqn:Hk.
  - destruct (in_order_handleDeviceAdded k node w Hw Hk) as (Hw1 & _ & Hpend1 & Hknown1).
    destruct (nodes_handleDeviceAdded_effects node w) as (Hfields & Hcontroller & Hdevice).
    destruct (ZWaveNodes.handleDeviceAdded classify node w) as [[] w1]. cbn [snd] in *.
    destruct (IH w1 Hw1) as (Hw' & Hpend & Hknown & es2 & Htrace & Hquiet & Hemit).
    split; [exact Hw'|]. split; [|split].
    + intros k' x. rewrite Hpend, Hpend1, not_elem_of_cons. tauto.
    + intros k'. by rewrite Hknown, Hknown1.
    + assert (Hsame : ∀ k' node', k' ≠ k → obj_get k' (pending_nodes w) = Some node' →
                fields_of w1 node' = fields_of w node').
      { intros k' node' Hne Hnode'. apply Hfields. intros Hr. apply Hne.
        apply (refs_distinct _ Hw k' k node' node);
          [by apply (pending_known _ Hw) | by apply (pending_known _ Hw) | done]. }
      destruct (N.ltb_spec 1 (ZWaveAdapter.nodeId node)) as [Hlt|Hle].
      * destruct (Hdevice Hlt) as (_ & _ & es1 & Htrace1 & Hquiet1).
        eexists. split; [rewrite Htrace, Htrace1, <- app_assoc; reflexivity|].
        split.
        { intros method args. rewrite elem_of_app, !elem_of_cons.
          intros [[?|[?|H]]|H]; [done|done| |by apply Hquiet in H].
          apply Hquiet1 in H as [(?&?&?)|[(?&?)|(?&?&?)]]; done. }
        intros event arg. rewrite elem_of_app, !elem_of_cons, Hemit. split.
        { intros [[?|[[= -> ->]|H]]|(-> & k' & node' & Hin & Hnode' & Hlt' & ->)].
          - done.
          - split; [done|]. exists k, node. split; [apply list_elem_of_here|done].
          - apply Hquiet1 in H as [(?&?&?)|[(?&?)|(?&?&?)]]; done.
          - split; [done|]. apply Hpend1 in Hnode' as [Hne Hnode'].
            exists k', node'. split; [by apply list_elem_of_further|].
            split; [done|]. split; [done|]. by rewrite (Hsame k'). }
        intros (-> & k' & node' & Hin & Hnode' & Hlt' & ->).
        destruct (decide (k' = k)) as [->|Hne].
        { left. right. left. by simplify_eq. }
        right. split; [done|]. exists k', node'.
        apply elem_of_cons in Hin as [?|Hin]; [done|].
        split; [done|]. split; [by apply Hpend1|]. split; [done|].
        by rewrite (Hsame k').
      * rewrite (Hcontroller Hle) in Htrace.
        exists es2. split; [done|]. split; [done|].
        intros event arg. rewrite Hemit. split.
        { intros (-> & k' & node' & Hin & Hnode' & Hlt' & ->). split; [done|].
          apply Hpend1 in Hnode' as [Hne Hnode'].
          exists k', node'. split; [by apply list_elem_of_further|].
          split; [done|]. split; [done|]. by rewrite (Hsame k'). }
        intros (-> & k' & node' & Hin & Hnode' & Hlt' & ->). split; [done|].
        destruct (decide (k' = k)) as [->|Hne]; [simplify_eq; lia|].
        exists k', node'.
        apply elem_of_cons in Hin as [?|Hin]; [done|].
        split; [done|]. split; [by apply Hpend1|]. split; [done|].
        by rewrite (Hsame k').
  - cbn [snd].
    destruct (IH w Hw) as (Hw' & Hpend & Hknown & es & Htrace & Hquiet & Hemit).
    split; [exact Hw'|]. split; [|split; [exact Hknown|]].
    + intros k' x. rewrite Hpend, not_elem_of_cons. split; [|tauto].
      intros [Hin Hx]. split; [|done]. split; [congruence|done].
    + exists es. split; [done|]. split; [done|].
      intros event arg. rewrite Hemit. split.
      * intros (-> & k' & node' & Hin & Hrest). split; [done|].
        exists k', node'. split; [by apply list_elem_of_further|done].
      * intros (-> & k' & node' & Hin & Hnode' & Hrest). split; [done|].
        exists k', node'. apply elem_of_cons in Hin as [->|Hin]; [congruence|done].
Qed.

Lemma told_nil (w : ZWaveNodes.World) : told [] w = w.
Proof.
  destruct w as [[z [m ps tr]] fs nx].
  unfold told, ZWaveNodes.tell, ZWaveNodes.on_adapter, ZWaveNodes.with_adapter,
    ZWaveAdapter.tell, ZWaveAdapter.on_manager, tell. simpl. by rewrite app_nil_r.
Qed.

Lemma logs_ret {A} (a : A) : logs_only (mret a).
Proof.
  intros w. exists []. split; [by rewrite told_nil|].
  intros e H. by apply elem_of_nil in H.
Qed.

Lemma logs_bind {A B} (m : ZWaveNodes.M A) (k : A → ZWaveNodes.M B) :
  logs_only m → (∀ a, logs_only (k a)) → logs_only (m ≫= k).
Proof.
  intros Hm Hk w. unfold mbind, ZWaveNodes.M_bind.
  destruct (Hm w) as (es & Hes & Hlog). destruct (m w) as [a w1]. cbn [snd] in Hes.
  destruct (Hk a w1) as (es' & Hes' & Hlog'). exists (es ++ es').
  rewrite Hes', Hes, told_app. split; [done|].
  intros e. rewrite elem_of_app. intros [H|H]; [by apply Hlog | by apply Hlog'].
Qed.

Lemma logs_console_log (args : list string) : logs_only (ZWaveNodes.console_log args).
Proof.
  intros w. exists [ConsoleLog args]. split; [done|].
  intros e H. apply list_elem_of_singleton in H as ->. by eexists.
Qed.

Lemma logs_read {A} (f : ZWaveAdapter.t → A) : logs_only (ZWaveNodes.read f).
Proof. intros w. apply (logs_ret tt w). Qed.

Lemma logs_get (node : ZWaveAdapter.ZWaveNode) : logs_only (ZWaveNodes.get node).
Proof. intros w. apply (logs_ret tt w). Qed.

Lemma logs_for_each {A} (l : list A) (body : A → ZWaveNodes.M unit) :
  (∀ x, logs_only (body x)) → logs_only (ZWaveNodes.for_each l body).
Proof.
  intros Hbody. induction l as [|x l IH]; simpl.
  - apply logs_ret.
  - apply logs_bind; [apply Hbody | intros; apply IH].
Qed.

Ltac logs :=
  repeat first
    [ apply logs_ret | apply logs_console_log | apply logs_read | apply logs_get
    | apply logs_for_each; intros
    | apply logs_bind; [|intros] ].

Lemma logs_dump : logs_only (ZWaveNodes.dump oneLineHeader node_oneLineSummary).
Proof. unfold ZWaveNodes.dump, ZWaveNodes.oneLineSummary. logs. Qed.

(** [scanComplete]: the loop, then the line, the flag, the request to
    the driver and the dump. *)
Lemma scanComplete_exec (w : ZWaveNodes.World) :
  let w1 := (ZWaveNodes.for_each (obj_keys (pending_nodes w))
               (announce_waiting classify) w).2 in
  ∃ es,
    (ZWaveNodes.scanComplete classify oneLineHeader node_oneLineSummary w).2
    = told es
        (told [ZWaveDriverCall "requestAllConfigParams" ["3"]]
           (ZWaveNodes.write (ZWaveNodes.set_ready_of_adapter true)
              (told [ConsoleLog ["ZWave: Scan complete"]] w1)).2)
    ∧ ∀ e, e ∈ es → ∃ l, e = ConsoleLog l.
Proof.
  intros w1. subst w1. unfold ZWaveNodes.scanComplete.
  unfold mbind at 1, ZWaveNodes.M_bind at 1, ZWaveNodes.read at 1.
  change (ZWaveAdapter.nodesBeingAdded (ZWaveAdapter.self (ZWaveNodes.adapter w)))
    with (pending_nodes w).
  change (λ nodeId : string, _) with (announce_waiting classify).
  unfold mbind at 1, ZWaveNodes.M_bind at 1.
  destruct (ZWaveNodes.for_each _ _ w) as [[] w1]. cbn [snd].
  unfold mbind, ZWaveNodes.M_bind, ZWaveNodes.console_log. rewrite tell_told.
  destruct (ZWaveNodes.write _ _) as [[] w2] eqn:Hwrite. rewrite tell_told.
  cbn [snd].
  destruct (logs_dump (told [ZWaveDriverCall "requestAllConfigParams" ["3"]] w2))
    as (es & Hes & Hlog).
  exists es. split; [|done].
  by destruct (ZWaveNodes.dump _ _ _) as [[] w3].
Qed.

Lemma in_order_scanComplete (w : ZWaveNodes.World) :
  nodes_in_order w →
  nodes_in_order
    (ZWaveNodes.scanComplete classify oneLineHeader node_oneLineSummary w).2.
Proof.
  intros Hw. destruct (scanComplete_exec w) as (es & -> & _).
  destruct (scan_loop (obj_keys (pending_nodes w)) w Hw) as (Hw1 & _).
  eapply in_order_same; [|exact Hw1]. done.
Qed.

Lemma on_adapter_same {A} (m : ZWaveAdapter.M A) (w : ZWaveNodes.World) :
  ZWaveAdapter.nodes (ZWaveAdapter.self (m (ZWaveNodes.adapter w)).2) = known_nodes w →
  ZWaveAdapter.nodesBeingAdded (ZWaveAdapter.self (m (ZWaveNodes.adapter w)).2)
  = pending_nodes w →
  same_nodes w (ZWaveNodes.on_adapter m w).2.
Proof.
  intros Hk Hp. unfold same_nodes, known_nodes, pending_nodes, ZWaveNodes.on_adapter.
  by destruct (m (ZWaveNodes.adapter w)) as [a zw].
Qed.

Lemma in_order_dispatch (c : ZWaveNodes.Callback) (w : ZWaveNodes.World) :
  records_id new_ZWaveNode →
  nodes_in_order w →
  nodes_in_order
    (ZWaveNodes.dispatch classify new_ZWaveNode oneLineHeader node_oneLineSummary c w).2.
Proof.
  intros Hnew Hw. destruct c; cbn [ZWaveNodes.dispatch].
  - by apply (in_order_same w); [apply keeps_controllerCommand|].
  - apply (in_order_same w); [|done]. apply on_adapter_same;
      by rewrite driverReady_exec.
  - apply (in_order_same w); [|done]. apply on_adapter_same;
      by rewrite driverFailed_exec.
  - by apply in_order_scanComplete.
  - by apply in_order_nodeAdded.
  - by apply (in_order_same w); [apply keeps_nodeNaming|].
  - by apply in_order_nodeRemoved.
  - by apply (in_order_same w); [apply keeps_nodeEvent|].
  - by apply in_order_nodeReady.
  - by apply (in_order_same w); [apply keeps_nodeNotification|].
  - by apply (in_order_same w); [apply keeps_valueAdded|].
  - apply (in_order_same w); [|done].
    apply (keeps_bind _ _ (keeps_valueChanged _ _ _) (λ _, keeps_ret tt)).
  - by apply (in_order_same w); [apply keeps_valueRemoved|].
  - by apply (in_order_same w); [apply on_adapter_same|].
  - by apply (in_order_same w); [apply on_adapter_same|].
  - by apply (in_order_same w); [apply on_adapter_same|].
  - by apply (in_order_same w); [apply on_adapter_same|].
Qed.

Lemma in_order_run (cs : list ZWaveNodes.Callback) (w : ZWaveNodes.World) :
  records_id new_ZWaveNode →
  nodes_in_order w →
  nodes_in_order
    (ZWaveNodes.run classify new_ZWaveNode oneLineHeader node_oneLineSummary cs w).
Proof.
  intros Hnew. revert w. induction cs as [|c cs IH]; intros w Hw; [done|].
  simpl. by apply IH, in_order_dispatch.
Qed.

Lemma in_order_construct (ref : ObjRef) (comName : string) (mw : World)
    (fields0 : ObjRef → ZWaveNodes.NodeFields) (next : ObjRef) :
  nodes_in_order (ZWaveNodes.construct ref comName mw fields0 next).
Proof. by split. Qed.

(** X18. [nodeReady] itself never calls the driver, whatever command
    classes the node has: in [switch (comClass)] the keys of
    [node.classes], which are texts, are compared with [===] to the
    numbers 0x25 and 0x26, so [enablePoll] is never reached.  What the
    callback leaves in the trace is what announcing the node leaves
    there: the classifier's call and what the manager does. *)
Theorem nodeReady_never_calls_the_driver :
  ∀ (nodeId : N) (w : ZWaveNodes.World),
    let w' := (ZWaveNodes.nodeReady classify nodeId w).2 in
    ∃ es, trace (manager_of w') = trace (manager_of w) ++ es
          ∧ ∀ method args, ZWaveDriverCall method args ∉ es.
Proof.
  intros nodeId w w'. subst w'. rewrite nodeReady_exec.
  destruct (obj_get (pretty nodeId) (known_nodes w)) as [node|];
    [|exists []; split; [by rewrite app_nil_r | intros ? ? H; by apply elem_of_nil in H]].
  cbn zeta. set (w1 := ZWaveNodes.with_fields node _ _).
  destruct (obj_has _ _);
    [|exists []; split; [by rewrite app_nil_r | intros ? ? H; by apply elem_of_nil in H]].
  destruct (nodes_handleDeviceAdded_effects node w1) as (_ & Hcontroller & Hdevice).
  destruct (N.ltb_spec 1 (ZWaveAdapter.nodeId node)) as [Hlt|Hle].
  - destruct (Hdevice Hlt) as (_ & _ & es & Htrace & Hquiet).
    eexists. split; [exact Htrace|].
    intros method args. rewrite !elem_of_cons. intros [?|[?|H]]; [done|done|].
    apply Hquiet in H as [(?&?&?)|[(?&?)|(?&?&?)]]; done.
  - rewrite (Hcontroller Hle). exists [].
    split; [by rewrite app_nil_r | intros ? ? H; by apply elem_of_nil in H].
Qed.

(** X19. The life of a node from added to ready, in any state of the
    adapter, for a constructor that records the id.  [nodeAdded] files a
    new node object under the id, as known and as waiting, and announces
    nothing.  [nodeReady] takes the node off the waiting list; when the id
    is above 1 the node is classified, with its fields as they are then,
    and its device is registered with the manager and published as
    thing-added; the controller stays known and the manager hears
    nothing of it. *)
Theorem added_node_is_announced_when_ready :
  ∀ (nodeId : N) (w : ZWaveNodes.World),
    records_id new_ZWaveNode →
    let w1 := (ZWaveNodes.nodeAdded new_ZWaveNode nodeId w).2 in
    let w2 := (ZWaveNodes.nodeReady classify nodeId w1).2 in
    let new := new_ZWaveNode
                 (ZWaveAdapter.base (ZWaveAdapter.self (ZWaveNodes.adapter w))) nodeId in
    let node := ZWaveNodes.with_ref (ZWaveNodes.next_ref w) new.1 in
    let f := ZWaveNodes.set_ready true
               (ZWaveNodes.set_lastStatus "ready"
                  (ZWaveNodes.set_lastStatus "added" new.2)) in
    let node' := ZWaveNodes.classified classify f node in
    let device := ZWaveAdapter.node_device node' in
    obj_get (pretty nodeId) (known_nodes w1) = Some node
    ∧ obj_get (pretty nodeId) (pending_nodes w1) = Some node
    ∧ manager_of w1 = manager_of w
    ∧ obj_get (pretty nodeId) (pending_nodes w2) = None
    ∧ if (1 <? nodeId)%N
      then obj_get (pretty nodeId) (known_nodes w2) = Some node'
           ∧ fields_of w2 node = (classify node f).2
           ∧ (getDevice (device_id device) (manager_of w2)).1 = Some device
           ∧ Emit "thing-added" (OfThing (Device_getThing device))
               ∈ effects_since (manager_of w) (manager_of w2)
      else obj_get (pretty nodeId) (known_nodes w2) = Some node
           ∧ manager_of w2 = manager_of w.
Proof.
  intros nodeId w Hnew w1 w2 new node f node' device.
  destruct (nodeAdded_books nodeId w) as (Hk1 & Hp1 & _ & Hm1 & Hf1).
  fold w1 new node in Hk1, Hp1, Hm1, Hf1.
  assert (Hid : ZWaveAdapter.nodeId node = nodeId) by apply Hnew.
  assert (Hzw : ZWaveAdapter.zwInfo_nodeId node = nodeId) by apply Hnew.
  split; [by rewrite Hk1, obj_get_set_eq|].
  split; [by rewrite Hp1, obj_get_set_eq|]. split; [done|].
  subst w2. rewrite nodeReady_exec, Hk1, obj_get_set_eq. cbn zeta.
  unfold obj_has. rewrite Hp1, obj_get_set_eq.
  set (w1' := ZWaveNodes.with_fields node (ZWaveNodes.set_ready true) _).
  assert (Hf : fields_of w1' node = f).
  { subst w1'. by rewrite !fields_with_fields_same, Hf1. }
  destruct (nodes_handleDeviceAdded_books node w1') as (_ & Hk2 & Hp2).
  destruct (nodes_handleDeviceAdded_effects node w1') as (_ & Hcontroller & Hdevice).
  rewrite Hf in Hk2, Hp2, Hdevice. fold node' device in Hk2, Hp2, Hdevice.
  rewrite Hid, Hzw in *.
  change (known_nodes w1') with (known_nodes w1) in *.
  change (pending_nodes w1') with (pending_nodes w1) in *.
  change (manager_of w1') with (manager_of w1) in *.
  rewrite Hk2, Hp2, Hk1, Hp1.
  destruct (N.ltb_spec 1 nodeId) as [Hlt|Hle].
  - rewrite !obj_get_alias_node, obj_get_delete_eq, obj_get_set_eq. simpl.
    rewrite decide_True by done.
    destruct (Hdevice Hlt) as (Hdev & _ & es & Htrace & _).
    split; [done|]. split; [done|]. split.
    + rewrite nodes_handleDeviceAdded_exec. cbn [snd]. rewrite Hid, Hf.
      destruct (N.ltb_spec 1 nodeId); [|lia]. by rewrite fields_with_fields_same.
    + split.
      * unfold getDevice, read. cbn [fst]. by rewrite Hdev, obj_get_set_eq.
      * rewrite <- Hm1. erewrite effects_since_app by exact Htrace.
        apply elem_of_cons. right. apply list_elem_of_here.
  - rewrite obj_get_delete_eq, obj_get_set_eq. split; [done|]. split; [done|].
    rewrite <- Hm1. by apply Hcontroller.
Qed.

Lemma obj_get_all_None {V} (o : JsObject V) :
  (∀ k, obj_get k o = None) → o = [].
Proof.
  destruct o as [|[k v] o]; [done|]. intros H. specialize (H k). simpl in H.
  by rewrite decide_True in H.
Qed.

Lemma elem_of_obj_keys {V} (k : string) (o : JsObject V) :
  k ∈ obj_keys o ↔ is_Some (obj_get k o).
Proof.
  rewrite (obj_keys_perm o). split.
  - apply obj_get_key_Some.
  - intros [v Hv]. by apply obj_get_Some_key in Hv.
Qed.

(** X20. Whatever callbacks the adapter has received since it was
    built, a node reported ready a second time is not announced again:
    the second [nodeReady] leaves the adapter, its books and the manager
    behind it exactly as the first left them. *)
Theorem node_ready_again_announces_nothing :
  ∀ (cs : list ZWaveNodes.Callback) (ref : ObjRef) (comName : string) (mw : World)
    (fields0 : ObjRef → ZWaveNodes.NodeFields) (next : ObjRef) (nodeId : N),
    records_id new_ZWaveNode →
    let w := ZWaveNodes.run classify new_ZWaveNode oneLineHeader node_oneLineSummary cs
               (ZWaveNodes.construct ref comName mw fields0 next) in
    let w1 := (ZWaveNodes.nodeReady classify nodeId w).2 in
    let w2 := (ZWaveNodes.nodeReady classify nodeId w1).2 in
    obj_has (pretty nodeId) (pending_nodes w1) = false
    ∧ ZWaveNodes.adapter w2 = ZWaveNodes.adapter w1.
Proof.
  intros cs ref comName mw fields0 next nodeId Hnew w w1 w2.
  assert (Hw : nodes_in_order w) by (apply in_order_run, in_order_construct; done).
  destruct (in_order_nodeReady nodeId w Hw) as [_ Hpend]. fold w1 in Hpend.
  unfold obj_has. rewrite Hpend. split; [done|].
  subst w2. rewrite nodeReady_exec.
  destruct (obj_get (pretty nodeId) (known_nodes w1)); [|done].
  cbn zeta. unfold obj_has. by rewrite Hpend.
Qed.

(** X21. Whatever callbacks the adapter has received since it was
    built, [scanComplete] leaves no node waiting and sets the adapter
    ready; the known nodes stay known.  The thing-added events it causes
    are those of the nodes that were waiting with an id above 1, each
    classified with its fields as they were; and the driver is asked for
    the configuration parameters. *)
Theorem scanComplete_announces_every_waiting_node :
  ∀ (cs : list ZWaveNodes.Callback) (ref : ObjRef) (comName : string) (mw : World)
    (fields0 : ObjRef → ZWaveNodes.NodeFields) (next : ObjRef),
    records_id new_ZWaveNode →
    let w := ZWaveNodes.run classify new_ZWaveNode oneLineHeader node_oneLineSummary cs
               (ZWaveNodes.construct ref comName mw fields0 next) in
    let w' := (ZWaveNodes.scanComplete classify oneLineHeader node_oneLineSummary w).2 in
    pending_nodes w' = []
    ∧ ZWaveAdapter.ready (ZWaveAdapter.self (ZWaveNodes.adapter w')) = true
    ∧ (∀ k, is_Some (obj_get k (known_nodes w')) ↔ is_Some (obj_get k (known_nodes w)))
    ∧ (∀ event arg,
         Emit event arg ∈ effects_since (manager_of w) (manager_of w') ↔
         event = "thing-added"
         ∧ ∃ k node, obj_get k (pending_nodes w) = Some node
                     ∧ (1 < ZWaveAdapter.nodeId node)%N
                     ∧ arg = OfThing
                               (Device_getThing
                                  (ZWaveAdapter.node_device
                                     (ZWaveNodes.classified classify
                                        (fields_of w node) node))))
    ∧ ∀ method args,
        ZWaveDriverCall method args ∈ effects_since (manager_of w) (manager_of w') ↔
        method = "requestAllConfigParams" ∧ args = ["3"].
Proof.
  intros cs ref comName mw fields0 next Hnew w w'.
  assert (Hw : nodes_in_order w) by (apply in_order_run, in_order_construct; done).
  destruct (scanComplete_exec w) as (es & Hexec & Hlog). fold w' in Hexec.
  destruct (scan_loop (obj_keys (pending_nodes w)) w Hw)
    as (_ & Hpend & Hknown & es1 & Htrace & Hquiet & Hemit).
  set (w1 := (ZWaveNodes.for_each _ _ w).2) in *.
  assert (Hp' : pending_nodes w' = pending_nodes w1) by (by rewrite Hexec).
  assert (Hk' : known_nodes w' = known_nodes w1) by (by rewrite Hexec).
  assert (Ht' : trace (manager_of w')
                = trace (manager_of w)
                  ++ es1 ++ [ConsoleLog ["ZWave: Scan complete"];
                             ZWaveDriverCall "requestAllConfigParams" ["3"]] ++ es).
  { rewrite Hexec, trace_told, trace_told.
    change (trace (manager_of (ZWaveNodes.write _ (told _ w1)).2))
      with (trace (manager_of (told [ConsoleLog ["ZWave: Scan complete"]] w1))).
    rewrite trace_told, Htrace. by rewrite <- !app_assoc. }
  split; [|split; [by rewrite Hexec|split; [by intros k; rewrite Hk'|]]].
  - rewrite Hp'. apply obj_get_all_None. intros k.
    destruct (obj_get k (pending_nodes w1)) as [x|] eqn:Hx; [|done].
    apply Hpend in Hx as [Hin Hx]. destruct Hin. apply elem_of_obj_keys. by eexists.
  - rewrite (effects_since_app _ _ _ Ht'). split.
    + intros event arg. rewrite !elem_of_app, !elem_of_cons, Hemit. split.
      * intros [(-> & k & node & _ & Hrest)|[[?|[?|H]]|H]]; try done.
        -- split; [done|]. by exists k, node.
        -- by apply elem_of_nil in H.
        -- by apply Hlog in H as [? ?].
      * intros (-> & k & node & Hnode & Hrest). left. split; [done|].
        exists k, node. split; [|done]. apply elem_of_obj_keys. by eexists.
    + intros method args. rewrite !elem_of_app, !elem_of_cons. split.
      * intros [H|[[?|[[= -> ->]|H]]|H]]; try done.
        -- by apply Hquiet in H.
        -- by apply elem_of_nil in H.
        -- by apply Hlog in H as [? ?].
      * intros [-> ->]. right. left. right. by left.
Qed.

(** X22. Whatever callbacks the adapter has received since it was
    built, its books are in order: every node waiting to be announced is a
    known node, the same object under the same key, and that key is the
    node's [zwInfo.nodeId]; and no two keys hold the same node object. *)
Theorem waiting_nodes_are_known_nodes :
  ∀ (cs : list ZWaveNodes.Callback) (ref : ObjRef) (comName : string) (mw : World)
    (fields0 : ObjRef → ZWaveNodes.NodeFields) (next : ObjRef),
    records_id new_ZWaveNode →
    let w := ZWaveNodes.run classify new_ZWaveNode oneLineHeader node_oneLineSummary cs
               (ZWaveNodes.construct ref comName mw fields0 next) in
    (∀ k node, obj_get k (pending_nodes w) = Some node →
               obj_get k (known_nodes w) = Some node
               ∧ k = pretty (ZWaveAdapter.zwInfo_nodeId node))
    ∧ (∀ k1 k2 n1 n2,
         obj_get k1 (known_nodes w) = Some n1 → obj_get k2 (known_nodes w) = Some n2 →
         ZWaveAdapter.node_ref n1 = ZWaveAdapter.node_ref n2 → k1 = k2).
Proof.
  intros cs ref comName mw fields0 next Hnew w.
  assert (Hw : nodes_in_order w) by (apply in_order_run, in_order_construct; done).
  destruct Hw as [H1 H2 _ H4]. split; [|exact H4].
  intros k node Hnode. split; [by apply H1 | by apply H2].
Qed.

(** X23. A node that is removed is announced as removed whether or not
    it was ever announced as added.  In any state of the adapter, for a
    constructor that records the id, [nodeAdded] followed by [nodeRemoved]
    announces nothing at first, then takes the node off both books and
    reports its device to the manager as removed: thing-removed is
    published, for the controller too, and an open remove session would
    be resolved with it. *)
Theorem removed_node_is_reported_though_never_announced :
  ∀ (nodeId : N) (w : ZWaveNodes.World),
    records_id new_ZWaveNode →
    let w1 := (ZWaveNodes.nodeAdded new_ZWaveNode nodeId w).2 in
    let w2 := (ZWaveNodes.nodeRemoved nodeId w1).2 in
    let new := new_ZWaveNode
                 (ZWaveAdapter.base (ZWaveAdapter.self (ZWaveNodes.adapter w))) nodeId in
    let device := ZWaveAdapter.node_device new.1 in
    manager_of w1 = manager_of w
    ∧ obj_get (pretty nodeId) (known_nodes w2) = None
    ∧ obj_get (pretty nodeId) (pending_nodes w2) = None
    ∧ manager_of w2 = (handleDeviceRemoved device (manager_of w)).2
    ∧ Emit "thing-removed" (OfThing (Device_getThing device))
        ∈ effects_since (manager_of w) (manager_of w2)
    ∧ (∀ arg, Emit "thing-added" arg ∉ effects_since (manager_of w) (manager_of w2))
    ∧ fields_of w2 (ZWaveNodes.with_ref (ZWaveNodes.next_ref w) new.1)
      = ZWaveNodes.set_lastStatus "removed" (ZWaveNodes.set_lastStatus "added" new.2).
Proof.
  intros nodeId w Hnew w1 w2 new device.
  destruct (nodeAdded_books nodeId w) as (Hk1 & Hp1 & _ & Hm1 & Hf1).
  fold w1 new in Hk1, Hp1, Hm1, Hf1.
  set (node := ZWaveNodes.with_ref (ZWaveNodes.next_ref w) new.1) in *.
  assert (Hzw : ZWaveAdapter.zwInfo_nodeId node = nodeId) by apply Hnew.
  destruct (nodeRemoved_books nodeId w1) as (_ & Hb). fold w2 in Hb.
  rewrite Hk1, obj_get_set_eq in Hb. cbn zeta in Hb. rewrite Hzw in Hb.
  destruct Hb as (Hk2 & Hp2 & Hm2). rewrite Hm1 in Hm2.
  change (ZWaveAdapter.node_device node) with device in Hm2.
  split; [done|]. split; [by rewrite Hk2, obj_get_delete_eq|].
  split; [by rewrite Hp2, obj_get_delete_eq|]. split; [done|].
  destruct (manager_handleDeviceRemoved_effects device (manager_of w))
    as (es & Htrace & Hquiet).
  rewrite <- Hm2 in Htrace. rewrite (effects_since_app _ _ _ Htrace).
  split; [apply list_elem_of_here|]. split.
  - intros arg. rewrite elem_of_cons. intros [?|H]; [done|].
    apply Hquiet in H as [(?&?&?)|[(?&?)|(?&?&?)]]; done.
  - subst w2. rewrite nodeRemoved_exec, Hk1, obj_get_set_eq. cbn [snd].
    change (fields_of (ZWaveNodes.with_adapter ?zw ?w) node) with (fields_of w node).
    by rewrite fields_with_fields_same, Hf1.
Qed.

Lemma fields_told (es : list Effect) (w : ZWaveNodes.World)
    (node : ZWaveAdapter.ZWaveNode) :
  fields_of (told es w) node = fields_of w node.
Proof. done. Qed.

(** X24. What the driver reports about a node the adapter does not
    know is dropped: [nodeNaming], [nodeRemoved], [nodeReady] and
    [valueChanged] leave everything as it is and write nothing;
    [valueAdded], [valueRemoved] and [nodeNotification] write to the
    console at most. *)
Theorem reports_about_an_unknown_node_are_dropped :
  ∀ (nodeId : N) (w : ZWaveNodes.World),
    obj_get (pretty nodeId) (known_nodes w) = None →
    (∀ nodeInfo, ZWaveNodes.nodeNaming nodeId nodeInfo w = (tt, w))
    ∧ ZWaveNodes.nodeRemoved nodeId w = (tt, w)
    ∧ ZWaveNodes.nodeReady classify nodeId w = (tt, w)
    ∧ (∀ comClass v,
         ZWaveNodes.valueChanged nodeId comClass v w = (ZWaveLoader.Returned, w))
    ∧ (∀ comClass v, ∃ es,
         (ZWaveNodes.valueAdded nodeId comClass v w).2 = told es w
         ∧ ∀ e, e ∈ es → ∃ l, e = ConsoleLog l)
    ∧ (∀ comClass value_index, ∃ es,
         (ZWaveNodes.valueRemoved nodeId comClass value_index w).2 = told es w
         ∧ ∀ e, e ∈ es → ∃ l, e = ConsoleLog l)
    ∧ (∀ notif, ∃ es,
         (ZWaveNodes.nodeNotification nodeId notif w).2 = told es w
         ∧ ∀ e, e ∈ es → ∃ l, e = ConsoleLog l).
Proof.
  intros nodeId w Hnone. unfold known_nodes in Hnone.
  split; [|split; [|split; [|split; [|split; [|split]]]]].
  - intros nodeInfo. unfold ZWaveNodes.nodeNaming. unfold_N. cbn [fst snd].
    by rewrite Hnone.
  - by rewrite nodeRemoved_exec; unfold known_nodes; rewrite Hnone.
  - by rewrite nodeReady_exec; unfold known_nodes; rewrite Hnone.
  - intros comClass v. unfold ZWaveNodes.valueChanged. unfold_N. cbn [fst snd].
    by rewrite Hnone.
  - intros comClass v. unfold ZWaveNodes.valueAdded, ZWaveNodes.DEBUG.
    rewrite orb_false_r.
    destruct (bool_decide _).
    + eexists. split.
      * unfold mbind, ZWaveNodes.M_bind, ZWaveNodes.console_log. rewrite tell_told.
        unfold ZWaveNodes.read. cbn [fst snd ZWaveNodes.adapter told].
        change (ZWaveAdapter.nodes _) with (known_nodes w). fold (known_nodes w) in Hnone.
        rewrite Hnone. reflexivity.
      * intros e H. apply list_elem_of_singleton in H as ->. by eexists.
    + exists []. split; [|intros e H; by apply elem_of_nil in H].
      unfold_N. cbn [fst snd]. by rewrite Hnone, told_nil.
  - intros comClass value_index. eexists. split.
    + unfold ZWaveNodes.valueRemoved.
      unfold mbind, ZWaveNodes.M_bind, ZWaveNodes.console_log. rewrite tell_told.
      unfold ZWaveNodes.read. cbn [fst snd].
      change (ZWaveAdapter.nodes _) with (known_nodes w). fold (known_nodes w) in Hnone.
      rewrite Hnone. reflexivity.
    + intros e H. apply list_elem_of_singleton in H as ->. by eexists.
  - intros notif.
    unfold ZWaveNodes.nodeNotification, ZWaveNodes.DEBUG.
    unfold mbind at 1, ZWaveNodes.M_bind at 1, ZWaveNodes.read at 1.
    rewrite Hnone.
    refine (logs_bind _ _ _ _ w).
    + destruct notif as [|[[[]|[]|]|[[]|[]|]|]]; logs.
    + intros [ls|]; apply logs_ret.
Qed.

Lemma obj_set_same {V} (k : string) (v : V) (o : JsObject V) :
  obj_get k o = Some v → obj_set k v o = o.
Proof.
  induction o as [|[k' v'] o IH]; simpl; [done|].
  destruct (decide (k' = k)) as [->|Hne].
  - by intros [= ->].
  - intros H. by rewrite IH.
Qed.

Lemma obj_set_set {V} (k : string) (v v' : V) (o : JsObject V) :
  obj_set k v (obj_set k v' o) = obj_set k v o.
Proof.
  induction o as [|[k0 v0] o IH]; simpl.
  - by rewrite decide_True.
  - destruct (decide (k0 = k)) as [->|Hne]; simpl.
    + by rewrite decide_True.
    + rewrite decide_False by done. by rewrite IH.
Qed.

Lemma valueAdded_exec (nodeId comClass : N) (v : ZWaveNodes.Value)
    (w : ZWaveNodes.World) (node : ZWaveAdapter.ZWaveNode) :
  obj_get (pretty nodeId) (known_nodes w) = Some node →
  let user := bool_decide (ZWaveNodes.value_genre v = "user") in
  let w0 :=
    if user
    then told [ConsoleLog ["ZWave: node%d valueAdded: %d:%s -> %s"; pretty nodeId;
                           pretty comClass; ZWaveNodes.value_label v;
                           ZWaveNodes.show_value (ZWaveNodes.value_value v)]] w
    else w in
  let w4 :=
    ZWaveNodes.with_fields node
      (λ f, ZWaveNodes.set_values
              (obj_set (ZWaveNodes.value_id v) v (ZWaveNodes.values f)) f)
      (ZWaveNodes.with_fields node (ZWaveNodes.set_class_value (pretty comClass) v)
         (ZWaveNodes.with_fields node
            (λ f, if obj_has (pretty comClass) (ZWaveNodes.classes f) then f
                  else ZWaveNodes.set_classes
                         (obj_set (pretty comClass) [] (ZWaveNodes.classes f)) f)
            (ZWaveNodes.with_fields node (ZWaveNodes.set_lastStatus "added") w0))) in
  (ZWaveNodes.valueAdded nodeId comClass v w).2 =
    if user
    then ZWaveNodes.with_fields node
           (λ f, if ZWaveNodes.opt_truthy (ZWaveNodes.defaultName f) then f
                 else ZWaveNodes.set_defaultName
                        (adapter_id (ZWaveAdapter.base
                                       (ZWaveAdapter.self (ZWaveNodes.adapter w)))
                         +:+ "-" +:+ pretty nodeId +:+ "-" +:+ ZWaveNodes.value_label v) f)
           (ZWaveNodes.with_fields node
              (λ f, ZWaveNodes.set_properties
                      (obj_set (ZWaveNodes.value_id v) (ZWaveNodes.property_of v)
                         (ZWaveNodes.properties f)) f) w4)
    else w4.
Proof.
  intros Hnode user w0 w4. subst w4 w0 user.
  unfold ZWaveNodes.valueAdded, ZWaveNodes.DEBUG, known_nodes in *.
  rewrite orb_false_r. unfold_N.
  destruct (bool_decide (ZWaveNodes.value_genre v = "user")); cbn;
    rewrite Hnode; reflexivity.
Qed.

Lemma valueChanged_exec (nodeId comClass : N) (v : ZWaveNodes.Value)
    (w : ZWaveNodes.World) (node : ZWaveAdapter.ZWaveNode) :
  obj_get (pretty nodeId) (known_nodes w) = Some node →
  let f := fields_of w node in
  let w0 :=
    told [ConsoleLog ["ZWave: node%d valueChanged: %d:%s -> %s"; pretty nodeId;
                      pretty comClass; ZWaveNodes.value_label v;
                      ZWaveNodes.show_value (ZWaveNodes.value_value v)]] w in
  ZWaveNodes.valueChanged nodeId comClass v w =
    if ZWaveNodes.ready f then
      if obj_has (pretty comClass) (ZWaveNodes.classes f) then
        (ZWaveLoader.Returned,
         ZWaveNodes.with_fields node
           (λ f, match obj_get (ZWaveNodes.value_id v) (ZWaveNodes.properties f) with
                 | Some p =>
                     ZWaveNodes.set_properties
                       (obj_set (ZWaveNodes.value_id v)
                          {| ZWaveNodes.property_id := ZWaveNodes.property_id p;
                             ZWaveNodes.property_name := ZWaveNodes.property_name p;
                             ZWaveNodes.property_type := ZWaveNodes.property_type p;
                             ZWaveNodes.property_value := ZWaveNodes.value_value v;
                             ZWaveNodes.property_zwValue := v |}
                          (ZWaveNodes.properties f)) f
                 | None => f
                 end)
           (ZWaveNodes.with_fields node
              (ZWaveNodes.set_class_value (pretty comClass) v) w0))
      else (ZWaveLoader.Threw "TypeError: cannot set a property of undefined", w0)
    else (ZWaveLoader.Returned, w).
Proof.
  intros Hnode f w0. subst w0 f.
  unfold ZWaveNodes.valueChanged, known_nodes, fields_of in *.
  unfold_N. cbn [fst snd]. rewrite Hnode.
  destruct (ZWaveNodes.ready _); [|done]. cbn.
  by destruct (obj_has _ _).
Qed.

Lemma valueRemoved_exec (nodeId comClass value_index : N)
    (w : ZWaveNodes.World) (node : ZWaveAdapter.ZWaveNode) :
  obj_get (pretty nodeId) (known_nodes w) = Some node →
  let f := fields_of w node in
  let w0 :=
    told [ConsoleLog ["ZWave: node%d valueRemoved: %d"; pretty nodeId; pretty comClass]]
      w in
  (ZWaveNodes.valueRemoved nodeId comClass value_index w).2 =
    match obj_get (pretty comClass) (ZWaveNodes.classes f) with
    | Some vs =>
        match obj_get (pretty value_index) vs with
        | Some v =>
            ZWaveNodes.with_fields node
              (λ f, ZWaveNodes.set_properties
                      (obj_delete (ZWaveNodes.value_id v) (ZWaveNodes.properties f)) f)
              (ZWaveNodes.with_fields node
                 (λ f, ZWaveNodes.set_values
                         (obj_delete (ZWaveNodes.value_id v) (ZWaveNodes.values f)) f)
                 (ZWaveNodes.with_fields node
                    (λ f, ZWaveNodes.set_classes
                            (obj_set (pretty comClass)
                               (obj_delete (pretty value_index) vs)
                               (ZWaveNodes.classes f)) f)
                    w0))
        | None => w0
        end
    | None => w0
    end.
Proof.
  intros Hnode f w0. subst w0 f.
  unfold ZWaveNodes.valueRemoved, known_nodes, fields_of in *.
  unfold_N. cbn. rewrite Hnode. cbn.
  destruct (obj_get (pretty comClass) _) as [vs|]; [|done].
  by destruct (obj_get (pretty value_index) vs).
Qed.

(** X25. [valueChanged] for a known node: while the node is not ready
    the change is dropped and nothing is written; once it is ready, a
    change in a command class of which no value was ever added throws,
    after the console line and before anything is stored. *)
Theorem valueChanged_needs_a_ready_node_with_the_class :
  ∀ (nodeId comClass : N) (v : ZWaveNodes.Value) (w : ZWaveNodes.World)
    (node : ZWaveAdapter.ZWaveNode),
    obj_get (pretty nodeId) (known_nodes w) = Some node →
    let f := fields_of w node in
    (ZWaveNodes.ready f = false →
     ZWaveNodes.valueChanged nodeId comClass v w = (ZWaveLoader.Returned, w))
    ∧ (ZWaveNodes.ready f = true →
       obj_get (pretty comClass) (ZWaveNodes.classes f) = None →
       ∃ error,
         ZWaveNodes.valueChanged nodeId comClass v w =
           (ZWaveLoader.Threw error,
            told [ConsoleLog ["ZWave: node%d valueChanged: %d:%s -> %s"; pretty nodeId;
                              pretty comClass; ZWaveNodes.value_label v;
                              ZWaveNodes.show_value (ZWaveNodes.value_value v)]] w)).
Proof.
  intros nodeId comClass v w node Hnode f.
  rewrite (valueChanged_exec nodeId comClass v w node Hnode). fold f. split.
  - by intros ->.
  - intros -> Hclass. unfold obj_has. rewrite Hclass. by eexists.
Qed.

Lemma classes_set_class_value (c : string) (v : ZWaveNodes.Value)
    (f : ZWaveNodes.NodeFields) (vs : JsObject ZWaveNodes.Value) :
  obj_get c (ZWaveNodes.classes f) = Some vs →
  ZWaveNodes.set_class_value c v f
  = ZWaveNodes.set_classes
      (obj_set c (obj_set (pretty (ZWaveNodes.value_index v)) v vs)
         (ZWaveNodes.classes f)) f.
Proof. intros H. unfold ZWaveNodes.set_class_value. by rewrite H. Qed.

(** X26. A value added to a known node and removed again, in a command
    class the node already has: [node.classes], [node.values] and
    [node.properties] are back to exactly what they were, when the value's
    index and id were not in use.  What stays is the status, and the
    default name that a first user value has given the node. *)
Theorem value_added_then_removed :
  ∀ (nodeId comClass : N) (v : ZWaveNodes.Value) (w : ZWaveNodes.World)
    (node : ZWaveAdapter.ZWaveNode) (vs : JsObject ZWaveNodes.Value),
    obj_get (pretty nodeId) (known_nodes w) = Some node →
    let f := fields_of w node in
    obj_get (pretty comClass) (ZWaveNodes.classes f) = Some vs →
    absent (pretty (ZWaveNodes.value_index v)) vs →
    absent (ZWaveNodes.value_id v) (ZWaveNodes.values f) →
    absent (ZWaveNodes.value_id v) (ZWaveNodes.properties f) →
    let w1 := (ZWaveNodes.valueAdded nodeId comClass v w).2 in
    let w2 := (ZWaveNodes.valueRemoved nodeId comClass (ZWaveNodes.value_index v) w1).2 in
    let f1 := fields_of w1 node in
    let f2 := fields_of w2 node in
    let user := bool_decide (ZWaveNodes.value_genre v = "user") in
    obj_get (pretty comClass) (ZWaveNodes.classes f1)
      = Some (vs ++ [(pretty (ZWaveNodes.value_index v), v)])
    ∧ ZWaveNodes.values f1 = ZWaveNodes.values f ++ [(ZWaveNodes.value_id v, v)]
    ∧ ZWaveNodes.properties f1
      = (if user
         then ZWaveNodes.properties f
              ++ [(ZWaveNodes.value_id v, ZWaveNodes.property_of v)]
         else ZWaveNodes.properties f)
    ∧ ZWaveNodes.classes f2 = ZWaveNodes.classes f
    ∧ ZWaveNodes.values f2 = ZWaveNodes.values f
    ∧ ZWaveNodes.properties f2 = ZWaveNodes.properties f
    ∧ ZWaveNodes.lastStatus f2 = Some "added"
    ∧ ZWaveNodes.defaultName f2
      = (if user && negb (ZWaveNodes.opt_truthy (ZWaveNodes.defaultName f))
         then Some (adapter_id (ZWaveAdapter.base
                                  (ZWaveAdapter.self (ZWaveNodes.adapter w)))
                    +:+ "-" +:+ pretty nodeId +:+ "-" +:+ ZWaveNodes.value_label v)
         else ZWaveNodes.defaultName f)
    ∧ same_nodes w w2.
Proof.
  intros nodeId comClass v w node vs Hnode f Hclass Hindex Hvalues Hprops
    w1 w2 f1 f2 user.
  assert (Hf1 : f1 =
    let f4 := ZWaveNodes.set_values
                (obj_set (ZWaveNodes.value_id v) v (ZWaveNodes.values f))
                (ZWaveNodes.set_classes
                   (obj_set (pretty comClass)
                      (obj_set (pretty (ZWaveNodes.value_index v)) v vs)
                      (ZWaveNodes.classes f))
                   (ZWaveNodes.set_lastStatus "added" f)) in
    if user
    then let f5 := ZWaveNodes.set_properties
                     (obj_set (ZWaveNodes.value_id v) (ZWaveNodes.property_of v)
                        (ZWaveNodes.properties f)) f4 in
         if ZWaveNodes.opt_truthy (ZWaveNodes.defaultName f) then f5
         else ZWaveNodes.set_defaultName
                (adapter_id (ZWaveAdapter.base
                               (ZWaveAdapter.self (ZWaveNodes.adapter w)))
                 +:+ "-" +:+ pretty nodeId +:+ "-" +:+ ZWaveNodes.value_label v) f5
    else f4).
  { subst f1 w1. rewrite (valueAdded_exec nodeId comClass v w node Hnode). fold user.
    destruct user; rewrite !fields_with_fields_same, ?fields_told; fold f;
      cbn [ZWaveNodes.classes ZWaveNodes.set_lastStatus];
      unfold obj_has; rewrite Hclass;
      rewrite (classes_set_class_value _ _ _ vs) by done; done. }
  assert (Hnode1 : obj_get (pretty nodeId) (known_nodes w1) = Some node).
  { subst w1. by rewrite (proj1 (keeps_valueAdded nodeId comClass v w)). }
  assert (Hclass1 : obj_get (pretty comClass) (ZWaveNodes.classes f1)
                    = Some (obj_set (pretty (ZWaveNodes.value_index v)) v vs)).
  { rewrite Hf1. cbn zeta.
    destruct user; [destruct (ZWaveNodes.opt_truthy _)|]; simpl;
      by rewrite obj_get_set_eq. }
  assert (Hf2 : f2 =
    ZWaveNodes.set_properties
      (obj_delete (ZWaveNodes.value_id v) (ZWaveNodes.properties f1))
      (ZWaveNodes.set_values
         (obj_delete (ZWaveNodes.value_id v) (ZWaveNodes.values f1))
         (ZWaveNodes.set_classes
            (obj_set (pretty comClass)
               (obj_delete (pretty (ZWaveNodes.value_index v))
                  (obj_set (pretty (ZWaveNodes.value_index v)) v vs))
               (ZWaveNodes.classes f1)) f1))).
  { subst f2 w2.
    rewrite (valueRemoved_exec nodeId comClass (ZWaveNodes.value_index v) w1 node Hnode1).
    fold f1. rewrite Hclass1, obj_get_set_eq.
    by rewrite !fields_with_fields_same, ?fields_told. }
  split; [by rewrite Hclass1, obj_set_absent|].
  rewrite Hf2, obj_delete_set_absent by done. rewrite Hf1. cbn zeta.
  destruct user; [destruct (ZWaveNodes.opt_truthy _)|]; simpl;
    rewrite ?obj_delete_set_absent, ?obj_set_absent, ?obj_set_set by done;
    rewrite ?(obj_set_same _ _ _ Hclass), ?obj_delete_absent by done;
    repeat (split; [done|]);
    (eapply same_nodes_trans; [apply keeps_valueAdded | apply keeps_valueRemoved]).
Qed.

(** X27. A user value is added to a known node that is ready, and then
    reported changed under the same id and index.  The change returns
    normally; it reaches [node.classes] and the entry of
    [node.properties], whose name and type stay those of the value first
    added; it does not reach [node.values], which still holds the value
    first added. *)
Theorem changed_value_does_not_reach_node_values :
  ∀ (nodeId comClass : N) (v v' : ZWaveNodes.Value) (w : ZWaveNodes.World)
    (node : ZWaveAdapter.ZWaveNode),
    obj_get (pretty nodeId) (known_nodes w) = Some node →
    ZWaveNodes.ready (fields_of w node) = true →
    ZWaveNodes.value_genre v = "user" →
    ZWaveNodes.value_id v' = ZWaveNodes.value_id v →
    ZWaveNodes.value_index v' = ZWaveNodes.value_index v →
    let w1 := (ZWaveNodes.valueAdded nodeId comClass v w).2 in
    let r := ZWaveNodes.valueChanged nodeId comClass v' w1 in
    let f2 := fields_of r.2 node in
    r.1 = ZWaveLoader.Returned
    ∧ (∃ vs, obj_get (pretty comClass) (ZWaveNodes.classes f2) = Some vs
             ∧ obj_get (pretty (ZWaveNodes.value_index v)) vs = Some v')
    ∧ obj_get (ZWaveNodes.value_id v) (ZWaveNodes.properties f2)
      = Some {| ZWaveNodes.property_id := ZWaveNodes.value_id v;
                ZWaveNodes.property_name := ZWaveNodes.value_label v;
                ZWaveNodes.property_type := ZWaveNodes.value_type v;
                ZWaveNodes.property_value := ZWaveNodes.value_value v';
                ZWaveNodes.property_zwValue := v' |}
    ∧ obj_get (ZWaveNodes.value_id v) (ZWaveNodes.values f2) = Some v.
Proof.
  intros nodeId comClass v v' w node Hnode Hready Huser Hid Hindex w1 r f2.
  set (f := fields_of w node) in *.
  set (f1 := fields_of w1 node).
  assert (Hnode1 : obj_get (pretty nodeId) (known_nodes w1) = Some node).
  { subst w1. by rewrite (proj1 (keeps_valueAdded nodeId comClass v w)). }
  assert (Hf1 : ZWaveNodes.ready f1 = true
                ∧ (∃ vs, obj_get (pretty comClass) (ZWaveNodes.classes f1) = Some vs
                         ∧ obj_get (pretty (ZWaveNodes.value_index v)) vs = Some v)
                ∧ obj_get (ZWaveNodes.value_id v) (ZWaveNodes.properties f1)
                  = Some (ZWaveNodes.property_of v)
                ∧ obj_get (ZWaveNodes.value_id v) (ZWaveNodes.values f1) = Some v).
  { subst f1 w1. rewrite (valueAdded_exec nodeId comClass v w node Hnode).
    rewrite bool_decide_true by done.
    rewrite !fields_with_fields_same, ?fields_told. fold f.
    set (f0 := if obj_has _ _ then _ else _).
    assert (Hf0 : ZWaveNodes.ready f0 = true
                  ∧ ZWaveNodes.values f0 = ZWaveNodes.values f
                  ∧ ZWaveNodes.properties f0 = ZWaveNodes.properties f
                  ∧ ∃ vs, obj_get (pretty comClass) (ZWaveNodes.classes f0) = Some vs).
    { subst f0. unfold obj_has. simpl.
      destruct (obj_get (pretty comClass) (ZWaveNodes.classes f)) as [vs|] eqn:Hvs; simpl.
      - repeat (split; [done|]). by exists vs.
      - repeat (split; [done|]). exists []. by rewrite obj_get_set_eq. }
    destruct Hf0 as (Hr0 & Hv0 & Hp0 & vs & Hvs).
    rewrite (classes_set_class_value _ _ _ vs) by done.
    destruct (ZWaveNodes.opt_truthy _); simpl; rewrite !obj_get_set_eq;
      (split; [done|]); (split; [|done]);
      eexists; (split; [reflexivity|]); by rewrite obj_get_set_eq. }
  destruct Hf1 as (Hready1 & (vs & Hvs & Hv) & Hprop1 & Hval1).
  subst f2 r. rewrite (valueChanged_exec nodeId comClass v' w1 node Hnode1).
  fold f1. rewrite Hready1. unfold obj_has. rewrite Hvs. cbn [fst snd].
  split; [done|].
  rewrite !fields_with_fields_same, ?fields_told. fold f1.
  rewrite (classes_set_class_value _ _ _ vs) by done.
  cbn [ZWaveNodes.properties ZWaveNodes.set_classes]. rewrite Hid, Hprop1.
  simpl. rewrite !obj_get_set_eq. split; [|done].
  eexists. split; [reflexivity|]. by rewrite Hindex, obj_get_set_eq.
Qed.

Lemma nodeNaming_exec (nodeId : N) (nodeInfo : ZWaveNodes.NodeInfo)
    (w : ZWaveNodes.World) (node : ZWaveAdapter.ZWaveNode) :
  obj_get (pretty nodeId) (known_nodes w) = Some node →
  let w3 :=
    ZWaveNodes.with_fields node
      (λ f, if ZWaveNodes.text_truthy (ZWaveNodes.nodeInfo_name nodeInfo)
            then ZWaveNodes.set_name (ZWaveNodes.nodeInfo_name nodeInfo) f
            else if ZWaveNodes.opt_truthy (ZWaveNodes.defaultName f)
            then ZWaveNodes.set_name (ZWaveNodes.show_text (ZWaveNodes.defaultName f)) f
            else if (1 <? nodeId)%N
            then ZWaveNodes.set_name (device_id (ZWaveAdapter.node_device node)) f
            else f)
      (ZWaveNodes.with_fields node
         (ZWaveNodes.set_zwInfo (ZWaveNodes.named_zwInfo nodeInfo))
         (ZWaveNodes.with_fields node (ZWaveNodes.set_lastStatus "named") w)) in
  ∃ line1 line2,
    (ZWaveNodes.nodeNaming nodeId nodeInfo w).2 =
      ZWaveNodes.with_fields node (ZWaveNodes.set_named true)
        (if ZWaveNodes.named (fields_of w node) then w3
         else told [ConsoleLog line1; ConsoleLog line2] w3).
Proof.
  intros Hnode w3.
  unfold ZWaveNodes.nodeNaming, ZWaveNodes.DEBUG, known_nodes in *.
  unfold mbind at 1, ZWaveNodes.M_bind at 1, ZWaveNodes.read at 1. rewrite Hnode.
  unfold_N. cbn [fst snd orb]. fold w3.
  change (ZWaveNodes.fields w3 (ZWaveAdapter.node_ref node)) with (fields_of w3 node).
  assert (Hnamed : ZWaveNodes.named (fields_of w3 node)
                   = ZWaveNodes.named (fields_of w node)).
  { subst w3. rewrite !fields_with_fields_same. by repeat case_match. }
  rewrite Hnamed. destruct (ZWaveNodes.named (fields_of w node)); cbn [negb].
  - by exists [], [].
  - eexists _, _.
    match goal with
    | |- _ = ZWaveNodes.with_fields _ _ (told [?a; ?b] ?w) =>
        rewrite <- (told_app [a] [b] w)
    end.
    reflexivity.
Qed.

(** X28. A known node is named aloud once.  The first [nodeNaming]
    marks the node as named, and writes two lines to the console when it
    was not named before; a second [nodeNaming] writes nothing and leaves
    the adapter and the manager as they are, while it still renames the
    node: to the name the driver reports when there is one, else to the
    default name, else to the device id when the node is not the
    controller. *)
Theorem node_is_named_aloud_once :
  ∀ (nodeId : N) (nodeInfo nodeInfo' : ZWaveNodes.NodeInfo) (w : ZWaveNodes.World)
    (node : ZWaveAdapter.ZWaveNode),
    obj_get (pretty nodeId) (known_nodes w) = Some node →
    let w1 := (ZWaveNodes.nodeNaming nodeId nodeInfo w).2 in
    let w2 := (ZWaveNodes.nodeNaming nodeId nodeInfo' w1).2 in
    ZWaveNodes.named (fields_of w1 node) = true
    ∧ ZWaveNodes.lastStatus (fields_of w1 node) = Some "named"
    ∧ (ZWaveNodes.named (fields_of w node) = false →
       ∃ line1 line2, effects_since (manager_of w) (manager_of w1)
                      = [ConsoleLog line1; ConsoleLog line2])
    ∧ ZWaveNodes.adapter w2 = ZWaveNodes.adapter w1
    ∧ ZWaveNodes.name (fields_of w2 node)
      = (if ZWaveNodes.text_truthy (ZWaveNodes.nodeInfo_name nodeInfo')
         then ZWaveNodes.nodeInfo_name nodeInfo'
         else if ZWaveNodes.opt_truthy (ZWaveNodes.defaultName (fields_of w node))
         then ZWaveNodes.show_text (ZWaveNodes.defaultName (fields_of w node))
         else if (1 <? nodeId)%N then device_id (ZWaveAdapter.node_device node)
         else ZWaveNodes.name (fields_of w1 node)).
Proof.
  intros nodeId nodeInfo nodeInfo' w node Hnode w1 w2.
  destruct (nodeNaming_exec nodeId nodeInfo w node Hnode) as (l1 & l2 & Hw1).
  fold w1 in Hw1.
  assert (Hnode1 : obj_get (pretty nodeId) (known_nodes w1) = Some node).
  { subst w1. by rewrite (proj1 (keeps_nodeNaming nodeId nodeInfo w)). }
  destruct (nodeNaming_exec nodeId nodeInfo' w1 node Hnode1) as (l1' & l2' & Hw2).
  fold w2 in Hw2.
  assert (Hnamed1 : ZWaveNodes.named (fields_of w1 node) = true).
  { rewrite Hw1. by rewrite fields_with_fields_same. }
  assert (Hdefault1 : ZWaveNodes.defaultName (fields_of w1 node)
                      = ZWaveNodes.defaultName (fields_of w node)).
  { rewrite Hw1.
    destruct (ZWaveNodes.named (fields_of w node));
      rewrite !fields_with_fields_same, ?fields_told, ?fields_with_fields_same;
      cbn; by repeat case_match. }
  rewrite Hnamed1 in Hw2.
  split; [done|]. split; [|split; [|split]].
  - rewrite Hw1.
    destruct (ZWaveNodes.named (fields_of w node));
      rewrite !fields_with_fields_same, ?fields_told, ?fields_with_fields_same;
      cbn; by repeat case_match.
  - intros Hnot. rewrite Hnot in Hw1. exists l1, l2.
    apply effects_since_app. by rewrite Hw1.
  - by rewrite Hw2.
  - rewrite Hw2, !fields_with_fields_same. cbn. rewrite Hdefault1.
    by repeat case_match.
Qed.

End NodeCallbacks.

(** The plug of node 2 has a value of the binary switch class, filed
    under the key 37: [nodeReady] announces the plug and asks the driver
    for nothing. *)
Example ready_plug_is_not_polled :
  let w := stick [ZWaveNodes.NodeAdded 2; ZWaveNodes.ValueAdded 2 37 (switch_value true)] in
  let w' := (ZWaveNodes.nodeReady keep_node 2 w).2 in
  (obj_keys ∘ ZWaveNodes.classes <$> (fields_of w <$> obj_get "2" (known_nodes w)))
  = Some ["37"]
  ∧ effects_since (manager_of w) (manager_of w')
    = [ClassifierCall (plain_node (ZWaveAdapter.base (ZWaveAdapter.self
                                                        (ZWaveNodes.adapter w))) 2).1.(ZWaveAdapter.node_device);
       Emit "thing-added" (OfThing {| thing_id := "zwave-cafebabe-2";
                                      thing_name := EmptyString |})].
Proof. vm_compute. done. Qed.

Lemma added_node_is_announced_when_ready_witness :
  let classify := keep_node in
  let new_ZWaveNode := plain_node in
  let nodeId := 2%N in
  let w := stick [] in
  let w1 := (ZWaveNodes.nodeAdded new_ZWaveNode nodeId w).2 in
  let w2 := (ZWaveNodes.nodeReady classify nodeId w1).2 in
  let new := new_ZWaveNode
               (ZWaveAdapter.base (ZWaveAdapter.self (ZWaveNodes.adapter w))) nodeId in
  let node := ZWaveNodes.with_ref (ZWaveNodes.next_ref w) new.1 in
  let f := ZWaveNodes.set_ready true
             (ZWaveNodes.set_lastStatus "ready"
                (ZWaveNodes.set_lastStatus "added" new.2)) in
  let node' := ZWaveNodes.classified classify f node in
  let device := ZWaveAdapter.node_device node' in
  obj_get (pretty nodeId) (known_nodes w1) = Some node
  ∧ obj_get (pretty nodeId) (pending_nodes w1) = Some node
  ∧ manager_of w1 = manager_of w
  ∧ obj_get (pretty nodeId) (pending_nodes w2) = None
  ∧ if (1 <? nodeId)%N
    then obj_get (pretty nodeId) (known_nodes w2) = Some node'
         ∧ fields_of w2 node = (classify node f).2
         ∧ (getDevice (device_id device) (manager_of w2)).1 = Some device
         ∧ Emit "thing-added" (OfThing (Device_getThing device))
             ∈ effects_since (manager_of w) (manager_of w2)
    else obj_get (pretty nodeId) (known_nodes w2) = Some node
         ∧ manager_of w2 = manager_of w.
Proof.
  intros classify new_ZWaveNode nodeId w.
  apply (added_node_is_announced_when_ready classify new_ZWaveNode nodeId w).
  intros a n. split; reflexivity.
Defined.

Lemma node_ready_again_announces_nothing_witness :
  let w := stick [ZWaveNodes.NodeAdded 1; ZWaveNodes.NodeAdded 2] in
  let w1 := (ZWaveNodes.nodeReady keep_node 2 w).2 in
  let w2 := (ZWaveNodes.nodeReady keep_node 2 w1).2 in
  obj_has (pretty 2%N) (pending_nodes w1) = false
  ∧ ZWaveNodes.adapter w2 = ZWaveNodes.adapter w1.
Proof.
  intros w.
  apply (node_ready_again_announces_nothing keep_node plain_node header_text
           summary_text
           [ZWaveNodes.DriverReady 3405691582; ZWaveNodes.NodeAdded 1;
            ZWaveNodes.NodeAdded 2]
           7 "/dev/ttyACM0" initial (λ _, plain_fields) 0 2%N).
  intros a n. split; reflexivity.
Defined.

Lemma scanComplete_announces_every_waiting_node_witness :
  let classify := keep_node in
  let w := stick [ZWaveNodes.NodeAdded 1; ZWaveNodes.NodeAdded 2;
                  ZWaveNodes.NodeAdded 3; ZWaveNodes.NodeReady 3] in
  let w' := (ZWaveNodes.scanComplete classify header_text summary_text w).2 in
  pending_nodes w' = []
  ∧ ZWaveAdapter.ready (ZWaveAdapter.self (ZWaveNodes.adapter w')) = true
  ∧ (∀ k, is_Some (obj_get k (known_nodes w')) ↔ is_Some (obj_get k (known_nodes w)))
  ∧ (∀ event arg,
       Emit event arg ∈ effects_since (manager_of w) (manager_of w') ↔
       event = "thing-added"
       ∧ ∃ k node, obj_get k (pending_nodes w) = Some node
                   ∧ (1 < ZWaveAdapter.nodeId node)%N
                   ∧ arg = OfThing
                             (Device_getThing
                                (ZWaveAdapter.node_device
                                   (ZWaveNodes.classified classify
                                      (fields_of w node) node))))
  ∧ ∀ method args,
      ZWaveDriverCall method args ∈ effects_since (manager_of w) (manager_of w') ↔
      method = "requestAllConfigParams" ∧ args = ["3"].
Proof.
  intros classify w.
  apply (scanComplete_announces_every_waiting_node keep_node plain_node header_text
           summary_text
           [ZWaveNodes.DriverReady 3405691582; ZWaveNodes.NodeAdded 1;
            ZWaveNodes.NodeAdded 2; ZWaveNodes.NodeAdded 3; ZWaveNodes.NodeReady 3]
           7 "/dev/ttyACM0" initial (λ _, plain_fields) 0).
  intros a n. split; reflexivity.
Defined.

Lemma waiting_nodes_are_known_nodes_witness :
  let w := stick [ZWaveNodes.NodeAdded 1; ZWaveNodes.NodeAdded 2;
                  ZWaveNodes.NodeReady 2; ZWaveNodes.NodeAdded 2;
                  ZWaveNodes.NodeRemoved 1] in
  (∀ k node, obj_get k (pending_nodes w) = Some node →
             obj_get k (known_nodes w) = Some node
             ∧ k = pretty (ZWaveAdapter.zwInfo_nodeId node))
  ∧ (∀ k1 k2 n1 n2,
       obj_get k1 (known_nodes w) = Some n1 → obj_get k2 (known_nodes w) = Some n2 →
       ZWaveAdapter.node_ref n1 = ZWaveAdapter.node_ref n2 → k1 = k2).
Proof.
  intros w.
  apply (waiting_nodes_are_known_nodes keep_node plain_node header_text summary_text
           [ZWaveNodes.DriverReady 3405691582; ZWaveNodes.NodeAdded 1;
            ZWaveNodes.NodeAdded 2; ZWaveNodes.NodeReady 2; ZWaveNodes.NodeAdded 2;
            ZWaveNodes.NodeRemoved 1]
           7 "/dev/ttyACM0" initial (λ _, plain_fields) 0).
  intros a n. split; reflexivity.
Defined.

Lemma removed_node_is_reported_though_never_announced_witness :
  let new_ZWaveNode := plain_node in
  let nodeId := 1%N in
  let w := stick [] in
  let w1 := (ZWaveNodes.nodeAdded new_ZWaveNode nodeId w).2 in
  let w2 := (ZWaveNodes.nodeRemoved nodeId w1).2 in
  let new := new_ZWaveNode
               (ZWaveAdapter.base (ZWaveAdapter.self (ZWaveNodes.adapter w))) nodeId in
  let device := ZWaveAdapter.node_device new.1 in
  manager_of w1 = manager_of w
  ∧ obj_get (pretty nodeId) (known_nodes w2) = None
  ∧ obj_get (pretty nodeId) (pending_nodes w2) = None
  ∧ manager_of w2 = (handleDeviceRemoved device (manager_of w)).2
  ∧ Emit "thing-removed" (OfThing (Device_getThing device))
      ∈ effects_since (manager_of w) (manager_of w2)
  ∧ (∀ arg, Emit "thing-added" arg ∉ effects_since (manager_of w) (manager_of w2))
  ∧ fields_of w2 (ZWaveNodes.with_ref (ZWaveNodes.next_ref w) new.1)
    = ZWaveNodes.set_lastStatus "removed" (ZWaveNodes.set_lastStatus "added" new.2).
Proof.
  intros new_ZWaveNode nodeId w.
  apply (removed_node_is_reported_though_never_announced new_ZWaveNode nodeId w).
  intros a n. split; reflexivity.
Defined.

Lemma reports_about_an_unknown_node_are_dropped_witness :
  let classify := keep_node in
  let nodeId := 9%N in
  let w := stick [ZWaveNodes.NodeAdded 2] in
  (∀ nodeInfo, ZWaveNodes.nodeNaming nodeId nodeInfo w = (tt, w))
  ∧ ZWaveNodes.nodeRemoved nodeId w = (tt, w)
  ∧ ZWaveNodes.nodeReady classify nodeId w = (tt, w)
  ∧ (∀ comClass v,
       ZWaveNodes.valueChanged nodeId comClass v w = (ZWaveLoader.Returned, w))
  ∧ (∀ comClass v, ∃ es,
       (ZWaveNodes.valueAdded nodeId comClass v w).2 = told es w
       ∧ ∀ e, e ∈ es → ∃ l, e = ConsoleLog l)
  ∧ (∀ comClass value_index, ∃ es,
       (ZWaveNodes.valueRemoved nodeId comClass value_index w).2 = told es w
       ∧ ∀ e, e ∈ es → ∃ l, e = ConsoleLog l)
  ∧ (∀ notif, ∃ es,
       (ZWaveNodes.nodeNotification nodeId notif w).2 = told es w
       ∧ ∀ e, e ∈ es → ∃ l, e = ConsoleLog l).
Proof.
  intros classify nodeId w.
  apply (reports_about_an_unknown_node_are_dropped classify nodeId w).
  vm_compute. reflexivity.
Defined.

Lemma valueChanged_needs_a_ready_node_with_the_class_witness :
  let nodeId := 2%N in
  let comClass := 37%N in
  let v := switch_value false in
  let w := stick [ZWaveNodes.NodeAdded 2; ZWaveNodes.NodeReady 2] in
  let node := ZWaveNodes.with_ref 0
                (plain_node (ZWaveAdapter.base
                               (ZWaveAdapter.self (ZWaveNodes.adapter (stick [])))) 2).1 in
  let f := fields_of w node in
  (ZWaveNodes.ready f = false →
   ZWaveNodes.valueChanged nodeId comClass v w = (ZWaveLoader.Returned, w))
  ∧ (ZWaveNodes.ready f = true →
     obj_get (pretty comClass) (ZWaveNodes.classes f) = None →
     ∃ error,
       ZWaveNodes.valueChanged nodeId comClass v w =
         (ZWaveLoader.Threw error,
          told [ConsoleLog ["ZWave: node%d valueChanged: %d:%s -> %s"; pretty nodeId;
                            pretty comClass; ZWaveNodes.value_label v;
                            ZWaveNodes.show_value (ZWaveNodes.value_value v)]] w)).
Proof.
  intros nodeId comClass v w node.
  apply (valueChanged_needs_a_ready_node_with_the_class nodeId comClass v w node).
  vm_compute. reflexivity.
Defined.

Lemma value_added_then_removed_witness :
  let nodeId := 2%N in
  let comClass := 37%N in
  let v := {| ZWaveNodes.value_id := "2-37-1-1"; ZWaveNodes.value_genre := "user";
              ZWaveNodes.value_label := "Power"; ZWaveNodes.value_type := "decimal";
              ZWaveNodes.value_value := JsNumber 12; ZWaveNodes.value_index := 1 |} in
  let w := stick [ZWaveNodes.NodeAdded 2;
                  ZWaveNodes.ValueAdded 2 37 (switch_value true)] in
  let node := ZWaveNodes.with_ref 0
                (plain_node (ZWaveAdapter.base
                               (ZWaveAdapter.self (ZWaveNodes.adapter (stick [])))) 2).1 in
  let vs := [("0", switch_value true)] in
  let f := fields_of w node in
  let w1 := (ZWaveNodes.valueAdded nodeId comClass v w).2 in
  let w2 := (ZWaveNodes.valueRemoved nodeId comClass (ZWaveNodes.value_index v) w1).2 in
  let f1 := fields_of w1 node in
  let f2 := fields_of w2 node in
  let user := bool_decide (ZWaveNodes.value_genre v = "user") in
  obj_get (pretty comClass) (ZWaveNodes.classes f1)
    = Some (vs ++ [(pretty (ZWaveNodes.value_index v), v)])
  ∧ ZWaveNodes.values f1 = ZWaveNodes.values f ++ [(ZWaveNodes.value_id v, v)]
  ∧ ZWaveNodes.properties f1
    = (if user
       then ZWaveNodes.properties f
            ++ [(ZWaveNodes.value_id v, ZWaveNodes.property_of v)]
       else ZWaveNodes.properties f)
  ∧ ZWaveNodes.classes f2 = ZWaveNodes.classes f
  ∧ ZWaveNodes.values f2 = ZWaveNodes.values f
  ∧ ZWaveNodes.properties f2 = ZWaveNodes.properties f
  ∧ ZWaveNodes.lastStatus f2 = Some "added"
  ∧ ZWaveNodes.defaultName f2
    = (if user && negb (ZWaveNodes.opt_truthy (ZWaveNodes.defaultName f))
       then Some (adapter_id (ZWaveAdapter.base
                                (ZWaveAdapter.self (ZWaveNodes.adapter w)))
                  +:+ "-" +:+ pretty nodeId +:+ "-" +:+ ZWaveNodes.value_label v)
       else ZWaveNodes.defaultName f)
  ∧ same_nodes w w2.
Proof.
  intros nodeId comClass v w node vs.
  apply (value_added_then_removed nodeId comClass v w node vs).
  - vm_compute. reflexivity.
  - vm_compute. reflexivity.
  - unfold absent. apply (bool_decide_unpack _). vm_compute. exact I.
  - unfold absent. apply (bool_decide_unpack _). vm_compute. exact I.
  - unfold absent. apply (bool_decide_unpack _). vm_compute. exact I.
Defined.

Lemma changed_value_does_not_reach_node_values_witness :
  let nodeId := 2%N in
  let comClass := 37%N in
  let v := switch_value true in
  let v' := switch_value false in
  let w := stick [ZWaveNodes.NodeAdded 2; ZWaveNodes.NodeReady 2] in
  let node := ZWaveNodes.with_ref 0
                (plain_node (ZWaveAdapter.base
                               (ZWaveAdapter.self (ZWaveNodes.adapter (stick [])))) 2).1 in
  let w1 := (ZWaveNodes.valueAdded nodeId comClass v w).2 in
  let r := ZWaveNodes.valueChanged nodeId comClass v' w1 in
  let f2 := fields_of r.2 node in
  r.1 = ZWaveLoader.Returned
  ∧ (∃ vs, obj_get (pretty comClass) (ZWaveNodes.classes f2) = Some vs
           ∧ obj_get (pretty (ZWaveNodes.value_index v)) vs = Some v')
  ∧ obj_get (ZWaveNodes.value_id v) (ZWaveNodes.properties f2)
    = Some {| ZWaveNodes.property_id := ZWaveNodes.value_id v;
              ZWaveNodes.property_name := ZWaveNodes.value_label v;
              ZWaveNodes.property_type := ZWaveNodes.value_type v;
              ZWaveNodes.property_value := ZWaveNodes.value_value v';
              ZWaveNodes.property_zwValue := v' |}
  ∧ obj_get (ZWaveNodes.value_id v) (ZWaveNodes.values f2) = Some v.
Proof.
  intros nodeId comClass v v' w node.
  apply (changed_value_does_not_reach_node_values nodeId comClass v v' w node).
  - vm_compute. reflexivity.
  - vm_compute. reflexivity.
  - reflexivity.
  - reflexivity.
  - reflexivity.
Defined.

Lemma node_is_named_aloud_once_witness :
  let nodeId := 2%N in
  let nodeInfo :=
    {| ZWaveNodes.nodeInfo_name := EmptyString; ZWaveNodes.nodeInfo_loc := "Kitchen";
       ZWaveNodes.nodeInfo_manufacturer := "Aeotec";
       ZWaveNodes.nodeInfo_manufacturerid := "0x0086";
       ZWaveNodes.nodeInfo_product := "Unknown: type=0003, id=0060";
       ZWaveNodes.nodeInfo_producttype := "0x0003";
       ZWaveNodes.nodeInfo_productid := "0x0060";
       ZWaveNodes.nodeInfo_type := "On/Off Power Switch" |} in
  let nodeInfo' :=
    {| ZWaveNodes.nodeInfo_name := "Kettle"; ZWaveNodes.nodeInfo_loc := "Kitchen";
       ZWaveNodes.nodeInfo_manufacturer := "Aeotec";
       ZWaveNodes.nodeInfo_manufacturerid := "0x0086";
       ZWaveNodes.nodeInfo_product := "Smart Switch 6";
       ZWaveNodes.nodeInfo_producttype := "0x0003";
       ZWaveNodes.nodeInfo_productid := "0x0060";
       ZWaveNodes.nodeInfo_type := "On/Off Power Switch" |} in
  let w := stick [ZWaveNodes.NodeAdded 2] in
  let node := ZWaveNodes.with_ref 0
                (plain_node (ZWaveAdapter.base
                               (ZWaveAdapter.self (ZWaveNodes.adapter (stick [])))) 2).1 in
  let w1 := (ZWaveNodes.nodeNaming nodeId nodeInfo w).2 in
  let w2 := (ZWaveNodes.nodeNaming nodeId nodeInfo' w1).2 in
  ZWaveNodes.named (fields_of w1 node) = true
  ∧ ZWaveNodes.lastStatus (fields_of w1 node) = Some "named"
  ∧ (ZWaveNodes.named (fields_of w node) = false →
     ∃ line1 line2, effects_since (manager_of w) (manager_of w1)
                    = [ConsoleLog line1; ConsoleLog line2])
  ∧ ZWaveNodes.adapter w2 = ZWaveNodes.adapter w1
  ∧ ZWaveNodes.name (fields_of w2 node)
    = (if ZWaveNodes.text_truthy (ZWaveNodes.nodeInfo_name nodeInfo')
       then ZWaveNodes.nodeInfo_name nodeInfo'
       else if ZWaveNodes.opt_truthy (ZWaveNodes.defaultName (fields_of w node))
       then ZWaveNodes.show_text (ZWaveNodes.defaultName (fields_of w node))
       else if (1 <? nodeId)%N then device_id (ZWaveAdapter.node_device node)
       else ZWaveNodes.name (fields_of w1 node)).
Proof.
  intros nodeId nodeInfo nodeInfo' w node.
  apply (node_is_named_aloud_once nodeId nodeInfo nodeInfo' w node).
  vm_compute. reflexivity.
Defined.

(** One plug from its discovery to its removal: what the manager hears
    and what the driver is asked. *)
Example life_of_a_plug :
  let w := stick [ZWaveNodes.NodeAdded 1; ZWaveNodes.NodeAdded 2;
                  ZWaveNodes.ValueAdded 2 37 (switch_value false);
                  ZWaveNodes.NodeReady 2; ZWaveNodes.ScanComplete;
                  ZWaveNodes.ValueChanged 2 37 (switch_value true);
                  ZWaveNodes.NodeRemoved 2] in
  obj_keys (known_nodes w) = ["1"]
  ∧ pending_nodes w = []
  ∧ devices (this (manager_of w)) = []
  ∧ List.filter (λ e, match e with ConsoleLog _ => false | _ => true end)
      (trace (manager_of w))
    = [ZWaveDriverCall "connect" ["/dev/ttyACM0"];
       Emit "adapter-added"
         (OfAdapter {| adapter_ref := 7; adapter_id := "zwave-cafebabe";
                       adapter_name := "ZWaveAdapter";
                       adapter_constructor_name := "ZWaveAdapter" |});
       ClassifierCall {| device_id := "zwave-cafebabe-2"; device_adapter := 7;
                         device_thing := {| thing_id := "zwave-cafebabe-2";
                                            thing_name := EmptyString |};
                         device_properties := [] |};
       Emit "thing-added" (OfThing {| thing_id := "zwave-cafebabe-2";
                                      thing_name := EmptyString |});
       ZWaveDriverCall "requestAllConfigParams" ["3"];
       Emit "thing-removed" (OfThing {| thing_id := "zwave-cafebabe-2";
                                        thing_name := EmptyString |})].
Proof. vm_compute. done. Qed.

(** * The Z-Wave adapter and the registry of adapters *)

Section Registry.

Variable classify : ZWaveAdapter.ZWaveNode → ZWaveNodes.NodeFields
                    → ZWaveAdapter.ZWaveNode * ZWaveNodes.NodeFields.
Variable new_ZWaveNode : Adapter → N → ZWaveAdapter.ZWaveNode * ZWaveNodes.NodeFields.
Variable oneLineHeader : N → string.
Variable node_oneLineSummary
  : ZWaveAdapter.ZWaveNode → ZWaveNodes.NodeFields → string.

Lemma registry_ret {A} (a : A) : keeps_registry (mret a).
Proof. intros w. done. Qed.

Lemma registry_bind {A B} (m : ZWaveNodes.M A) (k : A → ZWaveNodes.M B) :
  keeps_registry m → (∀ a, keeps_registry (k a)) → keeps_registry (m ≫= k).
Proof.
  intros Hm Hk w. unfold mbind, ZWaveNodes.M_bind.
  destruct (Hm w) as [Hb Ha]. destruct (m w) as [a w1]. cbn [snd] in Hb, Ha.
  destruct (Hk a w1) as [Hb' Ha']. by rewrite Hb', Ha', Hb, Ha.
Qed.

Lemma registry_update (node : ZWaveAdapter.ZWaveNode)
    (g : ZWaveNodes.NodeFields → ZWaveNodes.NodeFields) :
  keeps_registry (ZWaveNodes.update node g).
Proof. intros w. done. Qed.

Lemma registry_tell (es : list Effect) : keeps_registry (ZWaveNodes.tell es).
Proof. intros w. done. Qed.

Lemma registry_console_log (args : list string) :
  keeps_registry (ZWaveNodes.console_log args).
Proof. intros w. done. Qed.

Lemma registry_read {A} (f : ZWaveAdapter.t → A) : keeps_registry (ZWaveNodes.read f).
Proof. intros w. done. Qed.

Lemma registry_get (node : ZWaveAdapter.ZWaveNode) : keeps_registry (ZWaveNodes.get node).
Proof. intros w. done. Qed.

Lemma registry_for_each {A} (l : list A) (body : A → ZWaveNodes.M unit) :
  (∀ x, keeps_registry (body x)) → keeps_registry (ZWaveNodes.for_each l body).
Proof.
  intros Hbody. induction l as [|x l IH]; simpl.
  - apply registry_ret.
  - apply registry_bind; [apply Hbody | intros; apply IH].
Qed.

(** A call of the adapter that [ZWaveAdapter.dispatch] covers, driver-ready
    apart. *)
Lemma registry_on_adapter (cls : ZWaveAdapter.ZWaveNode → ZWaveAdapter.ZWaveNode)
    (c : ZWaveAdapter.Callback) :
  (∀ homeId, c ≠ ZWaveAdapter.DriverReady homeId) →
  keeps_registry (ZWaveNodes.on_adapter (ZWaveAdapter.dispatch cls c)).
Proof.
  intros Hc w. destruct (dispatch_keeps_adapters cls c (ZWaveNodes.adapter w) Hc)
    as [Hb Ha].
  unfold ZWaveNodes.on_adapter, manager_of.
  by destruct (ZWaveAdapter.dispatch cls c (ZWaveNodes.adapter w)) as [a zw].
Qed.

Lemma registry_handleDeviceAdded (node : ZWaveAdapter.ZWaveNode) :
  keeps_registry (ZWaveNodes.handleDeviceAdded classify node).
Proof.
  unfold ZWaveNodes.handleDeviceAdded.
  apply registry_bind; [apply registry_get|]. intros f.
  apply registry_bind.
  - by apply (registry_on_adapter (ZWaveNodes.classified classify f)
                (ZWaveAdapter.DeviceAdded node)).
  - intros _. destruct (1 <? ZWaveAdapter.nodeId node)%N;
      [apply registry_update | apply registry_ret].
Qed.

Lemma registry_write (f : ZWaveAdapter.t → ZWaveAdapter.t) :
  (∀ z, ZWaveAdapter.base (f z) = ZWaveAdapter.base z) →
  keeps_registry (ZWaveNodes.write f).
Proof. intros Hf w. split; [apply Hf | done]. Qed.

Lemma registry_new_node (nodeId : N) :
  keeps_registry (ZWaveNodes.new_node new_ZWaveNode nodeId).
Proof.
  intros w. unfold ZWaveNodes.new_node.
  by destruct (new_ZWaveNode _ nodeId) as [node f].
Qed.

Ltac registry :=
  unfold ZWaveNodes.DEBUG; cbn [orb negb];
  repeat first
    [ apply registry_ret | apply registry_update | apply registry_tell
    | apply registry_console_log | apply registry_read | apply registry_get
    | apply registry_handleDeviceAdded | apply registry_new_node
    | apply registry_write; done
    | apply registry_for_each; intros
    | apply registry_bind; [|intros]
    | match goal with
      | |- keeps_registry (match ?x with _ => _ end) => destruct x
      end ].

(** Every callback but driver-ready leaves the adapter's base fields,
    its id among them, and the registry of adapters as they are. *)
Lemma callback_keeps_registry (c : ZWaveNodes.Callback) :
  (∀ homeId, c ≠ ZWaveNodes.DriverReady homeId) →
  keeps_registry
    (ZWaveNodes.dispatch classify new_ZWaveNode oneLineHeader node_oneLineSummary c).
Proof.
  intros Hc. destruct c; cbn [ZWaveNodes.dispatch].
  - unfold ZWaveNodes.controllerCommand. registry.
  - by destruct (Hc homeId).
  - by apply (registry_on_adapter (λ n, n) ZWaveAdapter.DriverFailed).
  - unfold ZWaveNodes.scanComplete, ZWaveNodes.dump, ZWaveNodes.oneLineSummary.
    registry.
  - unfold ZWaveNodes.nodeAdded. registry.
  - unfold ZWaveNodes.nodeNaming. registry.
  - unfold ZWaveNodes.nodeRemoved. registry.
    by apply (registry_on_adapter (λ n, n) (ZWaveAdapter.DeviceRemoved _)).
  - unfold ZWaveNodes.nodeEvent. registry.
  - unfold ZWaveNodes.nodeReady. registry.
  - unfold ZWaveNodes.nodeNotification. registry.
  - unfold ZWaveNodes.valueAdded. registry.
  - unfold ZWaveNodes.valueChanged. registry.
  - unfold ZWaveNodes.valueRemoved. registry.
  - by apply (registry_on_adapter (λ n, n) ZWaveAdapter.StartPairing).
  - by apply (registry_on_adapter (λ n, n) ZWaveAdapter.CancelPairing).
  - by apply (registry_on_adapter (λ n, n) ZWaveAdapter.StartUnpairing).
  - by apply (registry_on_adapter (λ n, n) ZWaveAdapter.CancelUnpairing).
Qed.

Lemma nodes_run_registry (ref : ObjRef) (cs : list ZWaveNodes.Callback) :
  ∀ (w : ZWaveNodes.World) (P : N → Prop),
    adapter_ref (ZWaveAdapter.base (ZWaveAdapter.self (ZWaveNodes.adapter w))) = ref →
    (∀ k a, obj_get k (adapters (this (manager_of w))) = Some a →
            adapter_ref a = ref →
            a = ZWaveAdapter.base (ZWaveAdapter.self (ZWaveNodes.adapter w))
            ∧ (∃ h, P h ∧ k = "zwave-" +:+ ZWaveAdapter.toString16 h)
            ∧ (∃ h, P h ∧ adapter_id a = "zwave-" +:+ ZWaveAdapter.toString16 h)) →
    let w' := ZWaveNodes.run classify new_ZWaveNode oneLineHeader node_oneLineSummary
                cs w in
    ∀ k a, obj_get k (adapters (this (manager_of w'))) = Some a →
           adapter_ref a = ref →
           a = ZWaveAdapter.base (ZWaveAdapter.self (ZWaveNodes.adapter w'))
           ∧ (∃ h, (P h ∨ ZWaveNodes.DriverReady h ∈ cs)
                   ∧ k = "zwave-" +:+ ZWaveAdapter.toString16 h)
           ∧ (∃ h, (P h ∨ ZWaveNodes.DriverReady h ∈ cs)
                   ∧ adapter_id a = "zwave-" +:+ ZWaveAdapter.toString16 h).
Proof.
  induction cs as [|c cs IH]; intros w P Href Hinv w' k a Hget Ha; subst w'.
  - destruct (Hinv k a Hget Ha) as (Hbase & (h & Hh & Hk) & (h' & Hh' & Hid)).
    split; [done|]. split; [exists h | exists h']; auto.
  - simpl in Hget |- *.
    set (w1 := (ZWaveNodes.dispatch classify new_ZWaveNode oneLineHeader
                  node_oneLineSummary c w).2) in *.
    assert (adapter_ref (ZWaveAdapter.base (ZWaveAdapter.self (ZWaveNodes.adapter w1)))
            = ref
            ∧ ∀ k a, obj_get k (adapters (this (manager_of w1))) = Some a →
                adapter_ref a = ref →
                a = ZWaveAdapter.base (ZWaveAdapter.self (ZWaveNodes.adapter w1))
                ∧ (∃ h, (P h ∨ ZWaveNodes.DriverReady h = c)
                        ∧ k = "zwave-" +:+ ZWaveAdapter.toString16 h)
                ∧ (∃ h, (P h ∨ ZWaveNodes.DriverReady h = c)
                        ∧ adapter_id a = "zwave-" +:+ ZWaveAdapter.toString16 h))
      as [Href1 Hinv1].
    { assert ((∃ h0, c = ZWaveNodes.DriverReady h0)
              ∨ ∀ h0, c ≠ ZWaveNodes.DriverReady h0) as [[h0 ->]|Hnot]
        by (destruct c; eauto; by right).
      - subst w1. cbn [ZWaveNodes.dispatch].
        destruct (driverReady_registry h0 (ZWaveNodes.adapter w))
          as (Hr & Hid & _ & Hentries).
        unfold manager_of, ZWaveNodes.on_adapter in *.
        destruct (ZWaveAdapter.driverReady h0 (ZWaveNodes.adapter w)) as [[] zw].
        cbn [snd ZWaveNodes.adapter ZWaveNodes.with_adapter] in *.
        split; [congruence|]. intros k1 a1 Hget1 Ha1.
        destruct (Hentries k1 a1 Hget1) as [(_ & -> & Hkey)|[Hne _]];
          [|congruence].
        split; [done|]. split.
        + destruct Hkey as [->|(a0 & Hget0 & Ha0)].
          * exists h0. auto.
          * destruct (Hinv k1 a0 Hget0) as (_ & (h & Hh & Hk) & _); [congruence|].
            exists h. auto.
        + exists h0. auto.
      - destruct (callback_keeps_registry c Hnot w) as [Hbase Hads].
        fold w1 in Hbase, Hads. rewrite Hbase, Hads. split; [done|].
        intros k1 a1 Hget1 Ha1.
        destruct (Hinv k1 a1 Hget1 Ha1) as (Hb & (h & Hh & Hk) & (h' & Hh' & Hid)).
        split; [done|]. split; [exists h | exists h']; auto. }
    destruct (IH w1 (λ h, P h ∨ ZWaveNodes.DriverReady h = c) Href1 Hinv1 k a Hget Ha)
      as (Hbase & (h & Hh & Hk) & (h' & Hh' & Hid)).
    split; [done|].
    split; [exists h | exists h']; (split; [|done]); rewrite elem_of_cons; tauto.
Qed.

Lemma nodes_run_without_driver_ready (cs : list ZWaveNodes.Callback) :
  ∀ w : ZWaveNodes.World,
    (∀ homeId, ZWaveNodes.DriverReady homeId ∉ cs) →
    let w' := ZWaveNodes.run classify new_ZWaveNode oneLineHeader node_oneLineSummary
                cs w in
    adapters (this (manager_of w')) = adapters (this (manager_of w))
    ∧ ZWaveAdapter.base (ZWaveAdapter.self (ZWaveNodes.adapter w'))
      = ZWaveAdapter.base (ZWaveAdapter.self (ZWaveNodes.adapter w)).
Proof.
  induction cs as [|c cs IH]; intros w Hcs; [done|]. simpl.
  destruct (IH (ZWaveNodes.dispatch classify new_ZWaveNode oneLineHeader
                  node_oneLineSummary c w).2) as [-> ->].
  - intros h Hh. apply (Hcs h). by apply list_elem_of_further.
  - destruct (callback_keeps_registry c) with (w := w) as [Hbase Hads]; [|done].
    intros h ->. apply (Hcs h), list_elem_of_here.
Qed.

(** C9. The driver-failed path only logs and disconnects: the adapter
    and the registry are as before.  The driver-ready path first sets the
    adapter's id to 'zwave-' followed by the home id in hexadecimal, then
    registers the adapter under that id.  A newly constructed adapter
    carries the provisional id '???' and is not registered; whatever
    follows, in any order and number, of the thirteen callbacks that the
    constructor registers with the driver and of the four pairing
    methods, every entry of the registry that holds this adapter is filed
    under an id that a driver-ready callback has set, and the adapter it
    holds carries such an id, never '???'; and as long as no driver-ready
    callback has come, the registry stays as it was and the adapter keeps
    the provisional id. *)
Theorem zwave_adapter_registered_only_when_driver_ready :
  (∀ w : ZWaveAdapter.World,
     let w' := (ZWaveAdapter.driverFailed w).2 in
     this (ZWaveAdapter.manager w') = this (ZWaveAdapter.manager w)
     ∧ ZWaveAdapter.self w' = ZWaveAdapter.self w
     ∧ effects_since (ZWaveAdapter.manager w) (ZWaveAdapter.manager w')
       = [ConsoleLog ["ZWave: failed to start driver"];
          ZWaveDriverCall "disconnect" [ZWaveAdapter.port_comName (ZWaveAdapter.self w)]])
  ∧ (∀ (homeId : N) (w : ZWaveAdapter.World),
       let w' := (ZWaveAdapter.driverReady homeId w).2 in
       let id := "zwave-" +:+ ZWaveAdapter.toString16 homeId in
       adapter_id (ZWaveAdapter.base (ZWaveAdapter.self w')) = id
       ∧ (getAdapter id (ZWaveAdapter.manager w')).1
         = Some (ZWaveAdapter.base (ZWaveAdapter.self w')))
  ∧ (∀ (cs : list ZWaveNodes.Callback) (ref : ObjRef) (comName : string) (mw : World)
       (fields0 : ObjRef → ZWaveNodes.NodeFields) (next : ObjRef),
       let w0 := ZWaveNodes.construct ref comName mw fields0 next in
       let w := ZWaveNodes.run classify new_ZWaveNode oneLineHeader node_oneLineSummary
                  cs w0 in
       (∀ k a, obj_get k (adapters (this mw)) = Some a → adapter_ref a ≠ ref) →
       adapter_id (ZWaveAdapter.base (ZWaveAdapter.self (ZWaveNodes.adapter w0))) = "???"
       ∧ adapters (this (manager_of w0)) = adapters (this mw)
       ∧ (∀ k a, obj_get k (adapters (this (manager_of w))) = Some a →
                 adapter_ref a = ref →
                 k ≠ "???" ∧ adapter_id a ≠ "???"
                 ∧ a = ZWaveAdapter.base (ZWaveAdapter.self (ZWaveNodes.adapter w))
                 ∧ (∃ homeId, ZWaveNodes.DriverReady homeId ∈ cs
                              ∧ k = "zwave-" +:+ ZWaveAdapter.toString16 homeId)
                 ∧ (∃ homeId, ZWaveNodes.DriverReady homeId ∈ cs
                              ∧ adapter_id a
                                = "zwave-" +:+ ZWaveAdapter.toString16 homeId))
       ∧ ((∀ homeId, ZWaveNodes.DriverReady homeId ∉ cs) →
          adapters (this (manager_of w)) = adapters (this mw)
          ∧ adapter_id (ZWaveAdapter.base (ZWaveAdapter.self (ZWaveNodes.adapter w)))
            = "???")).
Proof.
  split; [|split].
  - intros w w'. subst w'. rewrite driverFailed_exec. cbn [snd].
    erewrite effects_since_app by reflexivity. done.
  - intros homeId w w' id.
    destruct (driverReady_registry homeId w) as (_ & Hid & Hget & _). done.
  - intros cs ref comName mw fields0 next w0 w Hfresh.
    split; [done|]. split; [done|]. split.
    + intros k a Hget Ha.
      destruct (nodes_run_registry ref cs w0 (λ _, False)) with (k := k) (a := a)
        as (Hbase & (h & [[]|Hh] & Hk) & (h' & [[]|Hh'] & Hid)); try done.
      * intros k' a' Hget' Ha'. by destruct (Hfresh k' a' Hget').
      * rewrite Hk, Hid. split; [apply zwave_id_not_provisional|].
        split; [apply zwave_id_not_provisional|]. split; [done|].
        split; [by exists h | by exists h'].
    + intros Hcs. subst w.
      destruct (nodes_run_without_driver_ready cs w0 Hcs) as [-> ->]. done.
Qed.

End Registry.

(** The driver fails, and nodes are reported all the same: the adapter
    is never registered and keeps the provisional id. *)
Example driver_failed_and_nodes_reported :
  let w := ZWaveNodes.run keep_node plain_node header_text summary_text
             [ZWaveNodes.DriverFailed; ZWaveNodes.NodeAdded 1; ZWaveNodes.NodeAdded 2;
              ZWaveNodes.NodeReady 2; ZWaveNodes.ScanComplete;
              ZWaveNodes.NodeRemoved 2]
             (ZWaveNodes.construct 7 "/dev/ttyACM0" initial (λ _, plain_fields) 0) in
  adapters (this (manager_of w)) = []
  ∧ adapter_id (ZWaveAdapter.base (ZWaveAdapter.self (ZWaveNodes.adapter w))) = "???".
Proof. vm_compute. done. Qed.
